(** * AI Customer Health Monitor: a shallow embedding of [app.py]

    The program is a Streamlit dashboard.  Its logic is: render a prompt
    from a customer row, call a remote text-generation endpoint, strip
    code fences from the reply, decode it as JSON, and bind the decoded
    value to widgets; a batch loop does the same for a prefix of the table
    and aggregates the successes.

    Python values are modelled as follows.
    - [str] is a list of Unicode code points ([N]).
    - An [int] is an integer ([Z]); a finite [float] is given by its exact
      value ([Q]), and a number becomes a float by rounding to the nearest
      binary64 number where the program formats or decodes one.
    - Exceptions are values of type [exn]; fallible code returns a
      [result]; code with effects (remote calls, [st.error]) threads a
      [state] through a small state-and-exception monad.
    - The remote endpoint and the credential are inputs of the model: the
      endpoint is a function of the credential, the request and the state of
      the outside world. *)

From Stdlib Require Import List Bool Arith NArith ZArith Lia.
From Stdlib Require Import QArith Qabs Qpower Qfield.
From Stdlib Require Import Strings.String Strings.Ascii.
From Stdlib Require DecimalN DecimalPos.
Import ListNotations.

Close Scope Q_scope.
Set Implicit Arguments.
Set Warnings "-register-all".

(* ================================================================== *)
(** * Part I. Definitions *)
(* ================================================================== *)

(** ** Python strings *)

Module PyStr.

Definition char := N.
Definition str := list char.

Definition flush (acc : option N) : str :=
  match acc with Some c => [c] | None => [] end.

(** [utf8_from acc s] decodes the UTF-8 bytes of a literal into code points;
    [acc] is the code point under construction. *)
Fixpoint utf8_from (acc : option N) (s : string) : str :=
  match s with
  | EmptyString => flush acc
  | String a t =>
      let b := N_of_ascii a in
      if (b <? 128)%N then flush acc ++ b :: utf8_from None t
      else if (b <? 192)%N then
        utf8_from (option_map (fun c => c * 64 + (b - 128))%N acc) t
      else if (b <? 224)%N then flush acc ++ utf8_from (Some (b - 192)%N) t
      else if (b <? 240)%N then flush acc ++ utf8_from (Some (b - 224)%N) t
      else flush acc ++ utf8_from (Some (b - 240)%N) t
  end.

(** A Python string literal. *)
Definition u (s : string) : str := utf8_from None s.

(** A literal whose double quotes are written as single quotes. *)
Definition uq (s : string) : str :=
  map (fun c => if (c =? 39)%N then 34%N else c) (u s).

Fixpoint eqb (a b : str) : bool :=
  match a, b with
  | [], [] => true
  | x :: a', y :: b' => (x =? y)%N && eqb a' b'
  | _, _ => false
  end.

(** [s.startswith(p)] *)
Fixpoint starts_with (p s : str) : bool :=
  match p, s with
  | [], _ => true
  | _ :: _, [] => false
  | a :: p', b :: s' => (a =? b)%N && starts_with p' s'
  end.

(** [p in s] *)
Fixpoint contains (p s : str) : bool :=
  starts_with p s ||
  match s with
  | [] => false
  | _ :: t => contains p t
  end.

(** The scan of [str.replace] and [str.count]: left to right, and a match
    consumes its characters ([skip] counts those still to pass over). *)
Fixpoint replace_from (old new : str) (skip : nat) (s : str) : str :=
  match s with
  | [] => []
  | c :: t =>
      match skip with
      | S k => replace_from old new k t
      | O =>
          if starts_with old s
          then new ++ replace_from old new (List.length old - 1) t
          else c :: replace_from old new 0 t
      end
  end.

(** [s.replace(old, new)] *)
Definition replace (old new s : str) : str :=
  match old with
  | [] => new ++ flat_map (fun c => c :: new) s
  | _ :: _ => replace_from old new 0 s
  end.

Fixpoint count_from (p : str) (skip : nat) (s : str) : nat :=
  match s with
  | [] => 0
  | _ :: t =>
      match skip with
      | S k => count_from p k t
      | O =>
          if starts_with p s
          then S (count_from p (List.length p - 1) t)
          else count_from p 0 t
      end
  end.

(** [s.count(p)] for a non-empty [p]: the non-overlapping occurrences. *)
Definition count (p s : str) : nat := count_from p 0 s.

(** [c.isspace()]: the characters [str.strip()] removes. *)
Definition is_space (c : char) : bool :=
  ((9 <=? c) && (c <=? 13) || (28 <=? c) && (c <=? 32)
   || (c =? 133) || (c =? 160) || (c =? 5760)
   || (8192 <=? c) && (c <=? 8202)
   || (c =? 8232) || (c =? 8233) || (c =? 8239) || (c =? 8287)
   || (c =? 12288))%N.

Fixpoint lstrip (s : str) : str :=
  match s with
  | [] => []
  | c :: t => if is_space c then lstrip t else s
  end.

Definition rstrip (s : str) : str := rev (lstrip (rev s)).

(** [s.strip()] *)
Definition strip (s : str) : str := rstrip (lstrip s).

(** *** Numbers as text *)

Fixpoint uint_chars (d : Decimal.uint) : str :=
  match d with
  | Decimal.Nil => []
  | Decimal.D0 r => 48%N :: uint_chars r
  | Decimal.D1 r => 49%N :: uint_chars r
  | Decimal.D2 r => 50%N :: uint_chars r
  | Decimal.D3 r => 51%N :: uint_chars r
  | Decimal.D4 r => 52%N :: uint_chars r
  | Decimal.D5 r => 53%N :: uint_chars r
  | Decimal.D6 r => 54%N :: uint_chars r
  | Decimal.D7 r => 55%N :: uint_chars r
  | Decimal.D8 r => 56%N :: uint_chars r
  | Decimal.D9 r => 57%N :: uint_chars r
  end.

Definition str_of_N (n : N) : str := uint_chars (N.to_uint n).

(** [str(z)] for an integer. *)
Definition str_of_Z (z : Z) : str :=
  if (z <? 0)%Z then 45%N :: str_of_N (Z.abs_N z) else str_of_N (Z.to_N z).

Definition is_digit (c : char) : bool := ((48 <=? c) && (c <=? 57))%N.

(** The value of a run of decimal digits, read left to right. *)
Definition digit_step (acc : N) (c : char) : N := (acc * 10 + (c - 48))%N.

Definition digits_value (s : str) : N := fold_left digit_step s 0%N.

(** [int(s)] on plain decimal text: an optional minus sign and digits. *)
Definition int_of_str (s : str) : option Z :=
  match s with
  | [] => None
  | c :: t =>
      if (c =? 45)%N then
        match t with
        | [] => None
        | _ :: _ =>
            if forallb is_digit t then Some (- Z.of_N (digits_value t))%Z
            else None
        end
      else if forallb is_digit s then Some (Z.of_N (digits_value s))
      else None
  end.

(** Rounding to the nearest integer, ties to even: how [format] rounds the
    exact value of a float to the digits asked for. *)
Definition round_half_even (q : Q) : Z :=
  let n := Qnum q in
  let d := Z.pos (Qden q) in
  let fl := (n / d)%Z in
  let r := (n mod d)%Z in
  if (2 * r <? d)%Z then fl
  else if (d <? 2 * r)%Z then (fl + 1)%Z
  else if Z.even fl then fl else (fl + 1)%Z.

(** *** Floats *)

(** [n * 2^-e] and [d * 2^e] as integers: their quotient is
    [(n/d) / 2^e]. *)
Definition scaled_num (n e : Z) : Z := (n * 2 ^ Z.max 0 (- e))%Z.
Definition scaled_den (d e : Z) : Z := (d * 2 ^ Z.max 0 e)%Z.

(** The exponent of the unit in the last place of the binary64 float
    nearest to [n/d] (both positive): the [e] with
    [2^52 <= (n/d) / 2^e < 2^53], and -1074 at least, where the floats
    become subnormal. *)
Definition float_exponent (n d : Z) : Z :=
  let e0 := (Z.log2 n - Z.log2 d - 52)%Z in
  let e :=
    if (scaled_num n e0 <? 2 ^ 52 * scaled_den d e0)%Z then (e0 - 1)%Z
    else e0 in
  Z.max e (-1074).

(** [float(x)] for a number [x] given by its exact value, by the exact
    value of the float: the binary64 number nearest to [x], ties to the
    even significand.  An [int64] and a finite [float64] are in range, so
    no overflow is modelled here; a float is its own nearest float. *)
Definition to_float (x : Q) : Q :=
  let n := Z.abs (Qnum x) in
  let d := Z.pos (Qden x) in
  if (n =? 0)%Z then 0%Q
  else
    let e := float_exponent n d in
    let m := round_half_even (scaled_num n e # Z.to_pos (scaled_den d e)) in
    Qred ((Z.sgn (Qnum x) * m * 2 ^ Z.max 0 e)
          # Z.to_pos (2 ^ Z.max 0 (- e))).

(** Digits in reverse order, a comma after every third one that has a
    successor. *)
Fixpoint group_rev (k : nat) (ds : str) : str :=
  match ds with
  | [] => []
  | d :: t =>
      match k with
      | 3 => 44%N :: d :: group_rev 1 t
      | _ => d :: group_rev (S k) t
      end
  end.

(** The [,] option of the format mini-language: thousands separators. *)
Definition group3 (ds : str) : str := rev (group_rev 0 (rev ds)).

Definition two_digits (n : N) : str := [(48 + n / 10)%N; (48 + n mod 10)%N].

(** [format(x, ',.2f')] for an [int] or a finite [float] [x] given by its
    exact value: [x] is taken to a float, and the float is rounded to
    hundredths.  The floats without an exact value of their own (NaN, the
    infinities, and the negative zero, which prints as [-0.00]) are left
    out. *)
Definition format_money (x : Q) : str :=
  let cents := Z.to_N (round_half_even (Qabs (to_float x) * 100)%Q) in
  (if Qlt_le_dec x 0%Q then [45%N] else [])
    ++ group3 (str_of_N (cents / 100)) ++ 46%N :: two_digits (cents mod 100).

End PyStr.

(** ** Exceptions and results *)

Module Py.
Import PyStr.

Inductive exn_kind :=
| KeyError | IndexError | TypeError | AttributeError | ZeroDivisionError
| JSONDecodeError | APIError | ValueError.

(** A raised exception: its class and [str(e)]. *)
Record exn := Exc { exn_kind_of : exn_kind; exn_str : str }.

Inductive result (A : Type) :=
| Ok (a : A)
| Raise (e : exn).
Arguments Ok {A} a.
Arguments Raise {A} e.

Definition rbind {A B} (r : result A) (k : A -> result B) : result B :=
  match r with
  | Ok a => k a
  | Raise e => Raise e
  end.

Definition kind_eqb (a b : exn_kind) : bool :=
  match a, b with
  | KeyError, KeyError | IndexError, IndexError | TypeError, TypeError
  | AttributeError, AttributeError | ZeroDivisionError, ZeroDivisionError
  | JSONDecodeError, JSONDecodeError | APIError, APIError
  | ValueError, ValueError => true
  | _, _ => false
  end.

(** [raises k r]: [r] is an exception of class [k]. *)
Definition raises {A} (k : exn_kind) (r : result A) : bool :=
  match r with
  | Ok _ => false
  | Raise e => kind_eqb k (exn_kind_of e)
  end.

End Py.

(** ** Decoded JSON values *)

Module Json.
Import PyStr Py.

(** A float: a finite one by its exact value, or one of the three that
    have none.  (The negative zero has the value of zero.) *)
Inductive pyfloat :=
| FNum (q : Q)
| FNaN
| FInf (neg : bool).

(** What [json.loads] returns: [None], [bool], [int], [float], [str],
    [list], [dict].  A [dict] keeps its keys in insertion order. *)
Inductive json :=
| JNull
| JBool (b : bool)
| JInt (z : Z)
| JFloat (f : pyfloat)
| JStr (s : str)
| JArr (l : list json)
| JObj (kv : list (str * json)).

(** [d[k] = v] on a dict. *)
Fixpoint dict_set (k : str) (v : json) (d : list (str * json))
  : list (str * json) :=
  match d with
  | [] => [(k, v)]
  | (k', v') :: r =>
      if eqb k k' then (k, v) :: r else (k', v') :: dict_set k v r
  end.

(** [dict(pairs)] *)
Definition dict_of_pairs (pairs : list (str * json)) : list (str * json) :=
  fold_left (fun d kv => dict_set (fst kv) (snd kv) d) pairs [].

Fixpoint dict_get (k : str) (d : list (str * json)) : option json :=
  match d with
  | [] => None
  | (k', v) :: r => if eqb k k' then Some v else dict_get k r
  end.

(** [repr(k)] of a key without quotes or backslashes, as [KeyError] shows
    it. *)
Definition repr_key (k : str) : str := 39%N :: k ++ [39%N].

(** [v[k]] with a string key [k]. *)
Definition getitem (v : json) (k : str) : result json :=
  match v with
  | JObj d =>
      match dict_get k d with
      | Some x => Ok x
      | None => Raise (Exc KeyError (repr_key k))
      end
  | JArr _ =>
      Raise (Exc TypeError (u "list indices must be integers or slices, not str"))
  | JStr _ =>
      Raise (Exc TypeError (u "string indices must be integers, not 'str'"))
  | JNull => Raise (Exc TypeError (u "'NoneType' object is not subscriptable"))
  | JBool _ => Raise (Exc TypeError (u "'bool' object is not subscriptable"))
  | JInt _ => Raise (Exc TypeError (u "'int' object is not subscriptable"))
  | JFloat _ => Raise (Exc TypeError (u "'float' object is not subscriptable"))
  end.

(** [bool(v)], the test of [if ai_result:]. *)
Definition truthy (v : json) : bool :=
  match v with
  | JNull => false
  | JBool b => b
  | JInt z => negb (z =? 0)%Z
  | JFloat (FNum q) => negb (Qnum q =? 0)%Z
  | JFloat _ => true
  | JStr s => match s with [] => false | _ :: _ => true end
  | JArr l => match l with [] => false | _ :: _ => true end
  | JObj d => match d with [] => false | _ :: _ => true end
  end.

(** [v is None] *)
Definition is_none (v : json) : bool :=
  match v with JNull => true | _ => false end.

(** *** The decoder *)

Definition is_ws (c : char) : bool :=
  ((c =? 32) || (c =? 9) || (c =? 10) || (c =? 13))%N.

Fixpoint skip_ws (s : str) : str :=
  match s with
  | [] => []
  | c :: t => if is_ws c then skip_ws t else s
  end.

Definition hex_value (c : char) : option N :=
  if ((48 <=? c) && (c <=? 57))%N then Some (c - 48)%N
  else if ((97 <=? c) && (c <=? 102))%N then Some (c - 87)%N
  else if ((65 <=? c) && (c <=? 70))%N then Some (c - 55)%N
  else None.

Definition hex4 (a b c d : char) : option N :=
  match hex_value a, hex_value b, hex_value c, hex_value d with
  | Some x, Some y, Some z, Some w =>
      Some (((x * 16 + y) * 16 + z) * 16 + w)%N
  | _, _, _, _ => None
  end.

Definition simple_escape (c : char) : option char :=
  if (c =? 34)%N then Some 34%N
  else if (c =? 92)%N then Some 92%N
  else if (c =? 47)%N then Some 47%N
  else if (c =? 98)%N then Some 8%N
  else if (c =? 102)%N then Some 12%N
  else if (c =? 110)%N then Some 10%N
  else if (c =? 114)%N then Some 13%N
  else if (c =? 116)%N then Some 9%N
  else None.

Definition is_high_surrogate (n : N) : bool :=
  ((55296 <=? n) && (n <=? 56319))%N.
Definition is_low_surrogate (n : N) : bool :=
  ((56320 <=? n) && (n <=? 57343))%N.

(** The low half of a surrogate pair written as a second [\u] escape. *)
Definition low_escape (s : str) : option (N * str) :=
  match s with
  | 92%N :: 117%N :: a :: b :: c :: d :: r =>
      match hex4 a b c d with
      | Some lo => if is_low_surrogate lo then Some (lo, r) else None
      | None => None
      end
  | _ => None
  end.

(** The body of a string, after its opening quote: the decoded text and
    what follows the closing quote. *)
Fixpoint scan_string (s : str) : option (str * str) :=
  match s with
  | [] => None
  | c :: t =>
      if (c =? 34)%N then Some ([], t)
      else if (c =? 92)%N then
        match t with
        | [] => None
        | e :: t1 =>
            if (e =? 117)%N then
              match t1 with
              | a :: b :: c1 :: d :: t2 =>
                  match hex4 a b c1 d with
                  | None => None
                  | Some hi =>
                      match
                        (if is_high_surrogate hi then
                           match t2 with
                           | 92%N :: 117%N :: a' :: b' :: c' :: d' :: t3 =>
                               match hex4 a' b' c' d' with
                               | Some lo =>
                                   if is_low_surrogate lo
                                   then Some (lo, scan_string t3)
                                   else None
                               | None => None
                               end
                           | _ => None
                           end
                         else None)
                      with
                      | Some (lo, rest) =>
                          match rest with
                          | Some (k, r) =>
                              Some ((65536 + (hi - 55296) * 1024
                                     + (lo - 56320))%N :: k, r)
                          | None => None
                          end
                      | None =>
                          match scan_string t2 with
                          | Some (k, r) => Some (hi :: k, r)
                          | None => None
                          end
                      end
                  end
              | _ => None
              end
            else
              match simple_escape e with
              | None => None
              | Some x =>
                  match scan_string t1 with
                  | Some (k, r) => Some (x :: k, r)
                  | None => None
                  end
              end
        end
      else if (c <? 32)%N then None
      else
        match scan_string t with
        | Some (k, r) => Some (c :: k, r)
        | None => None
        end
  end.

(** The longest run of digits at the head of [s], and the rest. *)
Fixpoint span_digits (s : str) : str * str :=
  match s with
  | [] => ([], [])
  | c :: t =>
      if is_digit c then let (ds, r) := span_digits t in (c :: ds, r)
      else ([], s)
  end.

(** The integer part: [0] or a non-zero digit and more digits. *)
Definition scan_int (s : str) : option (str * str) :=
  match s with
  | [] => None
  | c :: t =>
      if (c =? 48)%N then Some ([c], t)
      else if is_digit c then Some (span_digits s)
      else None
  end.

(** The optional fraction: a dot and at least one digit. *)
Definition scan_frac (s : str) : option (str * str) :=
  match s with
  | 46%N :: d :: t => if is_digit d then Some (span_digits (d :: t)) else None
  | _ => None
  end.

(** The optional exponent: [e] or [E], an optional sign, digits. *)
Definition scan_exp (s : str) : option (Z * str) :=
  match s with
  | c :: t =>
      if ((c =? 101) || (c =? 69))%N then
        let '(neg, t1) :=
          match t with
          | 45%N :: r => (true, r)
          | 43%N :: r => (false, r)
          | _ => (false, t)
          end in
        match span_digits t1 with
        | ([], _) => None
        | (ds, r) =>
            let v := Z.of_N (digits_value ds) in
            Some (if neg then (- v)%Z else v, r)
        end
      else None
  | [] => None
  end.

(** What a scanner finds at the head of a text: a value and the rest of
    the text, nothing it can read, or a value it refuses to build. *)
Inductive scan (A : Type) :=
| Found (a : A) (rest : str)
| NoMatch
| Refused (e : exn).
Arguments Found {A} a rest.
Arguments NoMatch {A}.
Arguments Refused {A} e.

Definition sbind {A B} (x : scan A) (k : A -> str -> scan B) : scan B :=
  match x with
  | Found a rest => k a rest
  | NoMatch => NoMatch
  | Refused e => Refused e
  end.

Definition of_option {A} (x : option (A * str)) : scan A :=
  match x with
  | Some (a, rest) => Found a rest
  | None => NoMatch
  end.

(** [int(digits)] of the decoder: Python refuses to convert a text of more
    than 4300 digits. *)
Definition int_of_digits (neg : bool) (ds : str) : result json :=
  if 4300 <? List.length ds
  then Raise (Exc ValueError
                (u "Exceeds the limit (4300 digits) for integer string conversion"))
  else
    let v := Z.of_N (digits_value ds) in
    Ok (JInt (if neg then (- v)%Z else v)).

(** The exact value of the decimal literal [m * 10^e]. *)
Definition decimal_value (m e : Z) : Q :=
  if (0 <=? e)%Z then inject_Z (m * 10 ^ e)
  else m # Z.to_pos (10 ^ (- e)).

(** [float(literal)]: the nearest float, an infinity when that is past the
    largest one. *)
Definition float_of_literal (neg : bool) (m e : Z) : json :=
  let y := to_float (decimal_value m e) in
  if Qle_bool (inject_Z (2 ^ 1024)) (Qabs y) then JFloat (FInf neg)
  else JFloat (FNum y).

(** A number at the head of [s]: [None] when there is none, else the
    number, or the refusal to build it, and the rest. *)
Definition scan_number (s : str) : option (result json * str) :=
  let '(neg, s1) :=
    match s with
    | 45%N :: r => (true, r)
    | _ => (false, s)
    end in
  match scan_int s1 with
  | None => None
  | Some (ip, r1) =>
      let '(fp, r2) :=
        match scan_frac r1 with
        | Some (ds, r) => (Some ds, r)
        | None => (None, r1)
        end in
      let '(ep, r3) :=
        match scan_exp r2 with
        | Some (e, r) => (Some e, r)
        | None => (None, r2)
        end in
      match fp, ep with
      | None, None => Some (int_of_digits neg ip, r3)
      | _, _ =>
          let fd := match fp with Some ds => ds | None => [] end in
          let e := match ep with Some e => e | None => 0%Z end in
          let m := Z.of_N (digits_value (ip ++ fd)) in
          Some (Ok (float_of_literal neg (if neg then (- m)%Z else m)
                      (e - Z.of_nat (List.length fd))), r3)
      end
  end.

(** A constant token at the head of [s]. *)
Definition token (name : string) (v : json) (s : str) : option (json * str) :=
  if starts_with (u name) s then Some (v, skipn (List.length (u name)) s)
  else None.

Definition or_else {A} (a b : option A) : option A :=
  match a with Some _ => a | None => b end.

Definition scan_atom (s : str) : scan json :=
  match or_else (token "null" JNull s)
          (or_else (token "true" (JBool true) s)
                   (token "false" (JBool false) s)) with
  | Some (v, r) => Found v r
  | None =>
      match scan_number s with
      | Some (Ok v, r) => Found v r
      | Some (Raise e, _) => Refused e
      | None =>
          of_option
            (or_else (token "NaN" (JFloat FNaN) s)
               (or_else (token "Infinity" (JFloat (FInf false)) s)
                        (token "-Infinity" (JFloat (FInf true)) s)))
      end
  end.

(** The recursive scanner; [fuel] bounds the calls, and [loads] gives it
    more than a text of that length can use. *)
Fixpoint scan_value (fuel : nat) (s : str) : scan json :=
  match fuel with
  | O => NoMatch
  | S f =>
      match s with
      | 34%N :: t =>
          sbind (of_option (scan_string t)) (fun k r => Found (JStr k) r)
      | 123%N :: t =>
          match skip_ws t with
          | 125%N :: r => Found (JObj []) r
          | t' =>
              sbind (scan_members f t') (fun kv r =>
              Found (JObj (dict_of_pairs kv)) r)
          end
      | 91%N :: t =>
          match skip_ws t with
          | 93%N :: r => Found (JArr []) r
          | t' => sbind (scan_elements f t') (fun vs r => Found (JArr vs) r)
          end
      | _ => scan_atom s
      end
  end
with scan_elements (fuel : nat) (s : str) : scan (list json) :=
  match fuel with
  | O => NoMatch
  | S f =>
      sbind (scan_value f s) (fun v r =>
      match skip_ws r with
      | 44%N :: r' =>
          sbind (scan_elements f (skip_ws r')) (fun vs r'' =>
          Found (v :: vs) r'')
      | 93%N :: r' => Found [v] r'
      | _ => NoMatch
      end)
  end
with scan_members (fuel : nat) (s : str) : scan (list (str * json)) :=
  match fuel with
  | O => NoMatch
  | S f =>
      match s with
      | 34%N :: t =>
          sbind (of_option (scan_string t)) (fun k r =>
          match skip_ws r with
          | 58%N :: r1 =>
              sbind (scan_value f (skip_ws r1)) (fun v r2 =>
              match skip_ws r2 with
              | 44%N :: r3 =>
                  sbind (scan_members f (skip_ws r3)) (fun kv r4 =>
                  Found ((k, v) :: kv) r4)
              | 125%N :: r3 => Found [(k, v)] r3
              | _ => NoMatch
              end)
          | _ => NoMatch
          end)
      | _ => NoMatch
      end
  end.

(** [json.loads(s)].  The text of the decoder's message (it names a line
    and a column) is not reproduced; only its class is. *)
Definition loads (s : str) : result json :=
  match scan_value (2 * List.length s + 2) (skip_ws s) with
  | NoMatch => Raise (Exc JSONDecodeError (u "Expecting value"))
  | Refused e => Raise e
  | Found v r =>
      match skip_ws r with
      | [] => Ok v
      | _ :: _ => Raise (Exc JSONDecodeError (u "Extra data"))
      end
  end.

End Json.

(** ** The application *)

Module App.
Import PyStr Py Json.

(** A row of [customers_data.csv], as [to_dict()] hands it over.  The
    count columns hold integers; [total_revenue] is given by its exact
    value, whether the column was read as integers ([int64]) or as floats
    (finite [float64]; the negative zero, which has the value of zero but
    prints with a sign, is not among the values of the model). *)
Record customer := {
  name : str;
  days_since_last_activity : Z;
  open_tickets : Z;
  total_tickets : Z;
  total_revenue : Q;
  opportunities_won : Z;
  opportunities_lost : Z;
  email_engagement : str
}.

(** The lines of the f-string; each one follows a line break. *)
Definition prompt_lines (customer_data : customer) : list str :=
  [ u "    Analiza este cliente B2B y proporciona un análisis detallado como Customer Success Manager experto.";
    u "    ";
    u "    Datos del cliente:";
    u "    - Nombre: " ++ name customer_data;
    u "    - Días desde última actividad: "
      ++ str_of_Z (days_since_last_activity customer_data);
    u "    - Tickets abiertos actualmente: "
      ++ str_of_Z (open_tickets customer_data);
    u "    - Total tickets históricos: "
      ++ str_of_Z (total_tickets customer_data);
    u "    - Revenue total: $" ++ format_money (total_revenue customer_data);
    u "    - Oportunidades ganadas: "
      ++ str_of_Z (opportunities_won customer_data);
    u "    - Oportunidades perdidas: "
      ++ str_of_Z (opportunities_lost customer_data);
    u "    - Engagement de email: " ++ email_engagement customer_data;
    u "    ";
    u "    Proporciona:";
    u "    1. Health Score (0-100) - siendo 100 salud perfecta";
    u "    2. Churn Risk (low/medium/high)";
    u "    3. Exactamente 3 acciones recomendadas específicas y accionables";
    u "    4. Un breve análisis (2-3 oraciones) del estado actual del cliente";
    u "    ";
    u "    IMPORTANTE: Responde SOLO con JSON válido en este formato exacto:";
    u "    {";
    uq "        'health_score': 75,";
    uq "        'churn_risk': 'medium',";
    uq "        'analysis': 'Breve análisis aquí del estado del cliente',";
    uq "        'recommendations': [";
    uq "            'Primera acción específica y accionable',";
    uq "            'Segunda acción específica y accionable',";
    uq "            'Tercera acción específica y accionable'";
    u "        ]";
    u "    }";
    u "    " ].

Definition render_prompt (customer_data : customer) : str :=
  flat_map (fun l => 10%N :: l) (prompt_lines customer_data).

(** The arguments of [client.messages.create]. *)
Record request := {
  model : str;
  max_tokens : Z;
  messages : list (str * str)   (* role, content *)
}.

(** The arguments the program passes. *)
Definition create_args (prompt : str) : request :=
  {| model := u "claude-sonnet-4-20250514";
     max_tokens := 1000;
     messages := [(u "user", prompt)] |}.

(** A content block of the reply; only a text block has [.text]. *)
Inductive block :=
| TextBlock (text : str)
| OtherBlock.

(** [message.content[0].text] *)
Definition first_text (content : list block) : result str :=
  match content with
  | [] => Raise (Exc IndexError (u "list index out of range"))
  | TextBlock t :: _ => Ok t
  | OtherBlock :: _ =>
      Raise (Exc AttributeError (u "object has no attribute 'text'"))
  end.

(** The fence stripping of the reply text. *)
Definition strip_fences (response_text : str) : str :=
  strip (replace (u "```") [] (replace (u "```json") [] response_text)).

(** What the program puts on the page. *)
Inductive widget :=
| st_error (msg : str)
| status_text (msg : str)
| progress (done total : nat)
| gauge (value : json)
| markdown (text : str)
| recommendation (i : nat) (rec : json)
| info (body : json)
| st_json (body : json).

Definition risk_color (churn_risk : json) : result str :=
  match churn_risk with
  | JStr s =>
      if eqb s (u "low") then Ok (u "🟢 BAJO")
      else if eqb s (u "medium") then Ok (u "🟡 MEDIO")
      else if eqb s (u "high") then Ok (u "🔴 ALTO")
      else Ok (u "⚪ DESCONOCIDO")
  | JArr _ => Raise (Exc TypeError (u "unhashable type: 'list'"))
  | JObj _ => Raise (Exc TypeError (u "unhashable type: 'dict'"))
  | _ => Ok (u "⚪ DESCONOCIDO")
  end.

(** Iterating a decoded value, as [enumerate] does. *)
Definition iterate (v : json) : result (list json) :=
  match v with
  | JArr l => Ok l
  | JObj d => Ok (map (fun kv => JStr (fst kv)) d)
  | JStr s => Ok (map (fun c => JStr [c]) s)
  | JNull => Raise (Exc TypeError (u "'NoneType' object is not iterable"))
  | JBool _ => Raise (Exc TypeError (u "'bool' object is not iterable"))
  | JInt _ => Raise (Exc TypeError (u "'int' object is not iterable"))
  | JFloat _ => Raise (Exc TypeError (u "'float' object is not iterable"))
  end.

Fixpoint enumerate (start : nat) (l : list json) : list widget :=
  match l with
  | [] => []
  | rec :: t => recommendation start rec :: enumerate (S start) t
  end.

(** [go.Indicator(value=...)]: the plotting library checks the value it is
    given and takes [None] or a number (a [bool] is one); a text, a list or
    an object is refused with [ValueError].  Of the library only this check
    is modelled, as it is documented for a number property; the message of
    the exception, which is longer and quotes the value, is cut short. *)
Definition indicator (value : json) : result json :=
  match value with
  | JStr _ | JArr _ | JObj _ =>
      Raise (Exc ValueError
               (u "Invalid value received for the 'value' property of indicator"))
  | JNull | JBool _ | JInt _ | JFloat _ => Ok value
  end.

(** Code that writes on the page and may stop at an exception: the widgets
    written up to there, and how it ended. *)
Definition page (A : Type) : Type := (list widget * result A)%type.

Definition pure {A} (a : A) : page A := ([], Ok a).
Definition write (w : widget) : page unit := ([w], Ok tt).
Definition write_all (ws : list widget) : page unit := (ws, Ok tt).
Definition lift {A} (r : result A) : page A := ([], r).
Definition pbind {A B} (x : page A) (k : A -> page B) : page B :=
  match x with
  | (ws, Ok a) => let (ws', r) := k a in (ws ++ ws', r)
  | (ws, Raise e) => (ws, Raise e)
  end.

Notation "x <- a ;; b" := (pbind a (fun x => b))
  (at level 61, a at next level, right associativity).
Notation "a ;;; b" := (pbind a (fun _ => b))
  (at level 61, right associativity).

(** The body of [if ai_result:] on the first tab, statement by statement.
    The containers of the layout (columns, spinner, expander) are not
    modelled. *)
Definition show_analysis (ai_result : json) : page unit :=
  if truthy ai_result then
    write (markdown (u "### 🎯 Análisis de IA")) ;;;
    health_score <- lift (getitem ai_result (u "health_score")) ;;
    value <- lift (indicator health_score) ;;
    write (gauge value) ;;;
    churn_risk <- lift (getitem ai_result (u "churn_risk")) ;;
    risk_label <- lift (risk_color churn_risk) ;;
    write (markdown (u "### Riesgo de Churn: " ++ risk_label)) ;;;
    write (markdown (u "#### 📝 Análisis:")) ;;;
    analysis <- lift (getitem ai_result (u "analysis")) ;;
    write (info analysis) ;;;
    write (markdown (u "#### 💡 Recomendaciones:")) ;;;
    recommendations <- lift (getitem ai_result (u "recommendations")) ;;
    recs <- lift (iterate recommendations) ;;
    write_all (enumerate 1 recs) ;;;
    write (st_json ai_result)
  else pure tt.

(** [df[df['name'] == selected_customer_name].iloc[0]] *)
Definition lookup_by_name (df : list customer) (selected_customer_name : str)
  : result customer :=
  match filter (fun c => eqb (name c) selected_customer_name) df with
  | [] => Raise (Exc IndexError (u "single positional indexer is out-of-bounds"))
  | c :: _ => Ok c
  end.

(** [df.iloc[idx]] *)
Definition iloc (df : list customer) (idx : nat) : result customer :=
  match nth_error df idx with
  | Some c => Ok c
  | None => Raise (Exc IndexError (u "single positional indexer is out-of-bounds"))
  end.

(** The arguments of [st.slider] on the second tab.  What the widget
    does with them is the library's, and is not modelled. *)
Record slider := {
  min_value : Z;
  max_value : Z;
  value : Z
}.

Definition batch_slider (df : list customer) : slider :=
  let n := Z.of_nat (List.length df) in
  {| min_value := 3; max_value := n; value := Z.min 5 n |}.

(** A row of [results]. *)
Record result_row := {
  Cliente : str;
  Health_Score : json;
  Riesgo : json;
  Revenue : Q;
  Dias_sin_actividad : Z;
  Tickets_abiertos : Z
}.

(** [pd.DataFrame(results)]: the columns are the keys of the rows, so a
    frame built from no row has no column. *)
Record DataFrame := {
  columns : list str;
  rows : list result_row
}.

Definition result_columns : list str :=
  [u "Cliente"; u "Health Score"; u "Riesgo"; u "Revenue";
   u "Días sin actividad"; u "Tickets abiertos"].

Definition make_frame (results : list result_row) : DataFrame :=
  {| columns := match results with [] => [] | _ :: _ => result_columns end;
     rows := results |}.

(** [frame[label]] for a column label: [proj] reads that column in a row. *)
Definition column {A} (frame : DataFrame) (label : str)
  (proj : result_row -> A) : result (list A) :=
  if existsb (eqb label) (columns frame) then Ok (map proj (rows frame))
  else Raise (Exc KeyError (repr_key label)).

(** The finite number a score counts as in a mean ([Ok None] when it
    brings none: [None] and NaN are skipped, an infinity is accounted for
    in [mean]); text and containers are refused. *)
Definition score_value (v : json) : result (option Q) :=
  match v with
  | JInt z => Ok (Some (inject_Z z))
  | JBool b => Ok (Some (if b then 1 else 0)%Q)
  | JFloat (FNum q) => Ok (Some q)
  | JFloat FNaN | JFloat (FInf _) | JNull => Ok None
  | JStr _ | JArr _ | JObj _ =>
      Raise (Exc TypeError (u "Could not convert to numeric"))
  end.

Definition is_infinite (v : json) : bool :=
  match v with
  | JFloat (FInf _) => true
  | _ => false
  end.

Fixpoint score_values (l : list json) : result (list Q) :=
  match l with
  | [] => Ok []
  | v :: t =>
      rbind (score_value v) (fun x =>
      rbind (score_values t) (fun xs =>
      Ok (match x with Some q => q :: xs | None => xs end)))
  end.

Definition Qsum (l : list Q) : Q := fold_left Qplus l 0%Q.

(** [Series.mean()]: the mean of the values present.  [None] stands for a
    result that is no finite number: NaN when no value is present, NaN or an
    infinity when one of them is infinite.  Sums and quotients are exact:
    the rounding of floats is not part of the model. *)
Definition mean (l : list json) : result (option Q) :=
  rbind (score_values l) (fun xs =>
  if existsb is_infinite l then Ok None
  else
    match xs with
    | [] => Ok None
    | _ :: _ =>
        Ok (Some (Qred (Qsum xs / inject_Z (Z.of_nat (List.length xs)))))
    end).

(** [a / b] on two counts. *)
Definition true_div (a b : nat) : result Q :=
  match b with
  | O => Raise (Exc ZeroDivisionError (u "division by zero"))
  | S _ => Ok (Qred (inject_Z (Z.of_nat a) / inject_Z (Z.of_nat b)))
  end.

Definition is_high (r : result_row) : bool :=
  match Riesgo r with
  | JStr s => eqb s (u "high")
  | _ => false
  end.

(** The four global metrics, before they are formatted. *)
Record metrics := {
  avg_health : option Q;
  high_risk : nat;
  high_risk_percent : Q;
  total_revenue_sum : Q;
  at_risk_revenue : Q
}.

(** The code after the batch loop, from [pd.DataFrame(results)] to the
    four metrics.  The table and the chart drawn after them are widgets of
    the libraries and are left out. *)
Definition global_metrics (results : list result_row) : result metrics :=
  let results_df := make_frame results in
  rbind (column results_df (u "Health Score") Health_Score) (fun scores =>
  rbind (mean scores) (fun avg =>
  rbind (column results_df (u "Riesgo") Riesgo) (fun _ =>
  let high := List.length (filter is_high (rows results_df)) in
  rbind (true_div high (List.length (rows results_df))) (fun share =>
  rbind (column results_df (u "Revenue") Revenue) (fun revenue =>
  Ok {| avg_health := avg;
        high_risk := high;
        high_risk_percent := Qred (share * 100);
        total_revenue_sum := Qred (Qsum revenue);
        at_risk_revenue :=
          Qred (Qsum (map Revenue (filter is_high (rows results_df)))) |}))))).

Section Client.

(** The world outside the program: [W] is its state; [create] is
    [client.messages.create] of a client built with the credential read
    from the environment ([None] when the variable is not set);
    [json_loads] is the decoder. *)
Variable W : Type.
Variable create : option str -> request -> W -> result (list block) * W.
Variable json_loads : str -> result json.

(** What a run has done so far: the state of the world, the calls made to
    the endpoint, the widgets written. *)
Record state := {
  world : W;
  sent : list request;
  screen : list widget
}.

Definition show (w : widget) (st : state) : state :=
  {| world := world st; sent := sent st; screen := screen st ++ [w] |}.

(** The [try] block: the call, then the decoding of the reply. *)
Definition request_analysis (api_key : option str) (prompt : str)
  (st : state) : result json * state :=
  let req := create_args prompt in
  let (reply, w) := create api_key req (world st) in
  let st' := {| world := w; sent := sent st ++ [req]; screen := screen st |} in
  (rbind reply (fun content =>
   rbind (first_text content) (fun response_text =>
   json_loads (strip_fences response_text))), st').

Definition analyze_customer_with_ai (api_key : option str)
  (customer_data : customer) (st : state) : json * state :=
  let prompt := render_prompt customer_data in
  match request_analysis api_key prompt st with
  | (Ok ai_analysis, st') => (ai_analysis, st')
  | (Raise e, st') =>
      (JNull, show (st_error (u "Error en análisis AI: " ++ exn_str e)) st')
  end.

(** The first tab once the button is pressed. *)
Definition single_analysis (api_key : option str) (df : list customer)
  (selected_customer_name : str) (st : state) : result unit * state :=
  match lookup_by_name df selected_customer_name with
  | Raise e => (Raise e, st)
  | Ok customer_data =>
      let (ai_result, st1) :=
        analyze_customer_with_ai api_key customer_data st in
      let (ws, r) := show_analysis ai_result in
      (r, {| world := world st1; sent := sent st1;
             screen := screen st1 ++ ws |})
  end.

(** The row appended for a record whose analysis is truthy. *)
Definition result_of (customer_data : customer) (ai_result : json)
  : result result_row :=
  rbind (getitem ai_result (u "health_score")) (fun health_score =>
  rbind (getitem ai_result (u "churn_risk")) (fun churn_risk =>
  Ok {| Cliente := name customer_data;
        Health_Score := health_score;
        Riesgo := churn_risk;
        Revenue := total_revenue customer_data;
        Dias_sin_actividad := days_since_last_activity customer_data;
        Tickets_abiertos := open_tickets customer_data |})).

(** The [for idx in range(num_customers)] loop, over the indices left. *)
Fixpoint batch_loop (api_key : option str) (df : list customer)
  (num_customers : nat) (indices : list nat) (results : list result_row)
  (st : state) : result (list result_row) * state :=
  match indices with
  | [] => (Ok results, st)
  | idx :: rest =>
      match iloc df idx with
      | Raise e => (Raise e, st)
      | Ok customer_data =>
          let st1 :=
            show (status_text
                    (u "Analizando " ++ name customer_data ++ u "... ("
                       ++ str_of_N (N.of_nat (idx + 1)) ++ u "/"
                       ++ str_of_N (N.of_nat num_customers) ++ u ")")) st in
          let (ai_result, st2) :=
            analyze_customer_with_ai api_key customer_data st1 in
          match (if truthy ai_result
                 then rbind (result_of customer_data ai_result)
                        (fun row => Ok (results ++ [row]))
                 else Ok results) with
          | Raise e => (Raise e, st2)
          | Ok results' =>
              batch_loop api_key df num_customers rest results'
                (show (progress (idx + 1) num_customers) st2)
          end
      end
  end.

(** The second tab once the button is pressed: the table and the global
    metrics. *)
Definition batch_analysis (api_key : option str) (df : list customer)
  (num_customers : nat) (st : state)
  : result (DataFrame * metrics) * state :=
  match batch_loop api_key df num_customers (seq 0 num_customers) [] st with
  | (Raise e, st') => (Raise e, st')
  | (Ok results, st') =>
      let st'' := show (status_text (u "✅ ¡Análisis completado!")) st' in
      (rbind (global_metrics results) (fun m =>
       Ok (make_frame results, m)), st'')
  end.

End Client.

End App.

(** ** Notions used to state the properties *)

Module Notions.
Import PyStr Py Json App.

(** [occurs p s]: [p] is a substring of [s]. *)
Definition occurs (p s : str) : Prop := exists a b, s = a ++ p ++ b.

(** The two markers the program removes, and the second removal. *)
Definition tick : char := 96%N.
Definition fence : str := [tick; tick; tick].
Definition json_fence : str := fence ++ [106; 115; 111; 110]%N.
Definition unfence (s : str) : str := replace_from fence [] 0 s.

(** The eight values the prompt shows, as they are formatted, in the order
    of the template. *)
Definition field_values (c : customer) : list str :=
  [ name c;
    str_of_Z (days_since_last_activity c);
    str_of_Z (open_tickets c);
    str_of_Z (total_tickets c);
    format_money (total_revenue c);
    str_of_Z (opportunities_won c);
    str_of_Z (opportunities_lost c);
    email_engagement c ].

(** The fixed text of the template, cut at its eight slots. *)
Definition template_segments : list str :=
  [ flat_map (fun l => 10%N :: l)
      [ u "    Analiza este cliente B2B y proporciona un análisis detallado como Customer Success Manager experto.";
        u "    ";
        u "    Datos del cliente:";
        u "    - Nombre: " ];
    10%N :: u "    - Días desde última actividad: ";
    10%N :: u "    - Tickets abiertos actualmente: ";
    10%N :: u "    - Total tickets históricos: ";
    10%N :: u "    - Revenue total: $";
    10%N :: u "    - Oportunidades ganadas: ";
    10%N :: u "    - Oportunidades perdidas: ";
    10%N :: u "    - Engagement de email: ";
    flat_map (fun l => 10%N :: l)
      [ u "    ";
        u "    Proporciona:";
        u "    1. Health Score (0-100) - siendo 100 salud perfecta";
        u "    2. Churn Risk (low/medium/high)";
        u "    3. Exactamente 3 acciones recomendadas específicas y accionables";
        u "    4. Un breve análisis (2-3 oraciones) del estado actual del cliente";
        u "    ";
        u "    IMPORTANTE: Responde SOLO con JSON válido en este formato exacto:";
        u "    {";
        uq "        'health_score': 75,";
        uq "        'churn_risk': 'medium',";
        uq "        'analysis': 'Breve análisis aquí del estado del cliente',";
        uq "        'recommendations': [";
        uq "            'Primera acción específica y accionable',";
        uq "            'Segunda acción específica y accionable',";
        uq "            'Tercera acción específica y accionable'";
        u "        ]";
        u "    }";
        u "    " ] ].

(** [weave segs vals]: the segments with one value after each of them but
    the last. *)
Fixpoint weave (segs vals : list str) : str :=
  match segs, vals with
  | seg :: segs', v :: vals' => seg ++ v ++ weave segs' vals'
  | seg :: _, [] => seg
  | [], _ => []
  end.

(** The sign a formatted number starts with. *)
Definition sign_of (x : Q) : str :=
  if Qlt_le_dec x 0%Q then [45%N] else [].

(** A grouped number: a first group of one to three digits, then groups of
    three, each after a comma. *)
Definition grouped (head : str) (groups : list str) : str :=
  head ++ flat_map (fun g => 44%N :: g) groups.

(** [nearest_even q k]: [k] is an integer nearest to [q], and the even one
    when [q] lies half way between two integers. *)
Definition nearest_even (q : Q) (k : Z) : Prop :=
  (Qabs (q - inject_Z k) <= 1 # 2)%Q
  /\ ((Qabs (q - inject_Z k) == 1 # 2)%Q -> Z.even k = true).

(** The sign of a rational: -1, 0 or 1. *)
Definition Qsgn (x : Q) : Z := Z.sgn (Qnum x).

(** [binary64_of x y]: [y] is the binary64 number nearest to [x], the one
    with the even significand when two are as near ([x] short of the
    largest float).  Zero goes to zero.  Else [y] is [m * 2^e] with the sign
    of [x], where [e], -1074 at least, puts [|x| / 2^e] below [2^53], and
    at [2^52] or above unless [e] is -1074 (the subnormal numbers), and
    [m] is the integer nearest to [|x| / 2^e]. *)
Definition binary64_of (x y : Q) : Prop :=
  (x == 0 /\ y == 0)%Q
  \/ exists e m : Z,
       (-1074 <= e)%Z
       /\ (Qabs x / Qpower 2 e < inject_Z (2 ^ 53))%Q
       /\ ((inject_Z (2 ^ 52) <= Qabs x / Qpower 2 e)%Q \/ e = (-1074)%Z)
       /\ nearest_even (Qabs x / Qpower 2 e) m
       /\ (y == inject_Z (Qsgn x * m) * Qpower 2 e)%Q.

(** The values Python takes for false in a test: [None], [False], a zero,
    and the empty text, list and object. *)
Definition falsy (a : json) : bool :=
  match a with
  | JNull | JBool false | JInt 0 | JStr [] | JArr [] | JObj [] => true
  | JFloat (FNum q) => Qeq_bool q 0
  | _ => false
  end.

(** An object that has the two keys the table reads. *)
Definition keyed (a : json) : Prop :=
  exists d h r, a = JObj d /\ dict_get (u "health_score") d = Some h
                /\ dict_get (u "churn_risk") d = Some r.

(** The request an analysis of record [c] is to make. *)
Definition request_for (c : customer) : request :=
  {| model := u "claude-sonnet-4-20250514";
     max_tokens := 1000;
     messages := [(u "user", render_prompt c)] |}.

(** The errors written on a page. *)
Definition is_error (w : widget) : bool :=
  match w with
  | st_error _ => true
  | _ => false
  end.

Definition page_errors (page : list widget) : list widget :=
  filter is_error page.

Section Answers.

Variable W : Type.
Variable create : option str -> request -> W -> result (list block) * W.
Variable json_loads : str -> result json.

(** The value of an analysis, read off the reply of the endpoint: the
    decoded text of its first block, [None] when the call, the reading of
    the block or the decoding raised. *)
Definition value_of_reply (reply : result (list block)) : json :=
  match reply with
  | Ok (TextBlock text :: _) =>
      match json_loads (strip_fences text) with
      | Ok v => v
      | Raise _ => JNull
      end
  | _ => JNull
  end.

(** The endpoint called once for each of [records], in order, from the
    world [w] on: the value of each reply, and the world left at the end. *)
Fixpoint outcomes (api_key : option str) (records : list customer) (w : W)
  : list (customer * json) :=
  match records with
  | [] => []
  | c :: rest =>
      (c, value_of_reply (fst (create api_key (request_for c) w)))
        :: outcomes api_key rest (snd (create api_key (request_for c) w))
  end.

Fixpoint served (api_key : option str) (records : list customer) (w : W) : W :=
  match records with
  | [] => w
  | c :: rest => served api_key rest (snd (create api_key (request_for c) w))
  end.

(** The endpoint made to keep a log of its own: every call it gets is
    added to the log it carries in its world. *)
Definition recording (api_key : option str) (req : request)
  (w : W * list (option str * request))
  : result (list block) * (W * list (option str * request)) :=
  (fst (create api_key req (fst w)),
   (snd (create api_key req (fst w)), snd w ++ [(api_key, req)])).

Definition fresh (w : W) : state W := {| world := w; sent := []; screen := [] |}.

(** The decoding of a reply, as the [try] block does it. *)
Definition decoded (reply : result (list block)) : result json :=
  rbind reply (fun content =>
  rbind (first_text content) (fun response_text =>
  json_loads (strip_fences response_text))).

(** What an analysis returns, shows and leaves of the world, as functions
    of the world it starts in. *)
Definition answer (api_key : option str) (c : customer) (w : W) : json :=
  fst (analyze_customer_with_ai create json_loads api_key c (fresh w)).
Definition shown (api_key : option str) (c : customer) (w : W) : list widget :=
  screen (snd (analyze_customer_with_ai create json_loads api_key c (fresh w))).
Definition next_world (api_key : option str) (c : customer) (w : W) : W :=
  world (snd (analyze_customer_with_ai create json_loads api_key c (fresh w))).

(** The analyses of a run over [records], one after the other. *)
Fixpoint answers (api_key : option str) (records : list customer) (w : W)
  : list (customer * json) :=
  match records with
  | [] => []
  | c :: rest =>
      (c, answer api_key c w) :: answers api_key rest (next_world api_key c w)
  end.

Fixpoint last_world (api_key : option str) (records : list customer) (w : W)
  : W :=
  match records with
  | [] => w
  | c :: rest => last_world api_key rest (next_world api_key c w)
  end.

End Answers.

(** The message of the [except] branch. *)
Definition generic_error (e : exn) : widget :=
  st_error (u "Error en análisis AI: " ++ exn_str e).

(** An analysis that is the error value or has the two keys the table
    reads. *)
Definition usable (a : json) : Prop :=
  a = JNull
  \/ exists d h r, a = JObj d /\ dict_get (u "health_score") d = Some h
                   /\ dict_get (u "churn_risk") d = Some r.

(** [row] is the table row of record [c] and analysis [a]. *)
Definition row_of (ca : customer * json) (row : result_row) : Prop :=
  let (c, a) := ca in
  Cliente row = name c
  /\ getitem a (u "health_score") = Ok (Health_Score row)
  /\ getitem a (u "churn_risk") = Ok (Riesgo row)
  /\ Revenue row = total_revenue c
  /\ Dias_sin_actividad row = days_since_last_activity c
  /\ Tickets_abiertos row = open_tickets c.

Definition succeeded (ca : customer * json) : bool := negb (is_none (snd ca)).

(** [row] is the table row of a record and its analysis, an object: the
    score and the risk are the values under the two keys. *)
Definition table_row (ca : customer * json) (row : result_row) : Prop :=
  (exists d, snd ca = JObj d
             /\ dict_get (u "health_score") d = Some (Health_Score row)
             /\ dict_get (u "churn_risk") d = Some (Riesgo row))
  /\ Cliente row = name (fst ca)
  /\ Revenue row = total_revenue (fst ca)
  /\ Dias_sin_actividad row = days_since_last_activity (fst ca)
  /\ Tickets_abiertos row = open_tickets (fst ca).

(** The records the loop is to keep: those whose analysis is not false. *)
Definition passes (ca : customer * json) : bool := negb (falsy (snd ca)).

Definition Zsum (l : list Z) : Z := fold_left Z.add l 0%Z.

End Notions.

(** ** Sample data *)

Module Sample.
Import PyStr Py Json App.

Definition acme : customer :=
  {| name := u "Acme Corp";
     days_since_last_activity := 12;
     open_tickets := 3;
     total_tickets := 40;
     total_revenue := (2469135 # 2)%Q;
     opportunities_won := 5;
     opportunities_lost := 1;
     email_engagement := u "high" |}.

Definition globex : customer :=
  {| name := u "Globex";
     days_since_last_activity := 45;
     open_tickets := 7;
     total_tickets := 19;
     total_revenue := 98000%Q;
     opportunities_won := 1;
     opportunities_lost := 4;
     email_engagement := u "low" |}.

Definition initech : customer :=
  {| name := u "Initech";
     days_since_last_activity := 2;
     open_tickets := 0;
     total_tickets := 3;
     total_revenue := 310500%Q;
     opportunities_won := 8;
     opportunities_lost := 0;
     email_engagement := u "very_low" |}.

(** A second row under the name of the first. *)
Definition acme_again : customer :=
  {| name := u "Acme Corp";
     days_since_last_activity := 90;
     open_tickets := 1;
     total_tickets := 2;
     total_revenue := 100%Q;
     opportunities_won := 0;
     opportunities_lost := 0;
     email_engagement := u "low" |}.

(** A scripted endpoint: the world is the list of the outcomes to come.
    Without a credential the call raises; with one, it takes the next
    outcome, and fails to connect when none is left. *)
Definition script := list (result (list block)).

Definition scripted (api_key : option str) (req : request) (w : script)
  : result (list block) * script :=
  match api_key with
  | None =>
      (Raise (Exc TypeError (u "Could not resolve authentication method.")), w)
  | Some _ =>
      match w with
      | [] => (Raise (Exc APIError (u "Connection error.")), [])
      | o :: t => (o, t)
      end
  end.

Definition key : option str := Some (u "sk-test").

Definition start (w : script) : state script :=
  {| world := w; sent := []; screen := [] |}.

Definition says (text : string) : result (list block) := Ok [TextBlock (uq text)].

(** Scenario 1 of the specification. *)
Definition stable : result (list block) :=
  says "{'health_score':82,'churn_risk':'low','analysis':'Stable.','recommendations':['A','B','C']}".

Definition at_risk : result (list block) :=
  says "```json
{'health_score': 64, 'churn_risk': 'high', 'analysis': 'Quiet.', 'recommendations': ['A', 'B', 'C']}
```".

(** A reply outside the contract: score out of range, unknown risk, four
    recommendations. *)
Definition out_of_contract : result (list block) :=
  says "{'health_score':250,'churn_risk':'extreme','analysis':'?','recommendations':['A','B','C','D']}".

(** A reply that lacks keys. *)
Definition score_only : result (list block) :=
  says "{'health_score': 82}".

Definition network_down : result (list block) :=
  Raise (Exc APIError (u "Connection error.")).

(** The table and the world of scenario 3: the second call fails. *)
Definition three : list customer := [acme; globex; initech].
Definition second_fails : script := [stable; network_down; at_risk].

End Sample.

(** ** The customer card of the first tab *)

Module Card.
Import PyStr Py Json App.

(** [format(x, ',.0f')] for an [int] or a finite [float] [x] given by its
    exact value, with the limits of [format_money]. *)
Definition format_whole (x : Q) : str :=
  let units := Z.to_N (round_half_even (Qabs (to_float x))) in
  (if Qlt_le_dec x 0%Q then [45%N] else []) ++ group3 (str_of_N units).

(** [engagement_emoji.get(email_engagement, ...)] *)
Definition engagement_emoji (email_engagement : str) : str :=
  if eqb email_engagement (u "high") then u "🟢"
  else if eqb email_engagement (u "medium") then u "🟡"
  else if eqb email_engagement (u "low") then u "🟠"
  else if eqb email_engagement (u "very_low") then u "🔴"
  else u "⚪".

(** [st.metric(label, value)], the value as it is shown. *)
Inductive metric :=
| st_metric (label : str) (value : str).

(** The seven metrics of the card, column by column. *)
Definition customer_metrics (customer_data : customer) : list metric :=
  [ st_metric (u "Días sin actividad")
      (str_of_Z (days_since_last_activity customer_data));
    st_metric (u "Revenue Total")
      (u "$" ++ format_whole (total_revenue customer_data));
    st_metric (u "Tickets Abiertos") (str_of_Z (open_tickets customer_data));
    st_metric (u "Total Tickets") (str_of_Z (total_tickets customer_data));
    st_metric (u "Oport. Ganadas")
      (str_of_Z (opportunities_won customer_data));
    st_metric (u "Oport. Perdidas")
      (str_of_Z (opportunities_lost customer_data));
    st_metric (u "Email Engagement")
      (engagement_emoji (email_engagement customer_data) ++ u " "
         ++ email_engagement customer_data) ].

End Card.

(** ** Notions used to state the further properties *)

Module Shapes.
Import PyStr Py Json App Notions.

(** [subseq a b]: [a] is [b] with some characters deleted. *)
Inductive subseq : str -> str -> Prop :=
| subseq_nil : subseq [] []
| subseq_keep (c : char) (a b : str) : subseq a b -> subseq (c :: a) (c :: b)
| subseq_drop (c : char) (a b : str) : subseq a b -> subseq a (c :: b).

(** The steps of the progress bar written on a page. *)
Definition progress_marks (page : list widget) : list (nat * nat) :=
  flat_map (fun w => match w with
                     | progress done total => [(done, total)]
                     | _ => []
                     end) page.

(** An analysis the loop passes over, or one that has the two keys the
    table reads. *)
Definition skipped_or_keyed (a : json) : Prop :=
  truthy a = false
  \/ exists d h r, a = JObj d /\ dict_get (u "health_score") d = Some h
                   /\ dict_get (u "churn_risk") d = Some r.

Definition kept (ca : customer * json) : bool := truthy (snd ca).

(** A churn risk that can be looked up in [risk_color]. *)
Definition hashable (v : json) : bool :=
  match v with
  | JArr _ | JObj _ => false
  | _ => true
  end.

(** A score the gauge can be drawn with: a number, or none. *)
Definition drawable (v : json) : bool :=
  match v with
  | JStr _ | JArr _ | JObj _ => false
  | _ => true
  end.

(** A value [enumerate] can walk. *)
Definition iterable (v : json) : bool :=
  match v with
  | JArr _ | JObj _ | JStr _ => true
  | _ => false
  end.

Definition has_key (k : str) (a : json) : bool :=
  match a with
  | JObj d => match dict_get k d with Some _ => true | None => false end
  | _ => false
  end.

Definition Qnonneg (q : Q) : Prop := (0 <= q)%Q.

End Shapes.

(** ** More sample data *)

Module Replies.
Import PyStr Py Json App Sample.

(** The text of a good reply, bare, and the same text in a fence. *)
Definition bare_text : str :=
  [10%N] ++ uq "{'health_score': 64, 'churn_risk': 'high', 'analysis': 'Quiet.', 'recommendations': ['A', 'B', 'C']}" ++ [10%N].

Definition fenced_text : str := u "```json" ++ bare_text ++ u "```".

(** A reply whose first block is text and whose second is not. *)
Definition two_blocks : result (list block) :=
  Ok [TextBlock (uq "{'health_score': 82, 'churn_risk': 'low'}"); OtherBlock].

(** Replies that decode to values Python takes for false. *)
Definition empty_object : result (list block) := says "{}".
Definition json_null : result (list block) := says "null".

(** A reply that is a list, not an object. *)
Definition a_list : result (list block) := says "[1, 2]".

Definition no_block : result (list block) := Ok [].

(** A state in which something was already logged and written. *)
Definition used (w : script) : state script :=
  {| world := w;
     sent := [create_args (render_prompt globex)];
     screen := [status_text (u "...")] |}.

(** An endpoint that always gives the first block of [two_blocks]. *)
Definition first_block_only (api_key : option str) (req : request)
  (w : script) : result (list block) * script :=
  (Ok [TextBlock (uq "{'health_score': 82, 'churn_risk': 'low'}")], []).

(** The table of scenario 3. *)
Definition two_rows : list result_row :=
  [ {| Cliente := u "Acme Corp"; Health_Score := JInt 82;
       Riesgo := JStr (u "low"); Revenue := (2469135 # 2)%Q;
       Dias_sin_actividad := 12; Tickets_abiertos := 3 |};
    {| Cliente := u "Initech"; Health_Score := JInt 64;
       Riesgo := JStr (u "high"); Revenue := 310500%Q;
       Dias_sin_actividad := 2; Tickets_abiertos := 0 |} ].

End Replies.

(* ================================================================== *)
(** * Part II. Properties *)
(* ================================================================== *)

Import PyStr Py Json App Notions.

Unset Implicit Arguments.

(** ** Substrings *)

Section Substrings.

Lemma starts_with_prefix (p s : str) :
  starts_with p s = true <-> exists b, s = p ++ b.
Proof.
  revert s; induction p as [|a p IH]; intros s; simpl.
  - split; [intros _; now exists s | reflexivity].
  - destruct s as [|c s].
    + split; [discriminate | intros [b Hb]; discriminate].
    + rewrite andb_true_iff, N.eqb_eq, IH. split.
      * intros [-> [b ->]]. now exists b.
      * intros [b Hb]. injection Hb as -> ->. split; [reflexivity | now exists b].
Qed.

Lemma contains_occurs (p s : str) : contains p s = true <-> occurs p s.
Proof.
  induction s as [|c s IH].
  - simpl. rewrite orb_false_r, starts_with_prefix. split.
    + intros [b Hb]. now exists [], b.
    + intros [a [b Hb]]. destruct a; [now exists b | discriminate].
  - cbn [contains]. rewrite orb_true_iff, starts_with_prefix, IH. split.
    + intros [[b Hb] | [a [b Hb]]].
      * now exists [], b.
      * exists (c :: a), b. now rewrite Hb.
    + intros [a [b Hb]]. destruct a as [|x a].
      * left. now exists b.
      * right. injection Hb as _ ->. now exists a, b.
Qed.

Lemma absent_inside (p x s y : str) :
  contains p (x ++ s ++ y) = false -> contains p s = false.
Proof.
  intros H. destruct (contains p s) eqn:E; [|reflexivity].
  apply contains_occurs in E. destruct E as [a [b ->]].
  assert (contains p (x ++ (a ++ p ++ b) ++ y) = true) as H'.
  { apply contains_occurs. exists (x ++ a), (b ++ y).
    now rewrite <- !app_assoc. }
  congruence.
Qed.

Lemma absent_longer (p q s : str) :
  occurs p q -> contains p s = false -> contains q s = false.
Proof.
  intros [a [b ->]] H. destruct (contains (a ++ p ++ b) s) eqn:E; [|reflexivity].
  apply contains_occurs in E. destruct E as [x [y ->]].
  assert (contains p (x ++ (a ++ p ++ b) ++ y) = true) as H'.
  { apply contains_occurs. exists (x ++ a), (b ++ y).
    now rewrite <- !app_assoc. }
  congruence.
Qed.

End Substrings.

(** ** [str.replace] *)

Section Replace.

Variables old new : str.

Lemma replace_from_skip (k : nat) (s : str) :
  replace_from old new k s = replace_from old new 0 (skipn k s).
Proof.
  revert k; induction s as [|c s IH]; intros [|k]; try reflexivity.
  simpl skipn. rewrite <- IH. reflexivity.
Qed.

(** One step of the scan. *)
Lemma replace_from_step (c : char) (t : str) :
  replace_from old new 0 (c :: t) =
  if starts_with old (c :: t)
  then new ++ replace_from old new 0 (skipn (List.length old - 1) t)
  else c :: replace_from old new 0 t.
Proof.
  cbn [replace_from]. destruct (starts_with old (c :: t)); [|reflexivity].
  now rewrite replace_from_skip.
Qed.

(** A text without the pattern is left as it is. *)
Lemma replace_from_absent (s : str) :
  contains old s = false -> replace_from old new 0 s = s.
Proof.
  induction s as [|c s IH]; [reflexivity|].
  cbn [contains]. intros H. apply orb_false_iff in H as [H1 H2].
  rewrite replace_from_step, H1, IH; auto.
Qed.

End Replace.

Lemma replace_absent (old new s : str) :
  old <> [] -> contains old s = false -> replace old new s = s.
Proof.
  intros Hne H. destruct old; [congruence|].
  now apply replace_from_absent.
Qed.

(** ** Removing the fence marker *)

Section Fence.

Lemma unfence_cons (c : char) (t : str) :
  unfence (c :: t) =
  if starts_with fence (c :: t) then unfence (skipn 2 t) else c :: unfence t.
Proof. unfold unfence. now rewrite replace_from_step. Qed.

Lemma starts_with_cons (a : char) (p : str) (c : char) (t : str) :
  starts_with (a :: p) (c :: t) = (a =? c)%N && starts_with p t.
Proof. reflexivity. Qed.

Lemma unfence_no_tick (s : str) :
  starts_with [tick] s = false -> starts_with [tick] (unfence s) = false.
Proof.
  destruct s as [|c t]; [reflexivity|].
  intros H. rewrite unfence_cons. unfold fence.
  rewrite starts_with_cons in *.
  destruct (tick =? c)%N eqn:Ec; [discriminate H|].
  cbn [andb]. now rewrite starts_with_cons, Ec.
Qed.

Lemma unfence_no_two_ticks (s : str) :
  starts_with [tick; tick] s = false ->
  starts_with [tick; tick] (unfence s) = false.
Proof.
  destruct s as [|c t]; [reflexivity|].
  intros H. rewrite unfence_cons. unfold fence.
  rewrite starts_with_cons in *.
  destruct (tick =? c)%N eqn:Ec; cbn [andb] in *.
  - assert (starts_with [tick; tick] t = false) as ->.
    { destruct t as [|c2 t]; [reflexivity|].
      rewrite starts_with_cons in *.
      destruct (tick =? c2)%N; [discriminate H | reflexivity]. }
    rewrite starts_with_cons, Ec. cbn [andb].
    now apply unfence_no_tick.
  - now rewrite starts_with_cons, Ec.
Qed.

Lemma unfence_no_fence_ahead (n : nat) (s : str) :
  List.length s <= n -> starts_with fence (unfence s) = false.
Proof.
  revert s; induction n as [|n IH]; intros s Hn.
  - destruct s; [reflexivity | simpl in Hn; lia].
  - destruct s as [|c t]; [reflexivity|].
    rewrite unfence_cons. destruct (starts_with fence (c :: t)) eqn:E.
    + apply IH. simpl in Hn. rewrite length_skipn. lia.
    + unfold fence in *. rewrite starts_with_cons in *.
      destruct (tick =? c)%N; [|reflexivity]. cbn [andb] in *.
      now apply unfence_no_two_ticks.
Qed.

(** After the removal no fence marker is left. *)
Lemma unfence_clean_upto (n : nat) (s : str) :
  List.length s <= n -> contains fence (unfence s) = false.
Proof.
  revert s; induction n as [|n IH]; intros s Hn.
  - destruct s; [reflexivity | simpl in Hn; lia].
  - destruct s as [|c t]; [reflexivity|].
    pose proof (unfence_no_fence_ahead _ (c :: t) Hn) as Hhead.
    rewrite unfence_cons in *. destruct (starts_with fence (c :: t)).
    + apply IH. simpl in Hn. rewrite length_skipn. lia.
    + cbn [contains]. rewrite Hhead. apply IH. simpl in Hn. lia.
Qed.

Lemma unfence_clean (s : str) : contains fence (unfence s) = false.
Proof. exact (unfence_clean_upto _ s (le_n _)). Qed.

(** A text that ends where a marker closes it: the marker goes, the text
    stays. *)
Lemma unfence_closing (inner : str) :
  contains fence inner = false -> unfence (inner ++ fence) = inner.
Proof.
  induction inner as [|c t IH]; [reflexivity|].
  cbn [contains]. intros H. apply orb_false_iff in H as [H1 H2].
  change ((c :: t) ++ fence) with (c :: t ++ fence).
  rewrite unfence_cons.
  destruct (starts_with fence (c :: t ++ fence)) eqn:E.
  - unfold fence in E, H1. destruct t as [|c2 [|c3 t]]; cbn [app] in E;
      rewrite !starts_with_cons in E.
    + apply andb_true_iff in E as [Ec _].
      apply N.eqb_eq in Ec. subst c. reflexivity.
    + apply andb_true_iff in E as [Ec E].
      apply andb_true_iff in E as [Ec2 _].
      apply N.eqb_eq in Ec, Ec2. subst c c2. reflexivity.
    + rewrite !starts_with_cons in H1. cbn [starts_with] in E, H1. congruence.
  - now rewrite IH.
Qed.

Lemma json_fence_absent (inner : str) :
  contains fence inner = false -> contains json_fence (inner ++ fence) = false.
Proof.
  intros H. destruct (contains json_fence (inner ++ fence)) eqn:E; [|reflexivity].
  apply contains_occurs in E. destruct E as [a [b E]].
  unfold json_fence in E. rewrite <- !app_assoc in E.
  rewrite (app_assoc a fence) in E.
  apply app_eq_app in E. destruct E as [l [[E1 E2] | [E1 E2]]].
  - assert (contains fence inner = true) as H'.
    { apply contains_occurs. exists a, l. now rewrite E1, <- app_assoc. }
    congruence.
  - apply (f_equal (@List.length _)) in E2.
    rewrite !length_app in E2. simpl in E2. lia.
Qed.

End Fence.

(** ** [str.strip] *)

Section Strip.

Lemma lstrip_suffix (s : str) : exists a, s = a ++ lstrip s.
Proof.
  induction s as [|c s [a IH]]; [now exists []|].
  simpl. destruct (is_space c).
  - exists (c :: a). now rewrite IH at 1.
  - now exists [].
Qed.

Lemma lstrip_head (s : str) :
  match lstrip s with [] => True | c :: _ => is_space c = false end.
Proof.
  induction s as [|c s IH]; [exact I|].
  simpl. destruct (is_space c) eqn:E; [exact IH | exact E].
Qed.

Lemma lstrip_fixed (s : str) :
  match s with [] => True | c :: _ => is_space c = false end -> lstrip s = s.
Proof. destruct s as [|c s]; [reflexivity|]. simpl. now intros ->. Qed.

Lemma lstrip_lstrip (s : str) : lstrip (lstrip s) = lstrip s.
Proof. apply lstrip_fixed, lstrip_head. Qed.

Lemma lstrip_snoc (a : str) (c : char) :
  is_space c = false -> lstrip (a ++ [c]) = lstrip a ++ [c].
Proof.
  intros Hc. induction a as [|x a IH]; simpl.
  - now rewrite Hc.
  - destruct (is_space x); [exact IH | reflexivity].
Qed.

Lemma rstrip_cons (c : char) (t : str) :
  is_space c = false -> rstrip (c :: t) = c :: rstrip t.
Proof.
  intros Hc. unfold rstrip. simpl rev.
  now rewrite lstrip_snoc, rev_app_distr.
Qed.

Lemma rstrip_prefix (s : str) : exists b, s = rstrip s ++ b.
Proof.
  unfold rstrip. destruct (lstrip_suffix (rev s)) as [a Ha].
  exists (rev a). rewrite <- rev_app_distr, <- Ha. now rewrite rev_involutive.
Qed.

Lemma rstrip_rstrip (s : str) : rstrip (rstrip s) = rstrip s.
Proof. unfold rstrip. now rewrite rev_involutive, lstrip_lstrip. Qed.

Lemma strip_inside (s : str) : exists a b, s = a ++ strip s ++ b.
Proof.
  unfold strip. destruct (lstrip_suffix s) as [a Ha].
  destruct (rstrip_prefix (lstrip s)) as [b Hb].
  exists a, b. now rewrite <- Hb.
Qed.

Lemma strip_strip (s : str) : strip (strip s) = strip s.
Proof.
  unfold strip. pose proof (lstrip_head s) as H.
  destruct (lstrip s) as [|c t].
  - reflexivity.
  - rewrite (rstrip_cons c t H). simpl. rewrite H.
    rewrite <- (rstrip_cons c t H). apply rstrip_rstrip.
Qed.

Lemma strip_absent (p s : str) :
  contains p s = false -> contains p (strip s) = false.
Proof.
  intros H. destruct (strip_inside s) as [a [b E]].
  rewrite E in H. exact (absent_inside _ _ _ _ H).
Qed.

End Strip.

(** ** Fence stripping (C2) *)

Lemma strip_fences_unfold (s : str) :
  strip_fences s = strip (unfence (replace_from json_fence [] 0 s)).
Proof. reflexivity. Qed.

Lemma strip_fences_clean (s : str) : contains fence (strip_fences s) = false.
Proof. rewrite strip_fences_unfold. apply strip_absent, unfence_clean. Qed.

Lemma fence_in_json_fence : occurs fence json_fence.
Proof. now exists [], [106; 115; 111; 110]%N. Qed.

Lemma strip_fences_absent (s : str) :
  contains fence s = false -> strip_fences s = strip s.
Proof.
  intros H. rewrite strip_fences_unfold.
  rewrite replace_from_absent by exact (absent_longer _ _ _ fence_in_json_fence H).
  unfold unfence. now rewrite replace_from_absent.
Qed.

Lemma strip_fences_wrapped (inner : str) :
  contains fence inner = false ->
  strip_fences (json_fence ++ inner ++ fence) = strip inner.
Proof.
  intros H. rewrite strip_fences_unfold.
  change (json_fence ++ inner ++ fence)
    with (tick :: [tick; tick; 106; 115; 111; 110]%N ++ inner ++ fence).
  rewrite replace_from_step.
  replace (starts_with json_fence
             (tick :: [tick; tick; 106; 115; 111; 110]%N ++ inner ++ fence))
    with true by reflexivity.
  change (skipn _ _) with (inner ++ fence). simpl app at 1.
  rewrite replace_from_absent by now apply json_fence_absent.
  now rewrite unfence_closing.
Qed.

(** C2 (as the code has it).  Fence stripping is idempotent.  A text with no
    fence marker comes back with the white space around it removed, and a
    text of the form [```json inner ```], where [inner] holds no fence
    marker, comes back as [inner] with the white space around it removed. *)
Theorem strip_fences_spec :
  (forall s, strip_fences (strip_fences s) = strip_fences s)
  /\ (forall s, contains (u "```") s = false -> strip_fences s = strip s)
  /\ (forall inner, contains (u "```") inner = false ->
        strip_fences (u "```json" ++ inner ++ u "```") = strip inner).
Proof.
  split; [|split].
  - intros s. rewrite (strip_fences_absent _ (strip_fences_clean s)).
    rewrite strip_fences_unfold. apply strip_strip.
  - exact strip_fences_absent.
  - exact strip_fences_wrapped.
Qed.

Lemma strip_fences_spec_witness :
  contains (u "```") (u " {} ") = false
  /\ strip_fences (u " {} ") = strip (u " {} ")
  /\ strip_fences (u "```json" ++ u " {} " ++ u "```") = strip (u " {} ").
Proof.
  split; [reflexivity|]. split.
  - apply (proj1 (proj2 strip_fences_spec)). reflexivity.
  - apply (proj2 (proj2 strip_fences_spec)). reflexivity.
Defined.

(** C2, as stated, fails: the strip that ends the step removes white space,
    so a text with no fence marker is not always returned unchanged, and the
    inner text of a fenced reply is not always returned exactly. *)
Lemma strip_fences_changes_text :
  contains (u "```") (u " {} ") = false
  /\ strip_fences (u " {} ") <> u " {} "
  /\ strip_fences (u "```json" ++ [10%N] ++ u "{}" ++ [10%N] ++ u "```")
     <> [10%N] ++ u "{}" ++ [10%N].
Proof. repeat split; vm_compute; discriminate. Qed.

(** ** Numbers as text *)

Section Decimal.

Lemma uint_chars_digits (d : Decimal.uint) :
  forallb is_digit (uint_chars d) = true.
Proof. induction d; simpl; auto. Qed.

Lemma digits_value_acc (d : Decimal.uint) (acc : positive) :
  fold_left digit_step (uint_chars d) (N.pos acc)
  = N.pos (Pos.of_uint_acc d acc).
Proof.
  revert acc; induction d; intros acc; cbn [uint_chars fold_left Pos.of_uint_acc];
    try reflexivity;
    match goal with
    | |- fold_left digit_step _ ?a = _ =>
        match goal with
        | |- _ = N.pos (Pos.of_uint_acc _ ?b) =>
            replace a with (N.pos b) by (unfold digit_step; lia)
        end
    end; apply IHd.
Qed.

Lemma digits_value_uint (d : Decimal.uint) :
  digits_value (uint_chars d) = N.of_uint d.
Proof.
  unfold digits_value, N.of_uint.
  induction d; cbn [uint_chars fold_left Pos.of_uint]; try reflexivity;
    try (change (digit_step 0%N _) with 0%N; exact IHd);
    match goal with
    | |- fold_left digit_step _ ?a = N.pos (Pos.of_uint_acc _ ?b) =>
        change a with (N.pos b)
    end; apply digits_value_acc.
Qed.

Lemma str_of_N_value (n : N) : digits_value (str_of_N n) = n.
Proof.
  unfold str_of_N. rewrite digits_value_uint. apply DecimalN.Unsigned.of_to.
Qed.

Lemma str_of_N_digits (n : N) : forallb is_digit (str_of_N n) = true.
Proof. apply uint_chars_digits. Qed.

Lemma str_of_N_nonempty (n : N) : str_of_N n <> [].
Proof.
  unfold str_of_N. destruct n as [|p]; [discriminate|].
  pose proof (DecimalPos.Unsigned.to_uint_nonnil p) as H.
  simpl. destruct (Pos.to_uint p); [congruence | discriminate ..].
Qed.

(** An integer is rendered as plain decimal text: reading the text back
    gives the integer. *)
Lemma int_of_str_of_Z (z : Z) : int_of_str (str_of_Z z) = Some z.
Proof.
  unfold str_of_Z. destruct (z <? 0)%Z eqn:E.
  - apply Z.ltb_lt in E. cbn [int_of_str]. rewrite N.eqb_refl.
    pose proof (str_of_N_nonempty (Z.abs_N z)) as Hne.
    pose proof (str_of_N_digits (Z.abs_N z)) as Hd.
    pose proof (str_of_N_value (Z.abs_N z)) as Hv.
    destruct (str_of_N (Z.abs_N z)) as [|c t]; [congruence|].
    rewrite Hd, Hv. f_equal. lia.
  - apply Z.ltb_ge in E.
    pose proof (str_of_N_nonempty (Z.to_N z)) as Hne.
    pose proof (str_of_N_digits (Z.to_N z)) as Hd.
    pose proof (str_of_N_value (Z.to_N z)) as Hv.
    destruct (str_of_N (Z.to_N z)) as [|c t]; [congruence|].
    cbn [int_of_str]. rewrite Hd, Hv.
    assert ((c =? 45)%N = false) as ->.
    { cbn [forallb] in Hd. apply andb_true_iff in Hd as [Hc _].
      unfold is_digit in Hc. apply andb_true_iff in Hc as [Hc _].
      apply N.leb_le in Hc. apply N.eqb_neq. lia. }
    f_equal. lia.
Qed.

Lemma digits_value_app (a b : str) :
  digits_value (a ++ b) = fold_left digit_step b (digits_value a).
Proof. unfold digits_value. now rewrite fold_left_app. Qed.

End Decimal.

(** ** Thousands separators *)

Section Grouping.

Lemma group_rev_short (r : str) : List.length r <= 3 -> group_rev 0 r = r.
Proof.
  destruct r as [|a [|b [|c [|d r]]]]; simpl; intros H; try reflexivity; lia.
Qed.

Lemma group_rev_long (a b c d : char) (r : str) :
  group_rev 0 (a :: b :: c :: d :: r)
  = a :: b :: c :: 44%N :: group_rev 0 (d :: r).
Proof. reflexivity. Qed.

(** The reversed digits fall into groups of three followed by a comma, and
    a last group of one to three. *)
Lemma group_rev_groups (n : nat) (r : str) :
  List.length r <= n -> r <> [] ->
  exists groups last,
    group_rev 0 r = flat_map (fun g => g ++ [44%N]) groups ++ last
    /\ r = List.concat groups ++ last
    /\ 1 <= List.length last <= 3
    /\ Forall (fun g => List.length g = 3) groups.
Proof.
  revert r; induction n as [|n IH]; intros r Hn Hne.
  - destruct r; [congruence | simpl in Hn; lia].
  - destruct (le_lt_dec (List.length r) 3) as [Hs | Hl].
    + exists [], r. rewrite group_rev_short by exact Hs.
      repeat split; try exact Hs; [|constructor].
      destruct r; [congruence | simpl; lia].
    + destruct r as [|a [|b [|c [|d r]]]]; simpl in Hl; try lia.
      destruct (IH (d :: r)) as [groups [last [H1 [H2 [H3 H4]]]]];
        [simpl in *; lia | discriminate |].
      exists ([a; b; c] :: groups), last.
      rewrite group_rev_long, H1. repeat split; try lia.
      * simpl. now rewrite <- H2.
      * constructor; [reflexivity | exact H4].
Qed.

Lemma rev_groups (gs : list str) :
  rev (flat_map (fun g => g ++ [44%N]) gs)
  = flat_map (fun g => 44%N :: g) (rev (map (@rev char) gs)).
Proof.
  induction gs as [|g gs IH]; [reflexivity|].
  cbn [flat_map map rev]. rewrite rev_app_distr, IH, flat_map_app.
  cbn [flat_map]. now rewrite rev_app_distr, app_nil_r.
Qed.

Lemma rev_concat (gs : list str) :
  rev (List.concat gs) = List.concat (rev (map (@rev char) gs)).
Proof.
  induction gs as [|g gs IH]; [reflexivity|].
  cbn [List.concat map rev]. rewrite rev_app_distr, IH, concat_app.
  cbn [List.concat]. now rewrite app_nil_r.
Qed.

(** [group3] cuts the digits, from the right, into groups of three, and
    puts a comma before each group but the first. *)
Lemma group3_groups (ds : str) :
  ds <> [] ->
  exists head groups,
    group3 ds = grouped head groups
    /\ ds = head ++ List.concat groups
    /\ 1 <= List.length head <= 3
    /\ Forall (fun g => List.length g = 3) groups.
Proof.
  intros Hne.
  destruct (group_rev_groups (List.length (rev ds)) (rev ds) (le_n _))
    as [groups [last [H1 [H2 [H3 H4]]]]].
  { intros E. apply (f_equal (@rev char)) in E.
    rewrite rev_involutive in E. exact (Hne E). }
  exists (rev last), (rev (map (@rev char) groups)).
  unfold group3, grouped. rewrite H1, rev_app_distr, rev_groups.
  repeat split.
  - rewrite <- (rev_involutive ds), H2, rev_app_distr, rev_concat. reflexivity.
  - rewrite length_rev. lia.
  - rewrite length_rev. lia.
  - apply Forall_rev, Forall_map.
    eapply Forall_impl; [|exact H4]. intros g Hg. now rewrite length_rev.
Qed.

End Grouping.

(** ** Rounding and the currency format *)

Section Money.

(** [round_half_even] is a nearest integer: it is at most one half away. *)
Lemma round_half_even_near (q : Q) :
  (Z.abs (2 * (round_half_even q * Z.pos (Qden q) - Qnum q))
   <= Z.pos (Qden q))%Z.
Proof.
  unfold round_half_even.
  pose proof (Z.div_mod (Qnum q) (Z.pos (Qden q)) ltac:(lia)) as E.
  pose proof (Z.mod_pos_bound (Qnum q) (Z.pos (Qden q)) ltac:(lia)) as B.
  set (d := Z.pos (Qden q)) in *. set (n := Qnum q) in *.
  set (fl := (n / d)%Z) in *. set (r := (n mod d)%Z) in *.
  destruct (2 * r <? d)%Z eqn:E1; [apply Z.ltb_lt in E1; nia|].
  apply Z.ltb_ge in E1.
  destruct (d <? 2 * r)%Z eqn:E2; [apply Z.ltb_lt in E2; nia|].
  apply Z.ltb_ge in E2. destruct (Z.even fl); nia.
Qed.

(** [nearest_even] in integers. *)
Lemma nearest_even_Z (q : Q) (k : Z) :
  nearest_even q k <->
  (2 * Z.abs (Qnum q - k * Z.pos (Qden q)) <= Z.pos (Qden q)
   /\ (2 * Z.abs (Qnum q - k * Z.pos (Qden q)) = Z.pos (Qden q)
       -> Z.even k = true))%Z.
Proof.
  destruct q as [n d]. unfold nearest_even, Qminus, Qplus, Qopp, inject_Z, Qabs,
    Qle, Qeq. cbn [Qnum Qden].
  rewrite Pos.mul_1_r, !Z.mul_1_r, !Z.mul_1_l.
  replace (n + - k * Z.pos d)%Z with (n - k * Z.pos d)%Z by lia.
  split; intros [H1 H2]; (split; [lia | intros H; apply H2; lia]).
Qed.

Lemma nearest_even_wd (q q' : Q) (k : Z) :
  (q == q')%Q -> nearest_even q k -> nearest_even q' k.
Proof.
  intros E [H1 H2]. unfold nearest_even. rewrite <- E. now split.
Qed.

Lemma round_half_even_nearest (q : Q) : nearest_even q (round_half_even q).
Proof.
  apply nearest_even_Z. unfold round_half_even.
  pose proof (Z.div_mod (Qnum q) (Z.pos (Qden q)) ltac:(lia)) as E.
  pose proof (Z.mod_pos_bound (Qnum q) (Z.pos (Qden q)) ltac:(lia)) as B.
  set (d := Z.pos (Qden q)) in *. set (n := Qnum q) in *.
  set (fl := (n / d)%Z) in *. set (r := (n mod d)%Z) in *.
  destruct (2 * r <? d)%Z eqn:E1; [apply Z.ltb_lt in E1; split; nia|].
  apply Z.ltb_ge in E1.
  destruct (d <? 2 * r)%Z eqn:E2; [apply Z.ltb_lt in E2; split; nia|].
  apply Z.ltb_ge in E2. destruct (Z.even fl) eqn:Ev.
  - split; [nia | intros _; exact Ev].
  - split; [nia | intros _].
    rewrite Z.add_1_r, Z.even_succ, <- Z.negb_even, Ev. reflexivity.
Qed.

Lemma nearest_even_unique (q : Q) (k k' : Z) :
  nearest_even q k -> nearest_even q k' -> k = k'.
Proof.
  intros H H'. apply nearest_even_Z in H, H'.
  destruct H as [H1 H2], H' as [H1' H2'].
  set (d := Z.pos (Qden q)) in *. set (n := Qnum q) in *.
  assert (0 < d)%Z as Hd by (unfold d; lia).
  destruct (Z.eq_dec k k') as [|Hne]; [assumption|exfalso].
  assert (k' = k + 1 \/ k = k' + 1)%Z as Hs by nia.
  assert (Z.even k = true /\ Z.even k' = true) as [Ek Ek'].
  { split; [apply H2 | apply H2']; nia. }
  destruct Hs as [-> | ->].
  - rewrite Z.add_1_r, Z.even_succ, <- Z.negb_even, Ek in Ek'. discriminate.
  - rewrite Z.add_1_r, Z.even_succ, <- Z.negb_even, Ek' in Ek. discriminate.
Qed.

Lemma round_half_even_wd (q q' : Q) :
  (q == q')%Q -> round_half_even q = round_half_even q'.
Proof.
  intros E. apply (nearest_even_unique q').
  - apply (nearest_even_wd q); [exact E | apply round_half_even_nearest].
  - apply round_half_even_nearest.
Qed.

Lemma round_half_even_nonneg (q : Q) : (0 <= q)%Q -> (0 <= round_half_even q)%Z.
Proof.
  intros H. unfold Qle in H. cbn in H. rewrite Z.mul_1_r in H.
  unfold round_half_even.
  assert (0 <= Qnum q / Z.pos (Qden q))%Z by (apply Z.div_pos; lia).
  destruct (_ <? _)%Z; [assumption|]. destruct (_ <? _)%Z; [lia|].
  destruct (Z.even _); lia.
Qed.

Lemma round_half_even_inject (z : Z) : round_half_even (inject_Z z) = z.
Proof.
  apply (nearest_even_unique (inject_Z z)); [apply round_half_even_nearest|].
  apply nearest_even_Z. cbn [inject_Z Qnum Qden].
  replace (z - z * 1)%Z with 0%Z by lia. cbn. split; [lia | intros H; lia].
Qed.

(** *** The nearest float *)

Lemma pow2_pos (e : Z) : (0 < 2 ^ Z.max 0 e)%Z.
Proof. apply Z.pow_pos_nonneg; lia. Qed.

Lemma inject_Z_nonzero (z : Z) : (0 < z)%Z -> ~ (inject_Z z == 0)%Q.
Proof. intros H E. unfold Qeq in E. cbn in E. lia. Qed.

Lemma Qpower2 (e : Z) :
  (Qpower 2 e == inject_Z (2 ^ Z.max 0 e) / inject_Z (2 ^ Z.max 0 (- e)))%Q.
Proof.
  destruct (Z.le_gt_cases 0 e) as [H|H].
  - rewrite Z.max_r, Z.max_l by lia. change (2 ^ 0)%Z with 1%Z.
    rewrite Zpower_Qpower by lia. change (inject_Z 2) with 2%Q.
    change (inject_Z 1) with 1%Q. field.
  - rewrite Z.max_l, Z.max_r by lia. change (2 ^ 0)%Z with 1%Z.
    rewrite Zpower_Qpower by lia. change (inject_Z 2) with 2%Q.
    change (inject_Z 1) with 1%Q.
    rewrite Qpower_opp. field.
    apply Qpower_not_0. discriminate.
Qed.

Lemma Qpower2_pos (e : Z) : (0 < Qpower 2 e)%Q.
Proof. apply Qpower_0_lt. reflexivity. Qed.

Lemma scaled_den_pos (d e : Z) : (0 < d)%Z -> (0 < scaled_den d e)%Z.
Proof. intros H. unfold scaled_den. pose proof (pow2_pos e). nia. Qed.

Lemma scaled_num_nonneg (n e : Z) : (0 <= n)%Z -> (0 <= scaled_num n e)%Z.
Proof. intros H. unfold scaled_num. pose proof (pow2_pos (- e)). nia. Qed.

(** [|x| / 2^e] as a fraction of integers. *)
Lemma Qabs_div_pow2 (x : Q) (e : Z) :
  (Qabs x / Qpower 2 e
   == scaled_num (Z.abs (Qnum x)) e
      # Z.to_pos (scaled_den (Z.pos (Qden x)) e))%Q.
Proof.
  rewrite Qpower2. destruct x as [n d]. cbn [Qabs Qnum Qden].
  pose proof (pow2_pos e) as HP. pose proof (pow2_pos (- e)) as HM.
  rewrite (Qmake_Qdiv (Z.abs n) d), Qmake_Qdiv.
  rewrite Z2Pos.id by (apply scaled_den_pos; lia).
  unfold scaled_num, scaled_den. rewrite !inject_Z_mult.
  field. repeat split; apply inject_Z_nonzero; lia.
Qed.

Lemma pow2_ratio (e e' : Z) :
  (e <= e')%Z ->
  (2 ^ Z.max 0 e * 2 ^ Z.max 0 (- e') * 2 ^ (e' - e)
   = 2 ^ Z.max 0 e' * 2 ^ Z.max 0 (- e))%Z.
Proof.
  intros H. rewrite <- !Z.pow_add_r by lia. f_equal. lia.
Qed.

(** Lowering the exponent by [k] multiplies the scaled quotient by [2^k]. *)
Lemma scaled_ratio (n d e e' : Z) :
  (e <= e')%Z ->
  (scaled_num n e * scaled_den d e'
   = 2 ^ (e' - e) * (scaled_num n e' * scaled_den d e))%Z.
Proof.
  intros H. unfold scaled_num, scaled_den.
  pose proof (pow2_ratio e e' H) as E1.
  set (P := (2 ^ Z.max 0 e)%Z) in *. set (P' := (2 ^ Z.max 0 e')%Z) in *.
  set (M := (2 ^ Z.max 0 (- e))%Z) in *. set (M' := (2 ^ Z.max 0 (- e'))%Z) in *.
  set (K := (2 ^ (e' - e))%Z) in *.
  transitivity (n * d * (P' * M))%Z; [ring|].
  rewrite <- E1. ring.
Qed.

(** The first guess of the exponent is right or one too high. *)
Lemma exponent_window (n d : Z) :
  (0 < n)%Z -> (0 < d)%Z ->
  let e0 := (Z.log2 n - Z.log2 d - 52)%Z in
  (2 ^ 51 * scaled_den d e0 < scaled_num n e0
   /\ scaled_num n e0 < 2 ^ 53 * scaled_den d e0)%Z.
Proof.
  intros Hn Hd e0.
  destruct (Z.log2_spec n Hn) as [Ln Un]. destruct (Z.log2_spec d Hd) as [Ld Ud].
  pose proof (Z.log2_nonneg n) as Nn. pose proof (Z.log2_nonneg d) as Nd.
  rewrite Z.pow_succ_r in Un, Ud by assumption.
  unfold scaled_num, scaled_den.
  destruct (Z.le_gt_cases 0 e0) as [H|H].
  - rewrite (Z.max_r 0 e0), (Z.max_l 0 (- e0)) by lia.
    change (2 ^ 0)%Z with 1%Z.
    assert (2 ^ Z.log2 n = 2 ^ Z.log2 d * 2 ^ 52 * 2 ^ e0)%Z as E.
    { rewrite <- !Z.pow_add_r by lia. f_equal. unfold e0. lia. }
    assert (0 < 2 ^ e0)%Z by (apply Z.pow_pos_nonneg; lia).
    assert (0 < 2 ^ Z.log2 d)%Z by (apply Z.pow_pos_nonneg; lia).
    change (2 ^ 51)%Z with 2251799813685248%Z.
    change (2 ^ 53)%Z with 9007199254740992%Z.
    change (2 ^ 52)%Z with 4503599627370496%Z in E.
    set (p := (2 ^ e0)%Z) in *. set (a := (2 ^ Z.log2 d)%Z) in *.
    set (b := (2 ^ Z.log2 n)%Z) in *. nia.
  - rewrite (Z.max_l 0 e0), (Z.max_r 0 (- e0)) by lia.
    change (2 ^ 0)%Z with 1%Z.
    assert (2 ^ Z.log2 n * 2 ^ (- e0) = 2 ^ Z.log2 d * 2 ^ 52)%Z as E.
    { rewrite <- !Z.pow_add_r by lia. f_equal. unfold e0. lia. }
    assert (0 < 2 ^ (- e0))%Z by (apply Z.pow_pos_nonneg; lia).
    assert (0 < 2 ^ Z.log2 d)%Z by (apply Z.pow_pos_nonneg; lia).
    change (2 ^ 51)%Z with 2251799813685248%Z.
    change (2 ^ 53)%Z with 9007199254740992%Z.
    change (2 ^ 52)%Z with 4503599627370496%Z in E.
    set (p := (2 ^ (- e0))%Z) in *. set (a := (2 ^ Z.log2 d)%Z) in *.
    set (b := (2 ^ Z.log2 n)%Z) in *. nia.
Qed.

(** The exponent [float_exponent] finds: the scaled quotient is below
    [2^53], and at [2^52] or above unless the exponent is the least one. *)
Lemma float_exponent_spec (n d : Z) :
  (0 < n)%Z -> (0 < d)%Z ->
  let e := float_exponent n d in
  (-1074 <= e
   /\ scaled_num n e < 2 ^ 53 * scaled_den d e
   /\ (2 ^ 52 * scaled_den d e <= scaled_num n e \/ e = -1074))%Z.
Proof.
  intros Hn Hd. unfold float_exponent.
  destruct (exponent_window n d Hn Hd) as [W1 W2].
  set (e0 := (Z.log2 n - Z.log2 d - 52)%Z) in *.
  set (e1 := if (scaled_num n e0 <? 2 ^ 52 * scaled_den d e0)%Z
             then (e0 - 1)%Z else e0).
  assert (scaled_num n e1 < 2 ^ 53 * scaled_den d e1
          /\ 2 ^ 52 * scaled_den d e1 <= scaled_num n e1)%Z as [V1 V2].
  { unfold e1. destruct (_ <? _)%Z eqn:E.
    - apply Z.ltb_lt in E.
      pose proof (scaled_ratio n d (e0 - 1) e0 ltac:(lia)) as R.
      replace (e0 - (e0 - 1))%Z with 1%Z in R by lia.
      change (2 ^ 1)%Z with 2%Z in R.
      pose proof (scaled_den_pos d e0 Hd). pose proof (scaled_den_pos d (e0 - 1) Hd).
      change (2 ^ 51)%Z with 2251799813685248%Z in *.
      change (2 ^ 53)%Z with 9007199254740992%Z in *.
      change (2 ^ 52)%Z with 4503599627370496%Z in *.
      set (A := scaled_num n e0) in *. set (B := scaled_den d e0) in *.
      set (A' := scaled_num n (e0 - 1)) in *. set (B' := scaled_den d (e0 - 1)) in *.
      split; nia.
    - apply Z.ltb_ge in E. split; assumption. }
  clearbody e1. cbv zeta.
  destruct (Z.le_gt_cases (-1074) e1) as [H|H].
  - rewrite Z.max_l by lia. repeat split; [lia | assumption | now left].
  - rewrite Z.max_r by lia. repeat split; [lia | | now right].
    pose proof (scaled_ratio n d e1 (-1074) ltac:(lia)) as R.
    assert (1 <= 2 ^ (-1074 - e1))%Z as K.
    { change 1%Z with (2 ^ 0)%Z at 1. apply Z.pow_le_mono_r; lia. }
    pose proof (scaled_den_pos d e1 Hd). pose proof (scaled_den_pos d (-1074) Hd).
    pose proof (scaled_num_nonneg n (-1074) ltac:(lia)).
    change (2 ^ 53)%Z with 9007199254740992%Z in *.
    set (A := scaled_num n e1) in *. set (B := scaled_den d e1) in *.
    set (A' := scaled_num n (-1074)) in *. set (B' := scaled_den d (-1074)) in *.
    set (k := (2 ^ (-1074 - e1))%Z) in *.
    assert (A' * B <= k * (A' * B))%Z by nia.
    assert (A * B' < 9007199254740992 * B * B')%Z by nia.
    destruct (Z.lt_ge_cases A' (9007199254740992 * B')) as [|G]; [assumption|].
    assert (9007199254740992 * B' * B <= A' * B)%Z by nia. lia.
Qed.

(** [to_float x] is the binary64 number nearest to [x]. *)
Lemma to_float_spec (x : Q) : binary64_of x (to_float x).
Proof.
  unfold to_float, binary64_of.
  destruct (Z.abs (Qnum x) =? 0)%Z eqn:E0.
  - left. apply Z.eqb_eq in E0. split; [|reflexivity].
    unfold Qeq. cbn. lia.
  - right. apply Z.eqb_neq in E0.
    pose proof (Z.abs_nonneg (Qnum x)) as Hn.
    set (n := Z.abs (Qnum x)) in *. set (d := Z.pos (Qden x)).
    destruct (float_exponent_spec n d ltac:(lia) ltac:(reflexivity))
      as [H1 [H2 H3]].
    set (e := float_exponent n d) in *.
    exists e, (round_half_even (scaled_num n e # Z.to_pos (scaled_den d e))).
    pose proof (Qabs_div_pow2 x e) as D. fold n d in D.
    pose proof (scaled_den_pos d e ltac:(reflexivity)) as HB.
    split; [exact H1|].
    split.
    { rewrite D. unfold Qlt. cbn [Qnum Qden inject_Z].
      rewrite Z2Pos.id, Z.mul_1_r by exact HB. exact H2. }
    split.
    { destruct H3 as [H3|H3]; [left|right; exact H3].
      rewrite D. unfold Qle. cbn [Qnum Qden inject_Z].
      rewrite Z2Pos.id, Z.mul_1_r by exact HB. exact H3. }
    split.
    { apply (nearest_even_wd (scaled_num n e # Z.to_pos (scaled_den d e)));
        [symmetry; exact D | apply round_half_even_nearest]. }
    rewrite Qred_correct, Qpower2, Qmake_Qdiv.
    rewrite Z2Pos.id by apply pow2_pos.
    unfold Qsgn. rewrite !inject_Z_mult. field.
    apply inject_Z_nonzero, pow2_pos.
Qed.

Lemma Qred_inject_Z (z : Z) : Qred (inject_Z z) = inject_Z z.
Proof.
  unfold Qred, inject_Z.
  pose proof (Z.ggcd_gcd z 1) as G.
  pose proof (Z.ggcd_correct_divisors z 1) as C.
  destruct (Z.ggcd z 1) as [g [a b]]. cbn [fst snd] in *.
  rewrite Z.gcd_1_r in G. subst g. destruct C as [Ca Cb].
  rewrite Z.mul_1_l in Ca, Cb. subst a b. reflexivity.
Qed.

(** The float of an integer is an integer. *)
Lemma to_float_inject (z : Z) : exists z', to_float (inject_Z z) = inject_Z z'.
Proof.
  unfold to_float. cbn [inject_Z Qnum Qden].
  destruct (Z.abs z =? 0)%Z; [now exists 0%Z|].
  set (e := float_exponent (Z.abs z) 1).
  destruct (Z.le_gt_cases 0 e) as [H|H].
  - rewrite (Z.max_l 0 (- e)) by lia. change (Z.to_pos (2 ^ 0)) with 1%positive.
    eexists. apply Qred_inject_Z.
  - exists z. rewrite <- (Qred_inject_Z z). apply Qred_complete.
    unfold scaled_num, scaled_den.
    rewrite (Z.max_l 0 e), (Z.max_r 0 (- e)) by lia.
    change (Z.to_pos (1 * 2 ^ 0)) with 1%positive.
    change (?a # 1)%Q with (inject_Z a) at 1.
    rewrite round_half_even_inject.
    assert (0 < 2 ^ (- e))%Z as HP by (apply Z.pow_pos_nonneg; lia).
    unfold Qeq. cbn [Qnum Qden inject_Z]. rewrite Z2Pos.id by exact HP.
    change (2 ^ 0)%Z with 1%Z.
    pose proof (Z.abs_sgn z) as S.
    set (p := (2 ^ (- e))%Z) in *. 
    transitivity (Z.sgn z * Z.abs z * p)%Z; [ring|].
    rewrite (Z.mul_comm (Z.sgn z)), S. ring.
Qed.

Lemma two_digits_value (n : N) :
  (n < 100)%N ->
  forallb is_digit (two_digits n) = true
  /\ digits_value (two_digits n) = n.
Proof.
  intros H. unfold two_digits, digits_value, is_digit, digit_step.
  cbn [forallb fold_left].
  pose proof (N.div_mod n 10 ltac:(lia)) as E.
  pose proof (N.mod_lt n 10 ltac:(lia)) as B.
  assert (n / 10 < 10)%N as B' by (apply N.Div0.div_lt_upper_bound; lia).
  generalize dependent (n / 10)%N. generalize dependent (n mod 10)%N.
  intros m Hm q E Hq.
  split.
  - rewrite !andb_true_iff, !N.leb_le. repeat split; try reflexivity; lia.
  - lia.
Qed.

(** The currency format: an optional minus sign, the integer part in groups
    of three digits separated by commas, a dot and two digits; the digits
    are those of the hundredths nearest to the float of the amount. *)
Lemma format_money_shape (x : Q) :
  exists head groups d1 d2 y,
    format_money x = sign_of x ++ grouped head groups ++ [46%N; d1; d2]
    /\ 1 <= List.length head <= 3
    /\ Forall (fun g => List.length g = 3) groups
    /\ forallb is_digit (head ++ List.concat groups ++ [d1; d2]) = true
    /\ binary64_of x y
    /\ nearest_even (Qabs y * 100)
         (Z.of_N (digits_value (head ++ List.concat groups ++ [d1; d2]))).
Proof.
  unfold format_money, sign_of.
  set (r := round_half_even (Qabs (to_float x) * 100)%Q).
  assert (0 <= r)%Z as Hr.
  { apply round_half_even_nonneg.
    apply Qmult_le_0_compat; [apply Qabs_nonneg | discriminate]. }
  set (cents := Z.to_N r).
  destruct (group3_groups (str_of_N (cents / 100)) (str_of_N_nonempty _))
    as [head [groups [H1 [H2 [H3 H4]]]]].
  destruct (two_digits_value (cents mod 100)) as [D1 D2].
  { apply N.mod_lt. lia. }
  exists head, groups, (48 + cents mod 100 / 10)%N,
    (48 + (cents mod 100) mod 10)%N, (to_float x).
  rewrite H1.
  split; [reflexivity|]. split; [lia|]. split; [exact H4|].
  split; [|split; [apply to_float_spec|]].
  - rewrite app_assoc, <- H2, forallb_app, str_of_N_digits. exact D1.
  - assert (digits_value
              (head ++ List.concat groups
                 ++ [(48 + cents mod 100 / 10)%N; (48 + (cents mod 100) mod 10)%N])
            = cents) as ->.
    { rewrite app_assoc, <- H2, digits_value_app.
      rewrite str_of_N_value.
      fold (two_digits (cents mod 100)).
      assert (forall a l, fold_left digit_step l a
                          = (a * 10 ^ N.of_nat (List.length l) + digits_value l)%N)
        as Hfold.
      { intros a l. revert a. unfold digits_value.
        induction l as [|c l IH]; intros a.
        - simpl. lia.
        - cbn [fold_left List.length]. rewrite IH, (IH (digit_step 0 c)).
          rewrite Nat2N.inj_succ, N.pow_succ_r'. unfold digit_step. lia. }
      rewrite Hfold, D2.
      change (10 ^ N.of_nat (List.length (two_digits (cents mod 100))))%N
        with 100%N.
      pose proof (N.div_mod cents 100 ltac:(lia)) as E. lia. }
    unfold cents. rewrite Z2N.id by exact Hr. apply round_half_even_nearest.
Qed.

Lemma Qpower2_step (e e' : Z) :
  (e < e')%Z -> (2 * Qpower 2 e <= Qpower 2 e')%Q.
Proof.
  intros H. replace e' with (e + (e' - e))%Z by lia.
  rewrite Qpower_plus by discriminate.
  rewrite (Qmult_comm 2). apply Qmult_le_l; [apply Qpower2_pos|].
  change 2%Q with (inject_Z 2). rewrite <- Zpower_Qpower by lia.
  rewrite <- Zle_Qle. change 2%Z with (2 ^ 1)%Z at 1.
  apply Z.pow_le_mono_r; lia.
Qed.

(** At most one exponent fits. *)
Lemma binary64_exponent (X : Q) (e e' : Z) :
  (-1074 <= e)%Z ->
  (X / Qpower 2 e < inject_Z (2 ^ 53))%Q ->
  (inject_Z (2 ^ 52) <= X / Qpower 2 e')%Q \/ e' = (-1074)%Z ->
  (e' <= e)%Z.
Proof.
  intros He Hlt Hge. destruct (Z.le_gt_cases e' e) as [|Hgt]; [assumption|].
  exfalso. destruct Hge as [Hge | ->]; [|lia].
  pose proof (Qpower2_step e e' Hgt) as S.
  pose proof (Qpower2_pos e) as P. pose proof (Qpower2_pos e') as P'.
  apply (Qmult_le_r _ _ _ P') in Hge.
  apply (Qmult_lt_r _ _ _ P) in Hlt.
  assert (X / Qpower 2 e' * Qpower 2 e' == X)%Q as E'
    by (field; intros E; rewrite E in P'; discriminate P').
  assert (X / Qpower 2 e * Qpower 2 e == X)%Q as E
    by (field; intros E; rewrite E in P; discriminate P).
  rewrite E' in Hge. rewrite E in Hlt.
  apply (Qlt_irrefl X). eapply Qlt_le_trans; [exact Hlt|].
  eapply Qle_trans; [|exact Hge].
  change (2 ^ 53)%Z with (2 ^ 52 * 2)%Z. rewrite inject_Z_mult.
  rewrite <- Qmult_assoc. apply Qmult_le_l; [reflexivity|].
  change (inject_Z 2) with 2%Q. exact S.
Qed.

(** The nearest float is determined: [binary64_of] has one solution. *)
Lemma binary64_of_unique (x y y' : Q) :
  binary64_of x y -> binary64_of x y' -> (y == y')%Q.
Proof.
  assert (forall z e m, (x == 0)%Q ->
            nearest_even (Qabs x / Qpower 2 e) m ->
            (z == inject_Z (Qsgn x * m) * Qpower 2 e)%Q -> (z == 0)%Q) as Z0.
  { intros z e m Hx Hm Hz.
    assert (m = 0%Z) as ->.
    { apply (nearest_even_unique (Qabs x / Qpower 2 e)); [exact Hm|].
      assert (Qabs x / Qpower 2 e == 0)%Q as E0.
      { rewrite Hx. change (Qabs 0) with 0%Q. unfold Qdiv. apply Qmult_0_l. }
      apply (nearest_even_wd 0); [symmetry; exact E0|].
      apply nearest_even_Z. cbn. split; [lia | intros H; lia]. }
    rewrite Hz, Z.mul_0_r. apply Qmult_0_l. }
  intros [[Hx Hy] | [e [m [He [Hlt [Hge [Hm Hy]]]]]]]
         [[Hx' Hy'] | [e' [m' [He' [Hlt' [Hge' [Hm' Hy']]]]]]].
  - now rewrite Hy, Hy'.
  - rewrite Hy. symmetry. exact (Z0 y' e' m' Hx Hm' Hy').
  - rewrite Hy'. exact (Z0 y e m Hx' Hm Hy).
  - assert (e = e') as <-.
    { apply Z.le_antisymm.
      - exact (binary64_exponent (Qabs x) e' e He' Hlt' Hge).
      - exact (binary64_exponent (Qabs x) e e' He Hlt Hge'). }
    rewrite (nearest_even_unique _ _ _ Hm Hm') in Hy.
    now rewrite Hy, Hy'.
Qed.

End Money.

(** ** The prompt (C5) *)

Lemma render_prompt_weave (c : customer) :
  render_prompt c = weave template_segments (field_values c).
Proof.
  unfold render_prompt, prompt_lines, field_values.
  generalize (name c) (str_of_Z (days_since_last_activity c))
    (str_of_Z (open_tickets c)) (str_of_Z (total_tickets c))
    (format_money (total_revenue c)) (str_of_Z (opportunities_won c))
    (str_of_Z (opportunities_lost c)) (email_engagement c).
  intros v1 v2 v3 v4 v5 v6 v7 v8. vm_compute. reflexivity.
Qed.

Lemma occurs_weave (segs vals : list str) (v : str) :
  List.length vals < List.length segs -> In v vals -> occurs v (weave segs vals).
Proof.
  revert vals; induction segs as [|seg segs IH]; intros vals Hlen Hin.
  - simpl in Hlen. lia.
  - destruct vals as [|w vals]; [contradiction|].
    cbn [weave]. destruct Hin as [-> | Hin].
    + now exists seg, (weave segs vals).
    + destruct (IH vals) as [a [b E]]; [simpl in Hlen; lia | exact Hin |].
      exists (seg ++ w ++ a), b. rewrite E. now rewrite <- !app_assoc.
Qed.

(** C5 (as the code has it).  The prompt is the fixed template with each
    of the eight field values put in once, into a slot of its own, in the
    order of the template; so every value occurs in the prompt (its text
    may occur more often).  An integer field is rendered as plain decimal
    text, which reads back as the integer.  The revenue is rendered with an
    optional sign, groups of three digits separated by commas, a dot and
    two digits; the digits are those of the integer nearest, ties to even,
    to a hundred times the binary64 number nearest to the revenue. *)
Theorem render_prompt_spec (c : customer) :
  render_prompt c = weave template_segments (field_values c)
  /\ List.length template_segments = S (List.length (field_values c))
  /\ Forall (fun v => occurs v (render_prompt c)) (field_values c)
  /\ (forall z, int_of_str (str_of_Z z) = Some z)
  /\ exists head groups d1 d2 y,
       format_money (total_revenue c)
       = sign_of (total_revenue c) ++ grouped head groups ++ [46%N; d1; d2]
       /\ 1 <= List.length head <= 3
       /\ Forall (fun g => List.length g = 3) groups
       /\ forallb is_digit (head ++ List.concat groups ++ [d1; d2]) = true
       /\ binary64_of (total_revenue c) y
       /\ nearest_even (Qabs y * 100)
            (Z.of_N (digits_value (head ++ List.concat groups ++ [d1; d2]))).
Proof.
  split; [apply render_prompt_weave|]. split; [reflexivity|].
  split; [|split; [exact int_of_str_of_Z | apply format_money_shape]].
  rewrite render_prompt_weave. apply Forall_forall. intros v Hv.
  apply occurs_weave; [simpl; lia | exact Hv].
Qed.

(** C5 fails as it is worded.  Each value is put in once, yet it is not
    contained exactly once: the text [3] of three open tickets is found
    five times in the prompt of the sample record, in the fixed text of the
    template and in the revenue as well. *)
Lemma render_prompt_value_text :
  str_of_Z (open_tickets Sample.acme) = u "3"
  /\ count (str_of_Z (open_tickets Sample.acme)) (render_prompt Sample.acme) = 5
  /\ count (str_of_Z (open_tickets Sample.acme)) (render_prompt Sample.acme)
     <> 1.
Proof.
  split; [vm_compute; reflexivity|].
  split; [vm_compute; reflexivity | vm_compute; discriminate].
Qed.

(** ** The analysis client *)

Section Analysis.

Variable W : Type.
Variable create : option str -> request -> W -> result (list block) * W.
Variable json_loads : str -> result json.

(** An analysis in one equation: one call, then the decoded value, or the
    generic error and [None]. *)
Lemma analyze_unfold (api_key : option str) (c : customer) (st : state W) :
  analyze_customer_with_ai create json_loads api_key c st =
  let (reply, w) := create api_key (create_args (render_prompt c)) (world st) in
  let st' := {| world := w;
                sent := sent st ++ [create_args (render_prompt c)];
                screen := screen st |} in
  match decoded json_loads reply with
  | Ok v => (v, st')
  | Raise e => (JNull, show (generic_error e) st')
  end.
Proof.
  unfold analyze_customer_with_ai, request_analysis, decoded.
  destruct (create api_key (create_args (render_prompt c)) (world st))
    as [reply w].
  reflexivity.
Qed.

(** An analysis reads the world only, and adds to the log and the page. *)
Lemma analyze_frame (api_key : option str) (c : customer) (st : state W) :
  analyze_customer_with_ai create json_loads api_key c st =
  (answer create json_loads api_key c (world st),
   {| world := next_world create json_loads api_key c (world st);
      sent := sent st ++ [create_args (render_prompt c)];
      screen := screen st ++ shown create json_loads api_key c (world st) |}).
Proof.
  unfold answer, shown, next_world. rewrite !analyze_unfold. cbn [fresh world].
  destruct (create api_key (create_args (render_prompt c)) (world st))
    as [reply w].
  destruct (decoded json_loads reply); cbn; rewrite ?app_nil_r; reflexivity.
Qed.

(** The value of an analysis is the value of the reply. *)
Lemma decoded_value (reply : result (list block)) :
  match decoded json_loads reply with Ok v => v | Raise _ => JNull end
  = value_of_reply json_loads reply.
Proof.
  destruct reply as [[|[text|] more]|e]; reflexivity.
Qed.

(** An analysis applies the endpoint once, to the request for the record,
    in the world it finds: its value is the value of that reply, and the
    world it leaves is the one that call leaves. *)
Lemma analyze_run (api_key : option str) (c : customer) (st : state W) :
  fst (analyze_customer_with_ai create json_loads api_key c st)
  = value_of_reply json_loads
      (fst (create api_key (request_for c) (world st)))
  /\ world (snd (analyze_customer_with_ai create json_loads api_key c st))
     = snd (create api_key (request_for c) (world st))
  /\ sent (snd (analyze_customer_with_ai create json_loads api_key c st))
     = sent st ++ [request_for c].
Proof.
  rewrite analyze_unfold.
  change (create_args (render_prompt c)) with (request_for c).
  destruct (create api_key (request_for c) (world st)) as [reply w].
  cbn [fst snd]. rewrite <- decoded_value.
  destruct (decoded json_loads reply); repeat split; reflexivity.
Qed.

End Analysis.

Section AnalysisClient.

Variable W : Type.
Variable create : option str -> request -> W -> result (list block) * W.
Variable json_loads : str -> result json.

(** C8.  Every analysis issues exactly one request to the endpoint, and the
    request names the fixed model, a limit of 1000 output tokens, and a
    single message of role [user] whose content is the rendered prompt: the
    value returned is the value of the endpoint's reply to that request in
    the world the analysis starts in, the world left is the one that single
    call leaves, the program's log of calls grows by that request, and an
    endpoint that keeps a log of its own has got that one call more. *)
Theorem analyze_sends_one_request
  (api_key : option str) (c : customer) (st : state W) :
  let req := {| model := u "claude-sonnet-4-20250514";
                max_tokens := 1000;
                messages := [(u "user", render_prompt c)] |} in
  let out := analyze_customer_with_ai create json_loads api_key c st in
  fst out = value_of_reply json_loads (fst (create api_key req (world st)))
  /\ world (snd out) = snd (create api_key req (world st))
  /\ sent (snd out) = sent st ++ [req]
  /\ forall (calls : list (option str * request)) (log : list request)
       (page : list widget),
       snd (world (snd (analyze_customer_with_ai (recording create) json_loads
                          api_key c
                          {| world := (world st, calls); sent := log;
                             screen := page |})))
       = calls ++ [(api_key, req)].
Proof.
  cbv zeta.
  destruct (analyze_run W create json_loads api_key c st) as [H1 [H2 H3]].
  split; [exact H1|]. split; [exact H2|]. split; [exact H3|].
  intros calls log page.
  destruct (analyze_run _ (recording create) json_loads api_key c
              {| world := (world st, calls); sent := log; screen := page |})
    as [_ [H _]].
  rewrite H. reflexivity.
Qed.

(** C4.  A reply whose first block is a text that decodes, once the fences
    are stripped, is returned as decoded, whatever the decoded value is, and
    nothing is written on the page: no check of the score, of the risk or of
    the recommendations stands between the decoder and the caller. *)
Theorem analyze_returns_decoded
  (api_key : option str) (c : customer) (st : state W)
  (text : str) (more : list block) (w : W) (v : json) :
  create api_key (create_args (render_prompt c)) (world st)
    = (Ok (TextBlock text :: more), w) ->
  json_loads (strip_fences text) = Ok v ->
  fst (analyze_customer_with_ai create json_loads api_key c st) = v
  /\ screen (snd (analyze_customer_with_ai create json_loads api_key c st))
     = screen st.
Proof.
  intros Hc Hv. rewrite analyze_unfold, Hc. cbn [decoded rbind first_text].
  rewrite Hv. split; reflexivity.
Qed.

(** C3 (as the code has it).  An analysis is [None] exactly when the call
    raises, the reply has no text block at its head, the stripped text does
    not decode, or the text decodes to [null].  In the first three cases the
    generic error is written once; in every other case nothing is written.
    No exception leaves the analysis. *)
Theorem analyze_none_iff
  (api_key : option str) (c : customer) (st : state W) :
  let reply := fst (create api_key (create_args (render_prompt c)) (world st)) in
  let out := analyze_customer_with_ai create json_loads api_key c st in
  (is_none (fst out) = true <->
     (exists e, reply = Raise e)
     \/ (exists content e, reply = Ok content /\ first_text content = Raise e)
     \/ (exists content text e,
           reply = Ok content /\ first_text content = Ok text
           /\ json_loads (strip_fences text) = Raise e)
     \/ (exists content text,
           reply = Ok content /\ first_text content = Ok text
           /\ json_loads (strip_fences text) = Ok JNull))
  /\ (forall e, decoded json_loads reply = Raise e ->
        fst out = JNull /\ screen (snd out) = screen st ++ [generic_error e])
  /\ (forall v, decoded json_loads reply = Ok v ->
        fst out = v /\ screen (snd out) = screen st).
Proof.
  cbv zeta. rewrite analyze_unfold.
  destruct (create api_key (create_args (render_prompt c)) (world st))
    as [reply w].
  cbn [fst]. split; [|split].
  - unfold decoded. destruct reply as [content | e]; cbn [rbind].
    + destruct (first_text content) as [text | e] eqn:Ef; cbn [rbind].
      * destruct (json_loads (strip_fences text)) as [v | e] eqn:Ev; cbn [fst].
        -- split.
           ++ intros Hn. destruct v; try discriminate Hn.
              right; right; right. now exists content, text.
           ++ intros [[e He] | [[k [e [Hk He]]] | [[k [t [e [Hk [Ht He]]]]]
                                                 | [k [t [Hk [Ht He]]]]]]];
                try discriminate.
              ** injection Hk as <-. congruence.
              ** injection Hk as <-. congruence.
              ** injection Hk as <-. rewrite Ef in Ht. injection Ht as <-.
                 rewrite Ev in He. injection He as ->. reflexivity.
        -- split; [intros _ | reflexivity].
           right; right; left. now exists content, text, e.
      * split; [intros _ | reflexivity].
        right; left. now exists content, e.
    + split; [intros _ | reflexivity]. left. now exists e.
  - intros e He. rewrite He. split; reflexivity.
  - intros v Hv. rewrite Hv. split; reflexivity.
Qed.

(** C7 (as the code has it).  When the call raises, for want of a
    credential or for any other reason, the analysis writes the generic
    error with the text of the exception and returns [None]; the call is
    still logged.  The handler is the same for every exception. *)
Theorem analyze_call_raises
  (api_key : option str) (c : customer) (st : state W) (e : exn) (w : W) :
  create api_key (create_args (render_prompt c)) (world st) = (Raise e, w) ->
  analyze_customer_with_ai create json_loads api_key c st
  = (JNull,
     {| world := w;
        sent := sent st ++ [create_args (render_prompt c)];
        screen := screen st
                  ++ [st_error (u "Error en análisis AI: " ++ exn_str e)] |}).
Proof. intros Hc. rewrite analyze_unfold, Hc. reflexivity. Qed.

End AnalysisClient.

(** ** The batch loop *)

Section Batch.

Variable W : Type.
Variable create : option str -> request -> W -> result (list block) * W.
Variable json_loads : str -> result json.

Lemma skipn_nth (A : Type) (l : list A) (i : nat) :
  i < List.length l ->
  exists c, nth_error l i = Some c /\ skipn i l = c :: skipn (S i) l.
Proof.
  revert i; induction l as [|x l IH]; intros i Hi; [simpl in Hi; lia|].
  destruct i as [|i].
  - now exists x.
  - destruct (IH i) as [c [H1 H2]]; [simpl in Hi; lia|]. now exists c.
Qed.

Lemma usable_cases (a : json) :
  usable a ->
  a = JNull
  \/ exists h r, truthy a = true
                 /\ getitem a (u "health_score") = Ok h
                 /\ getitem a (u "churn_risk") = Ok r.
Proof.
  intros [-> | [d [h [r [-> [Hh Hr]]]]]]; [now left | right].
  exists h, r. cbn [getitem truthy]. rewrite Hh, Hr.
  destruct d; [discriminate Hh | repeat split].
Qed.

(** The loop over the indices [i], ..., [i + n - 1]. *)
Lemma batch_loop_spec (api_key : option str) (df : list customer) (num : nat)
  (n : nat) :
  forall (i : nat) (results : list result_row) (st : state W),
  i + n <= List.length df ->
  Forall (fun ca => usable (snd ca))
    (answers create json_loads api_key (firstn n (skipn i df)) (world st)) ->
  exists rows st',
    batch_loop create json_loads api_key df num (seq i n) results st
    = (Ok (results ++ rows), st')
    /\ Forall2 row_of
         (filter succeeded
            (answers create json_loads api_key (firstn n (skipn i df))
               (world st)))
         rows
    /\ sent st'
       = sent st ++ map (fun c => create_args (render_prompt c))
                        (firstn n (skipn i df))
    /\ world st'
       = last_world create json_loads api_key (firstn n (skipn i df))
           (world st).
Proof.
  induction n as [|n IH]; intros i results st Hlen Hus.
  - exists [], st. cbn. rewrite !app_nil_r. repeat split. constructor.
  - destruct (skipn_nth _ df i ltac:(lia)) as [c [Hnth Hskip]].
    rewrite Hskip in *. rewrite firstn_cons in *.
    cbn [answers last_world map] in *.
    inversion Hus as [|x l Hc Hrest]; subst x l. cbn [snd] in Hc.
    cbn [seq batch_loop]. unfold iloc. rewrite Hnth.
    rewrite analyze_frame. cbn [show world sent screen].
    destruct (usable_cases _ Hc) as [Ha | [h [r [Ht [Hh Hr]]]]].
    + rewrite Ha. cbn [truthy].
      edestruct (IH (S i) results) as [rows [st' [H1 [H2 [H3 H4]]]]];
        [lia | | rewrite H1].
      { cbn [show world]. exact Hrest. }
      exists rows, st'. cbn [show world sent] in *.
      split; [reflexivity|]. split; [exact H2|].
      split; [rewrite H3, <- app_assoc; reflexivity | exact H4].
    + rewrite Ht. unfold result_of. rewrite Hh, Hr. cbn [rbind].
      set (row := {| Cliente := name c; Health_Score := h; Riesgo := r;
                     Revenue := total_revenue c;
                     Dias_sin_actividad := days_since_last_activity c;
                     Tickets_abiertos := open_tickets c |}).
      edestruct (IH (S i) (results ++ [row])) as [rows [st' [H1 [H2 [H3 H4]]]]];
        [lia | | rewrite H1].
      { cbn [show world]. exact Hrest. }
      exists (row :: rows), st'. cbn [show world sent] in *.
      split; [now rewrite <- app_assoc|].
      split; [|split; [rewrite H3, <- app_assoc; reflexivity | exact H4]].
      cbn [filter]. unfold succeeded at 1. cbn [snd].
      assert (is_none (answer create json_loads api_key c (world st)) = false)
        as ->.
      { destruct (answer create json_loads api_key c (world st));
          try reflexivity; discriminate Ht. }
      cbn [negb]. constructor; [|exact H2].
      unfold row_of. repeat split; assumption.
Qed.

Lemma Qsum_inject_from (zs : list Z) (a : Z) :
  fold_left Qplus (map inject_Z zs) (inject_Z a)
  = inject_Z (fold_left Z.add zs a).
Proof.
  revert a; induction zs as [|z zs IH]; intros a; [reflexivity|].
  cbn [map fold_left]. rewrite <- inject_Z_plus. apply IH.
Qed.

Lemma score_values_ints (zs : list Z) :
  score_values (map JInt zs) = Ok (map inject_Z zs).
Proof.
  induction zs as [|z zs IH]; [reflexivity|].
  cbn [map score_values score_value rbind]. now rewrite IH.
Qed.

(** The mean of integer scores: their sum over their number. *)
Lemma mean_ints (zs : list Z) :
  zs <> [] ->
  mean (map JInt zs)
  = Ok (Some (Qred (inject_Z (Zsum zs)
                    / inject_Z (Z.of_nat (List.length zs)))%Q)).
Proof.
  intros Hne. unfold mean. rewrite score_values_ints. cbn [rbind].
  assert (existsb is_infinite (map JInt zs) = false) as ->.
  { clear Hne. induction zs as [|z zs IH]; [reflexivity | exact IH]. }
  destruct zs as [|z zs]; [congruence|].
  change (map inject_Z (z :: zs)) with (inject_Z z :: map inject_Z zs).
  cbv iota. unfold Qsum, Zsum.
  change (inject_Z z :: map inject_Z zs) with (map inject_Z (z :: zs)).
  change 0%Q with (inject_Z 0).
  now rewrite Qsum_inject_from, length_map.
Qed.

(** With a row in the table, every global metric is defined. *)
Lemma global_metrics_defined (rows : list result_row) (zs : list Z) :
  rows <> [] -> map Health_Score rows = map JInt zs ->
  exists m, global_metrics rows = Ok m
            /\ avg_health m
               = Some (Qred (inject_Z (Zsum zs)
                             / inject_Z (Z.of_nat (List.length rows)))%Q)
            /\ high_risk m = List.length (filter is_high rows).
Proof.
  intros Hne Hz. unfold global_metrics, column, make_frame.
  destruct rows as [|r0 rows]; [congruence|]. set (l := r0 :: rows) in *.
  cbn [columns App.rows]. 
  replace (existsb (eqb (u "Health Score")) result_columns) with true
    by (vm_compute; reflexivity).
  replace (existsb (eqb (u "Riesgo")) result_columns) with true
    by (vm_compute; reflexivity).
  replace (existsb (eqb (u "Revenue")) result_columns) with true
    by (vm_compute; reflexivity).
  cbn [rbind]. rewrite Hz, mean_ints.
  - cbn [rbind true_div]. unfold l at 2. cbn [List.length true_div rbind].
    eexists. split; [reflexivity|]. cbn [avg_health high_risk].
    split; [|reflexivity].
    apply (f_equal (@List.length _)) in Hz. rewrite !length_map in Hz.
    now rewrite Hz.
  - intros E. subst zs. discriminate Hz.
Qed.

Lemma truthy_falsy (a : json) : truthy a = negb (falsy a).
Proof.
  destruct a as [| [|] | [| |] | [q | |] | [|c s] | [|v l] | [|kv d]];
    try reflexivity.
  cbn [truthy falsy]. unfold Qeq_bool. cbn [Qnum Qden].
  rewrite Z.mul_1_r. destruct (Qnum q); reflexivity.
Qed.

Lemma keyed_cases (a : json) :
  keyed a ->
  exists d h r,
    a = JObj d /\ falsy a = false
    /\ dict_get (u "health_score") d = Some h
    /\ dict_get (u "churn_risk") d = Some r
    /\ getitem a (u "health_score") = Ok h
    /\ getitem a (u "churn_risk") = Ok r.
Proof.
  intros [d [h [r [-> [Hh Hr]]]]]. exists d, h, r.
  cbn [getitem]. rewrite Hh, Hr.
  destruct d; [discriminate Hh | repeat split].
Qed.

(** The loop over the indices [i], ..., [i + n - 1], in terms of the
    endpoint's replies, when every reply has a value Python takes for false
    or one with the two keys. *)
Lemma batch_loop_outcomes (api_key : option str) (df : list customer)
  (num : nat) (n : nat) :
  forall (i : nat) (results : list result_row) (st : state W),
  i + n <= List.length df ->
  Forall (fun ca => falsy (snd ca) = true \/ keyed (snd ca))
    (outcomes create json_loads api_key (firstn n (skipn i df)) (world st)) ->
  exists rows st',
    batch_loop create json_loads api_key df num (seq i n) results st
    = (Ok (results ++ rows), st')
    /\ world st' = served create api_key (firstn n (skipn i df)) (world st)
    /\ sent st' = sent st ++ map request_for (firstn n (skipn i df))
    /\ Forall2 table_row
         (filter passes
            (outcomes create json_loads api_key (firstn n (skipn i df))
               (world st)))
         rows.
Proof.
  induction n as [|n IH]; intros i results st Hlen Hus.
  - exists [], st. cbn. rewrite !app_nil_r. repeat split. constructor.
  - destruct (skipn_nth _ df i ltac:(lia)) as [c [Hnth Hskip]].
    rewrite Hskip in *. rewrite firstn_cons in *.
    cbn [outcomes served map] in *.
    inversion Hus as [|x l Hc Hrest]; subst x l. cbn [snd] in Hc.
    cbn [seq batch_loop]. unfold iloc. rewrite Hnth.
    set (st1 := show _ st).
    destruct (analyze_run W create json_loads api_key c st1) as [R1 [R2 R3]].
    destruct (analyze_customer_with_ai create json_loads api_key c st1)
      as [a st2]. cbn [fst snd] in R1, R2, R3.
    change (world st1) with (world st) in R1, R2.
    change (sent st1) with (sent st) in R3.
    set (w' := snd (create api_key (request_for c) (world st))) in *.
    rewrite <- R1 in *. rewrite truthy_falsy.
    destruct Hc as [Hf | Hk].
    + rewrite Hf. cbn [negb].
      edestruct (IH (S i) results
                   (show (progress (i + 1) num) st2))
        as [rows [st' [H1 [H2 [H3 H4]]]]]; [lia | | rewrite H1].
      { cbn [show world]. rewrite R2. exact Hrest. }
      exists rows, st'. cbn [show world sent] in *.
      split; [reflexivity|].
      split; [rewrite H2, R2; reflexivity|].
      split; [rewrite H3, R3, <- app_assoc; reflexivity|].
      cbn [filter]. unfold passes at 1. cbn [snd]. rewrite Hf. cbn [negb].
      rewrite <- R2. exact H4.
    + destruct (keyed_cases _ Hk) as [d [h [r [Ea [Hf [Dh [Dr [Gh Gr]]]]]]]].
      rewrite Hf. cbn [negb]. unfold result_of. rewrite Gh, Gr. cbn [rbind].
      set (row := {| Cliente := name c; Health_Score := h; Riesgo := r;
                     Revenue := total_revenue c;
                     Dias_sin_actividad := days_since_last_activity c;
                     Tickets_abiertos := open_tickets c |}).
      edestruct (IH (S i) (results ++ [row])
                   (show (progress (i + 1) num) st2))
        as [rows [st' [H1 [H2 [H3 H4]]]]]; [lia | | rewrite H1].
      { cbn [show world]. rewrite R2. exact Hrest. }
      exists (row :: rows), st'. cbn [show world sent] in *.
      split; [now rewrite <- app_assoc|].
      split; [rewrite H2, R2; reflexivity|].
      split; [rewrite H3, R3, <- app_assoc; reflexivity|].
      cbn [filter]. unfold passes at 1. cbn [snd]. rewrite Hf. cbn [negb].
      rewrite <- R2. constructor; [|exact H4].
      unfold table_row. cbn [fst snd].
      split; [exists d; repeat split; assumption | repeat split].
Qed.

(** C6 (as the code has it).  For a batch of [num_customers] records, at
    most the size of the table, in which every reply has a value that
    Python takes for false or an object with the two keys the table reads:
    the loop applies the endpoint once to the request of each of the first
    [num_customers] records, in order, each call in the world the call
    before left; it passes over exactly the records whose analysis is
    false in a test ([None], but also an empty object or a zero); the table
    has one row for each of the other records, in order, holding the name,
    the score and the risk found under the two keys, the revenue, the days
    without activity and the open tickets; and, when the table has a row
    and the scores are integers, the mean health score is the sum of the
    scores of the table over the number of its rows. *)
Theorem batch_analysis_spec (api_key : option str) (df : list customer)
  (num_customers : nat) (st : state W) :
  num_customers <= List.length df ->
  Forall (fun ca => falsy (snd ca) = true \/ keyed (snd ca))
    (outcomes create json_loads api_key (firstn num_customers df) (world st)) ->
  exists rows st',
    batch_loop create json_loads api_key df num_customers
      (seq 0 num_customers) [] st = (Ok rows, st')
    /\ world st' = served create api_key (firstn num_customers df) (world st)
    /\ sent st' = sent st ++ map request_for (firstn num_customers df)
    /\ Forall2 table_row
         (filter passes
            (outcomes create json_loads api_key (firstn num_customers df)
               (world st)))
         rows
    /\ (forall zs, rows <> [] -> map Health_Score rows = map JInt zs ->
        exists m,
          fst (batch_analysis create json_loads api_key df num_customers st)
          = Ok (make_frame rows, m)
          /\ columns (make_frame rows) = result_columns
          /\ avg_health m
             = Some (Qred (inject_Z (Zsum zs)
                           / inject_Z (Z.of_nat (List.length rows)))%Q)).
Proof.
  intros Hlen Hus.
  destruct (batch_loop_outcomes api_key df num_customers num_customers 0 [] st)
    as [rows [st' [H1 [H2 [H3 H4]]]]]; [lia | exact Hus |].
  cbn [skipn app] in *. exists rows, st'.
  split; [exact H1|]. split; [exact H2|]. split; [exact H3|].
  split; [exact H4|].
  intros zs Hne Hz.
  destruct (global_metrics_defined rows zs Hne Hz) as [m [Hm [Ha _]]].
  exists m. unfold batch_analysis. rewrite H1, Hm. cbn [rbind fst].
  repeat split; [|exact Ha].
  destruct rows; [congruence | reflexivity].
Qed.

End Batch.

Lemma no_success (l : list (customer * json)) :
  Forall (fun ca => snd ca = JNull) l -> filter succeeded l = [].
Proof.
  induction 1 as [|[c a] l Ha _ IH]; [reflexivity|].
  cbn [filter succeeded snd] in *. rewrite Ha. exact IH.
Qed.

(** C1 fails on the code.  When every analysis of the batch is the error
    value, [results] is empty, the frame built from it has no column, and
    reading the column of the scores raises [KeyError]: the run stops
    there, before any division, with no metric shown. *)
Theorem batch_of_failures_raises
  (W : Type) (create : option str -> request -> W -> result (list block) * W)
  (json_loads : str -> result json)
  (api_key : option str) (df : list customer) (num_customers : nat)
  (st : state W) :
  num_customers <= List.length df ->
  Forall (fun ca => snd ca = JNull)
    (answers create json_loads api_key (firstn num_customers df) (world st)) ->
  fst (batch_analysis create json_loads api_key df num_customers st)
  = Raise (Exc KeyError (u "'Health Score'")).
Proof.
  intros Hlen Hnone.
  destruct (batch_loop_spec W create json_loads api_key df num_customers
              num_customers 0 [] st) as [rows [st' [H1 [H2 _]]]]; [lia | |].
  { eapply Forall_impl; [|exact Hnone]. intros ca Hca. now left. }
  cbn [skipn app] in *.
  rewrite (no_success _ Hnone) in H2. inversion H2; subst rows.
  unfold batch_analysis. rewrite H1. reflexivity.
Qed.

(** No input makes the global metrics raise a division error: the frame of
    an empty batch fails earlier, and any other batch has a row to divide
    by. *)
Lemma global_metrics_no_division_error (results : list result_row) :
  raises ZeroDivisionError (global_metrics results) = false.
Proof.
  destruct results as [|r0 rows]; [reflexivity|].
  unfold global_metrics, column, make_frame. cbn [columns App.rows].
  replace (existsb (eqb (u "Health Score")) result_columns) with true
    by (vm_compute; reflexivity).
  replace (existsb (eqb (u "Riesgo")) result_columns) with true
    by (vm_compute; reflexivity).
  replace (existsb (eqb (u "Revenue")) result_columns) with true
    by (vm_compute; reflexivity).
  cbn [rbind List.length true_div].
  destruct (mean (map Health_Score (r0 :: rows))) as [avg | e] eqn:E;
    [reflexivity|].
  cbn [rbind]. unfold mean in E.
  assert (forall l e', score_values l = Raise e' -> exn_kind_of e' = TypeError)
    as Hty.
  { induction l as [|v l IH]; intros e' He'; [discriminate He'|].
    cbn [score_values] in He'.
    destruct (score_value v) as [x | e1] eqn:Ev; cbn [rbind] in He'.
    - destruct (score_values l) as [xs | e2]; cbn [rbind] in He';
        [discriminate He' | injection He' as <-; now apply IH].
    - injection He' as <-.
      destruct v as [| | | [| |] | | |]; cbn in Ev; try discriminate Ev;
        injection Ev as <-; reflexivity. }
  destruct (score_values (map Health_Score (r0 :: rows))) as [xs | e2] eqn:E2;
    cbn [rbind] in E.
  - destruct (existsb is_infinite (map Health_Score (r0 :: rows)));
      [discriminate E | destruct xs; discriminate E].
  - injection E as <-. cbn [raises]. now rewrite (Hty _ _ E2).
Qed.

(** ** The controls *)

Lemma eqb_eq (a b : str) : eqb a b = true <-> a = b.
Proof.
  revert b; induction a as [|x a IH]; intros [|y b]; simpl;
    try (split; [discriminate | discriminate]); [tauto|].
  rewrite andb_true_iff, N.eqb_eq, IH. split.
  - now intros [-> ->].
  - intros E. injection E as -> ->. now split.
Qed.

(** C10.  The lookup by name succeeds for every name of the table, and the
    record it gives is the first row of that name, in the order of the
    file. *)
Theorem lookup_by_name_first (df : list customer) (selected : str) :
  In selected (map name df) ->
  exists before c after,
    df = before ++ c :: after
    /\ name c = selected
    /\ Forall (fun x => name x <> selected) before
    /\ lookup_by_name df selected = Ok c.
Proof.
  unfold lookup_by_name. induction df as [|x df IH]; [contradiction|].
  intros Hin. cbn [filter]. destruct (eqb (name x) selected) eqn:E.
  - apply eqb_eq in E. exists [], x, df. repeat split; [exact E | constructor].
  - assert (name x <> selected) as Hx.
    { intros Hx. apply eqb_eq in Hx. congruence. }
    destruct Hin as [Hin | Hin]; [contradiction|].
    destruct (IH Hin) as [before [c [after [H1 [H2 [H3 H4]]]]]].
    exists (x :: before), c, after.
    split; [now rewrite H1|]. split; [exact H2|].
    split; [now constructor | exact H4].
Qed.

Lemma lookup_by_name_first_witness :
  In (u "Acme Corp")
    (map name [Sample.globex; Sample.acme; Sample.initech; Sample.acme_again])
  /\ exists before c after,
       [Sample.globex; Sample.acme; Sample.initech; Sample.acme_again]
       = before ++ c :: after
       /\ name c = u "Acme Corp"
       /\ Forall (fun x => name x <> u "Acme Corp") before
       /\ lookup_by_name
            [Sample.globex; Sample.acme; Sample.initech; Sample.acme_again]
            (u "Acme Corp") = Ok c.
Proof.
  assert (In (u "Acme Corp")
            (map name [Sample.globex; Sample.acme; Sample.initech;
                       Sample.acme_again])) as Hin.
  { right. left. reflexivity. }
  split; [exact Hin | exact (lookup_by_name_first _ _ Hin)].
Defined.

(** The arguments the second tab passes to [st.slider]: a lower bound of
    3, the size of the table as upper bound, and the lesser of 5 and that
    size as the value to start from; so the lower bound is above the upper
    one exactly for a table of fewer than three rows. *)
Lemma batch_slider_arguments (df : list customer) :
  min_value (batch_slider df) = 3%Z
  /\ max_value (batch_slider df) = Z.of_nat (List.length df)
  /\ value (batch_slider df) = Z.min 5 (Z.of_nat (List.length df))
  /\ ((max_value (batch_slider df) < min_value (batch_slider df))%Z
      <-> List.length df < 3).
Proof.
  cbn [batch_slider min_value max_value value].
  repeat split; lia.
Qed.

(** ** The properties on sample runs *)

Import Sample.

(** Runs of the model are evaluated, not unfolded. *)
Ltac run := vm_compute; reflexivity.

Ltac evaluate_list :=
  match goal with
  | |- Forall _ ?l =>
      let l' := eval vm_compute in l in
      replace l with l' by run
  end.

Ltac usable_row :=
  first [ left; reflexivity
        | right; do 3 eexists; split; [reflexivity | split; run] ].

Lemma analyze_returns_decoded_witness :
  scripted key (create_args (render_prompt acme))
    (world (start [out_of_contract]))
  = (Ok [TextBlock (uq "{'health_score':250,'churn_risk':'extreme','analysis':'?','recommendations':['A','B','C','D']}")], [])
  /\ loads (strip_fences (uq "{'health_score':250,'churn_risk':'extreme','analysis':'?','recommendations':['A','B','C','D']}"))
     = Ok (JObj [(u "health_score", JInt 250);
                 (u "churn_risk", JStr (u "extreme"));
                 (u "analysis", JStr (u "?"));
                 (u "recommendations",
                  JArr [JStr (u "A"); JStr (u "B"); JStr (u "C"); JStr (u "D")])])
  /\ fst (analyze_customer_with_ai scripted loads key acme
            (start [out_of_contract]))
     = JObj [(u "health_score", JInt 250);
             (u "churn_risk", JStr (u "extreme"));
             (u "analysis", JStr (u "?"));
             (u "recommendations",
              JArr [JStr (u "A"); JStr (u "B"); JStr (u "C"); JStr (u "D")])]
  /\ screen (snd (analyze_customer_with_ai scripted loads key acme
                    (start [out_of_contract])))
     = [].
Proof.
  assert (scripted key (create_args (render_prompt acme))
            (world (start [out_of_contract]))
          = (Ok [TextBlock (uq "{'health_score':250,'churn_risk':'extreme','analysis':'?','recommendations':['A','B','C','D']}")], []))
    as Hc by run.
  assert (loads (strip_fences (uq "{'health_score':250,'churn_risk':'extreme','analysis':'?','recommendations':['A','B','C','D']}"))
          = Ok (JObj [(u "health_score", JInt 250);
                      (u "churn_risk", JStr (u "extreme"));
                      (u "analysis", JStr (u "?"));
                      (u "recommendations",
                       JArr [JStr (u "A"); JStr (u "B"); JStr (u "C");
                             JStr (u "D")])]))
    as Hv by run.
  split; [exact Hc|]. split; [exact Hv|].
  exact (analyze_returns_decoded script scripted loads key acme
           (start [out_of_contract]) _ _ _ _ Hc Hv).
Defined.

Lemma analyze_none_iff_witness :
  decoded loads
    (fst (scripted key (create_args (render_prompt acme))
            (world (start [network_down]))))
  = Raise (Exc APIError (u "Connection error."))
  /\ fst (analyze_customer_with_ai scripted loads key acme
            (start [network_down])) = JNull
  /\ screen (snd (analyze_customer_with_ai scripted loads key acme
                    (start [network_down])))
     = screen (start [network_down])
       ++ [generic_error (Exc APIError (u "Connection error."))].
Proof.
  assert (decoded loads
            (fst (scripted key (create_args (render_prompt acme))
                    (world (start [network_down]))))
          = Raise (Exc APIError (u "Connection error."))) as Hd by run.
  split; [exact Hd|].
  exact (proj1 (proj2 (analyze_none_iff script scripted loads key acme
                         (start [network_down]))) _ Hd).
Defined.

(** C3, as stated, fails: a reply that decodes but lacks the keys
    [churn_risk], [analysis] and [recommendations] is not turned into the
    error value.  The analysis returns the decoded object and writes no
    error; the first tab and the batch loop then raise [KeyError] when they
    read the missing key. *)
Lemma missing_key_is_not_an_error :
  analyze_customer_with_ai scripted loads key acme (start [score_only])
  = (JObj [(u "health_score", JInt 82)],
     {| world := [];
        sent := [create_args (render_prompt acme)];
        screen := [] |})
  /\ fst (single_analysis scripted loads key [acme] (u "Acme Corp")
            (start [score_only]))
     = Raise (Exc KeyError (u "'churn_risk'"))
  /\ fst (batch_analysis scripted loads key three 3
            (start [stable; score_only; at_risk]))
     = Raise (Exc KeyError (u "'churn_risk'")).
Proof. split; [run | split; run]. Qed.

Lemma analyze_call_raises_witness :
  scripted None (create_args (render_prompt acme)) (world (start []))
  = (Raise (Exc TypeError (u "Could not resolve authentication method.")), [])
  /\ analyze_customer_with_ai scripted loads None acme (start [])
     = (JNull,
        {| world := [];
           sent := sent (start []) ++ [create_args (render_prompt acme)];
           screen :=
             screen (start [])
             ++ [st_error
                   (u "Error en análisis AI: "
                      ++ exn_str
                           (Exc TypeError
                              (u "Could not resolve authentication method.")))]
        |}).
Proof.
  assert (scripted None (create_args (render_prompt acme)) (world (start []))
          = (Raise (Exc TypeError
                      (u "Could not resolve authentication method.")), []))
    as Hc by run.
  split; [exact Hc|].
  exact (analyze_call_raises script scripted loads None acme (start []) _ _ Hc).
Defined.

(** C7, as stated, fails: without a credential the analysis ends as it does
    when the network is down.  The value returned is the same [None], and
    the page gets the same generic error, with only the text of the
    exception to tell the two apart. *)
Lemma missing_credential_not_distinct :
  fst (analyze_customer_with_ai scripted loads None acme (start []))
  = fst (analyze_customer_with_ai scripted loads key acme
           (start [network_down]))
  /\ screen (snd (analyze_customer_with_ai scripted loads None acme (start [])))
     = [generic_error
          (Exc TypeError (u "Could not resolve authentication method."))]
  /\ screen (snd (analyze_customer_with_ai scripted loads key acme
                    (start [network_down])))
     = [generic_error (Exc APIError (u "Connection error."))].
Proof. split; [run | split; run]. Qed.

Lemma batch_analysis_spec_witness :
  3 <= List.length three
  /\ Forall (fun ca => falsy (snd ca) = true \/ keyed (snd ca))
       (outcomes scripted loads key (firstn 3 three)
          (world (start second_fails)))
  /\ exists rows st',
       batch_loop scripted loads key three 3 (seq 0 3) [] (start second_fails)
       = (Ok rows, st')
       /\ world st' = []
       /\ sent st' = map request_for [acme; globex; initech]
       /\ List.length rows = 2.
Proof.
  assert (3 <= List.length three) as Hlen by (simpl; lia).
  assert (Forall (fun ca => falsy (snd ca) = true \/ keyed (snd ca))
            (outcomes scripted loads key (firstn 3 three)
               (world (start second_fails)))) as Hus.
  { evaluate_list. repeat (constructor; [usable_row|]). constructor. }
  split; [exact Hlen|]. split; [exact Hus|].
  destruct (batch_analysis_spec script scripted loads key three 3
              (start second_fails) Hlen Hus)
    as [rows [st' [H1 [H2 [H3 [H4 _]]]]]].
  exists rows, st'. split; [exact H1|].
  split; [rewrite H2; run|]. split; [rewrite H3; run|].
  apply Forall2_length in H4. rewrite <- H4. run.
Defined.

(** C6 fails as it is worded.  With the three records answered by a good
    reply, an empty object and a good reply, no analysis is the error
    value and no error is written, yet the second record is passed over:
    the table has two rows for three analyses that succeeded.  And a reply
    that decodes to an object without the risk is not passed over either:
    it stops the batch with [KeyError]. *)
Lemma empty_reply_is_skipped :
  map (fun ca => is_none (snd ca))
    (outcomes scripted loads key three
       [stable; Replies.empty_object; at_risk])
  = [false; false; false]
  /\ map snd
       (answers scripted loads key three
          [stable; Replies.empty_object; at_risk])
     = map snd
         (outcomes scripted loads key three
            [stable; Replies.empty_object; at_risk])
  /\ page_errors
       (screen (snd (batch_loop scripted loads key three 3 (seq 0 3) []
                       (start [stable; Replies.empty_object; at_risk]))))
     = []
  /\ fst (batch_loop scripted loads key three 3 (seq 0 3) []
            (start [stable; Replies.empty_object; at_risk]))
     = Ok Replies.two_rows
  /\ fst (batch_loop scripted loads key three 3 (seq 0 3) []
            (start [stable; score_only; at_risk]))
     = Raise (Exc KeyError (u "'churn_risk'")).
Proof.
  split; [run|]. split; [run|]. split; [run|]. split; run.
Qed.

(** Scenario 3 of the specification, run: of three records the second
    fails; the table has the two others, and the mean of 82 and 64 is
    73. *)
Example scenario_3 :
  exists frame m,
    fst (batch_analysis scripted loads key three 3 (start second_fails))
    = Ok (frame, m)
    /\ map Cliente (rows frame) = [u "Acme Corp"; u "Initech"]
    /\ map Health_Score (rows frame) = [JInt 82; JInt 64]
    /\ avg_health m = Some 73%Q
    /\ high_risk m = 1
    /\ high_risk_percent m = 50%Q.
Proof.
  do 2 eexists. split; [run|].
  split; [run | split; [run | split; [run | split; run]]].
Qed.

(** Scenario 1 of the specification, run. *)
Example scenario_1 :
  screen (snd (single_analysis scripted loads key [acme] (u "Acme Corp")
                 (start [stable])))
  = [ markdown (u "### 🎯 Análisis de IA");
      gauge (JInt 82);
      markdown (u "### Riesgo de Churn: 🟢 BAJO");
      markdown (u "#### 📝 Análisis:");
      info (JStr (u "Stable."));
      markdown (u "#### 💡 Recomendaciones:");
      recommendation 1 (JStr (u "A"));
      recommendation 2 (JStr (u "B"));
      recommendation 3 (JStr (u "C"));
      st_json (JObj [(u "health_score", JInt 82);
                     (u "churn_risk", JStr (u "low"));
                     (u "analysis", JStr (u "Stable."));
                     (u "recommendations",
                      JArr [JStr (u "A"); JStr (u "B"); JStr (u "C")])]) ].
Proof. vm_compute. reflexivity. Qed.

(** Scenario 2 of the specification, run. *)
Example scenario_2 :
  single_analysis scripted loads key [acme] (u "Acme Corp")
    (start [network_down])
  = (Ok tt,
     {| world := [];
        sent := [create_args (render_prompt acme)];
        screen := [st_error (u "Error en análisis AI: Connection error.")] |}).
Proof. vm_compute. reflexivity. Qed.

(** A reply without the risk on the first tab: the title and the gauge are
    on the page when the tab raises. *)
Example missing_key_shows_gauge :
  single_analysis scripted loads key [acme] (u "Acme Corp")
    (start [score_only])
  = (Raise (Exc KeyError (u "'churn_risk'")),
     {| world := [];
        sent := [create_args (render_prompt acme)];
        screen := [markdown (u "### 🎯 Análisis de IA"); gauge (JInt 82)] |}).
Proof. vm_compute. reflexivity. Qed.

Lemma batch_of_failures_raises_witness :
  3 <= List.length three
  /\ Forall (fun ca => snd ca = JNull)
       (answers scripted loads key (firstn 3 three) (world (start [])))
  /\ fst (batch_analysis scripted loads key three 3 (start []))
     = Raise (Exc KeyError (u "'Health Score'")).
Proof.
  assert (3 <= List.length three) as Hlen by (simpl; lia).
  assert (Forall (fun ca => snd ca = JNull)
            (answers scripted loads key (firstn 3 three) (world (start []))))
    as Hnone by (evaluate_list; repeat constructor).
  split; [exact Hlen|]. split; [exact Hnone|].
  exact (batch_of_failures_raises script scripted loads key three 3 (start [])
           Hlen Hnone).
Defined.

(* ================================================================== *)
(** * Part III. Further properties of the code *)
(* ================================================================== *)

Import Card Shapes Replies.

(** ** The reply text after fence stripping *)

Lemma strip_head (s : str) (c : char) (t : str) :
  strip s = c :: t -> is_space c = false.
Proof.
  unfold strip. pose proof (lstrip_head s) as H.
  destruct (lstrip s) as [|c0 t0]; [discriminate|].
  rewrite (rstrip_cons c0 t0 H). intros E. injection E as <- _. exact H.
Qed.

Lemma rstrip_last (s : str) (c : char) (t : str) :
  rstrip s = t ++ [c] -> is_space c = false.
Proof.
  unfold rstrip. intros E. apply (f_equal (@rev char)) in E.
  rewrite rev_involutive, rev_app_distr in E. cbn [rev app] in E.
  pose proof (lstrip_head (rev s)) as H. rewrite E in H. exact H.
Qed.

(** Whatever the reply, the text handed to the decoder holds no fence
    marker, plain or tagged [json]. *)
Theorem strip_fences_leaves_no_marker (s : str) :
  contains (u "```") (strip_fences s) = false
  /\ contains (u "```json") (strip_fences s) = false.
Proof.
  pose proof (strip_fences_clean s) as H. split; [exact H|].
  exact (absent_longer _ _ _ fence_in_json_fence H).
Qed.

(** Whatever the reply, the text handed to the decoder neither starts nor
    ends with white space. *)
Theorem strip_fences_trimmed (s : str) :
  (forall c t, strip_fences s = c :: t -> is_space c = false)
  /\ (forall c t, strip_fences s = t ++ [c] -> is_space c = false).
Proof.
  rewrite strip_fences_unfold. split; intros c t E.
  - exact (strip_head _ c t E).
  - exact (rstrip_last _ c t E).
Qed.

Lemma subseq_refl (s : str) : subseq s s.
Proof. induction s; constructor; assumption. Qed.

Lemma subseq_trans (a b c : str) : subseq a b -> subseq b c -> subseq a c.
Proof.
  intros H1 H2. revert a H1. induction H2 as [|x b c H2 IH|x b c H2 IH];
    intros a H1.
  - exact H1.
  - inversion H1; subst.
    + constructor. now apply IH.
    + constructor. now apply IH.
  - constructor. now apply IH.
Qed.

Lemma subseq_suffix (a b : str) : subseq b (a ++ b).
Proof. induction a; [apply subseq_refl | now constructor]. Qed.

Lemma subseq_prefix (a b : str) : subseq a (a ++ b).
Proof.
  induction a as [|c a IH]; [|now constructor].
  induction b; constructor; assumption.
Qed.

Lemma subseq_replace_from (old : str) (s : str) :
  forall k, subseq (replace_from old [] k s) s.
Proof.
  induction s as [|c s IH]; intros k; [constructor|].
  cbn [replace_from]. destruct k as [|k].
  - destruct (starts_with old (c :: s)).
    + cbn [app]. constructor. apply IH.
    + constructor. apply IH.
  - constructor. apply IH.
Qed.

Lemma subseq_strip (s : str) : subseq (strip s) s.
Proof.
  destruct (strip_inside s) as [a [b E]]. rewrite E at 2.
  eapply subseq_trans; [apply subseq_prefix | apply subseq_suffix].
Qed.

(** Fence stripping only deletes: its result is the reply with some
    characters removed, the rest in their order; so it is never longer than
    the reply. *)
Theorem strip_fences_only_deletes (s : str) :
  subseq (strip_fences s) s
  /\ List.length (strip_fences s) <= List.length s.
Proof.
  assert (subseq (strip_fences s) s) as H.
  { rewrite strip_fences_unfold.
    eapply subseq_trans; [apply subseq_strip|].
    eapply subseq_trans; [apply subseq_replace_from|].
    apply subseq_replace_from. }
  split; [exact H|].
  clear - H. induction H; simpl; lia.
Qed.

(** ** One analysis *)

Section OneAnalysis.

Variable W : Type.
Variable create : option str -> request -> W -> result (list block) * W.
Variable json_loads : str -> result json.

(** A reply in a [json] fence is analysed as the same reply without the
    fence: the value returned is the same, and so is what is written. *)
Theorem analyze_fenced_as_bare
  (api_key : option str) (c : customer) (st1 st2 : state W)
  (inner : str) (more1 more2 : list block) (w1 w2 : W) :
  contains (u "```") inner = false ->
  create api_key (create_args (render_prompt c)) (world st1)
    = (Ok (TextBlock (u "```json" ++ inner ++ u "```") :: more1), w1) ->
  create api_key (create_args (render_prompt c)) (world st2)
    = (Ok (TextBlock inner :: more2), w2) ->
  fst (analyze_customer_with_ai create json_loads api_key c st1)
  = fst (analyze_customer_with_ai create json_loads api_key c st2)
  /\ exists written,
       screen (snd (analyze_customer_with_ai create json_loads api_key c st1))
       = screen st1 ++ written
       /\ screen (snd (analyze_customer_with_ai create json_loads api_key c
                         st2))
          = screen st2 ++ written.
Proof.
  intros Hin H1 H2. rewrite !analyze_unfold, H1, H2.
  cbn [decoded rbind first_text].
  change (u "```json") with json_fence. change (u "```") with fence in *.
  rewrite (strip_fences_wrapped inner Hin), (strip_fences_absent inner Hin).
  destruct (json_loads (strip inner)) as [v | e]; cbn [fst snd screen show].
  - split; [reflexivity|]. exists []. now rewrite !app_nil_r.
  - split; [reflexivity|]. now exists [generic_error e].
Qed.

(** Only the first block of a reply is read: blocks after it change
    nothing. *)
Theorem analyze_reads_first_block
  (create' : option str -> request -> W -> result (list block) * W)
  (api_key : option str) (c : customer) (st : state W)
  (b : block) (more : list block) (w : W) :
  create api_key (create_args (render_prompt c)) (world st)
    = (Ok (b :: more), w) ->
  create' api_key (create_args (render_prompt c)) (world st) = (Ok [b], w) ->
  analyze_customer_with_ai create json_loads api_key c st
  = analyze_customer_with_ai create' json_loads api_key c st.
Proof.
  intros H1 H2. rewrite !analyze_unfold, H1, H2.
  destruct b; reflexivity.
Qed.

(** A reply with no block, or whose first block is not text, ends as a
    failed call does: [None], and the generic error with the text of the
    [IndexError] or [AttributeError]. *)
Theorem analyze_reply_without_text
  (api_key : option str) (c : customer) (st : state W)
  (content : list block) (w : W) :
  create api_key (create_args (render_prompt c)) (world st) = (Ok content, w) ->
  content = [] \/ (exists more, content = OtherBlock :: more) ->
  exists e,
    (exn_kind_of e = IndexError \/ exn_kind_of e = AttributeError)
    /\ (content = [] -> e = Exc IndexError (u "list index out of range"))
    /\ analyze_customer_with_ai create json_loads api_key c st
       = (JNull,
          {| world := w;
             sent := sent st ++ [create_args (render_prompt c)];
             screen := screen st ++ [generic_error e] |}).
Proof.
  intros Hc [-> | [more ->]]; rewrite analyze_unfold, Hc.
  - exists (Exc IndexError (u "list index out of range")).
    split; [now left|]. split; reflexivity.
  - exists (Exc AttributeError (u "object has no attribute 'text'")).
    split; [now right|]. split; [discriminate | reflexivity].
Qed.

(** An analysis keeps no state of its own: what it returns and what it
    leaves of the world depend on the world alone, not on the calls logged
    or the widgets written before; it adds one call to the log and at most
    one widget to the page. *)
Theorem analyze_is_stateless
  (api_key : option str) (c : customer) (st1 st2 : state W) :
  world st1 = world st2 ->
  fst (analyze_customer_with_ai create json_loads api_key c st1)
  = fst (analyze_customer_with_ai create json_loads api_key c st2)
  /\ world (snd (analyze_customer_with_ai create json_loads api_key c st1))
     = world (snd (analyze_customer_with_ai create json_loads api_key c st2))
  /\ exists written,
       List.length written <= 1
       /\ screen (snd (analyze_customer_with_ai create json_loads api_key c
                         st1))
          = screen st1 ++ written
       /\ screen (snd (analyze_customer_with_ai create json_loads api_key c
                         st2))
          = screen st2 ++ written.
Proof.
  intros Hw. rewrite !analyze_unfold, Hw.
  destruct (create api_key (create_args (render_prompt c)) (world st2))
    as [reply w].
  destruct (decoded json_loads reply) as [v | e]; cbn [fst snd world screen show].
  - split; [reflexivity|]. split; [reflexivity|].
    exists []. rewrite !app_nil_r. repeat split. simpl. lia.
  - split; [reflexivity|]. split; [reflexivity|].
    exists [generic_error e]. repeat split. simpl. lia.
Qed.

(** Nothing is cached: analysing the same record twice applies the
    endpoint twice to the same request, the second time in the world the
    first call left, and the second answer is the value of the reply to
    that second call; an endpoint that keeps a log of its own has got two
    calls more. *)
Theorem analyze_twice_calls_twice
  (api_key : option str) (c : customer) (st : state W) :
  let req := {| model := u "claude-sonnet-4-20250514";
                max_tokens := 1000;
                messages := [(u "user", render_prompt c)] |} in
  let first := analyze_customer_with_ai create json_loads api_key c st in
  let second :=
    analyze_customer_with_ai create json_loads api_key c (snd first) in
  let w1 := snd (create api_key req (world st)) in
  fst second = value_of_reply json_loads (fst (create api_key req w1))
  /\ world (snd second) = snd (create api_key req w1)
  /\ sent (snd second) = sent st ++ [req; req]
  /\ forall (calls : list (option str * request)) (log : list request)
       (page : list widget),
       snd (world
              (snd (analyze_customer_with_ai (recording create) json_loads
                      api_key c
                      (snd (analyze_customer_with_ai (recording create)
                              json_loads api_key c
                              {| world := (world st, calls); sent := log;
                                 screen := page |})))))
       = calls ++ [(api_key, req); (api_key, req)].
Proof.
  cbv zeta.
  destruct (analyze_run W create json_loads api_key c st) as [_ [H2 H3]].
  destruct (analyze_run W create json_loads api_key c
              (snd (analyze_customer_with_ai create json_loads api_key c st)))
    as [K1 [K2 K3]].
  rewrite H2 in K1, K2. rewrite H3 in K3.
  split; [exact K1|]. split; [exact K2|].
  split; [rewrite K3, <- app_assoc; reflexivity|].
  intros calls log page.
  set (st0 := {| world := (world st, calls); sent := log; screen := page |}).
  destruct (analyze_run _ (recording create) json_loads api_key c st0)
    as [_ [L2 _]].
  destruct (analyze_run _ (recording create) json_loads api_key c
              (snd (analyze_customer_with_ai (recording create) json_loads
                      api_key c st0)))
    as [_ [M2 _]].
  rewrite M2, L2. cbn [recording snd fst st0 world]. rewrite <- app_assoc.
  reflexivity.
Qed.

(** On the first tab, a record whose call fails gets the generic error and
    no result widget, and the tab itself raises nothing. *)
Theorem single_analysis_call_fails
  (api_key : option str) (df : list customer) (selected : str)
  (c : customer) (st : state W) (e : exn) (w : W) :
  lookup_by_name df selected = Ok c ->
  create api_key (create_args (render_prompt c)) (world st) = (Raise e, w) ->
  single_analysis create json_loads api_key df selected st
  = (Ok tt,
     {| world := w;
        sent := sent st ++ [create_args (render_prompt c)];
        screen := screen st ++ [generic_error e] |}).
Proof.
  intros Hl Hc. unfold single_analysis. rewrite Hl, analyze_unfold, Hc.
  cbn [decoded rbind show_analysis truthy pure show world sent screen].
  now rewrite app_nil_r.
Qed.

(** On the first tab, a reply that decodes to a value Python takes for
    false ([null], [{}], [[]], [0], the empty string, [false]) leaves the
    page as it was: no result and no error. *)
Theorem single_analysis_falsy_reply
  (api_key : option str) (df : list customer) (selected : str)
  (c : customer) (st : state W) (text : str) (more : list block) (w : W)
  (v : json) :
  lookup_by_name df selected = Ok c ->
  create api_key (create_args (render_prompt c)) (world st)
    = (Ok (TextBlock text :: more), w) ->
  json_loads (strip_fences text) = Ok v ->
  truthy v = false ->
  single_analysis create json_loads api_key df selected st
  = (Ok tt,
     {| world := w;
        sent := sent st ++ [create_args (render_prompt c)];
        screen := screen st |}).
Proof.
  intros Hl Hc Hv Ht. unfold single_analysis. rewrite Hl, analyze_unfold, Hc.
  cbn [decoded rbind first_text]. rewrite Hv. unfold show_analysis.
  rewrite Ht. cbn [pure world sent screen]. now rewrite app_nil_r.
Qed.

End OneAnalysis.

(** ** The result widgets of the first tab *)

Section ResultWidgets.

Lemma enumerate_nth (l : list json) :
  forall (start i : nat) (rec : json),
  nth_error l i = Some rec ->
  nth_error (enumerate start l) i = Some (recommendation (start + i) rec).
Proof.
  induction l as [|x l IH]; intros start [|i] rec H; try discriminate H.
  - injection H as ->. cbn. now rewrite Nat.add_0_r.
  - cbn [enumerate nth_error]. rewrite (IH (S start) i rec H).
    now rewrite Nat.add_succ_r.
Qed.

Lemma enumerate_length (l : list json) :
  forall start, List.length (enumerate start l) = List.length l.
Proof. induction l as [|x l IH]; intros start; cbn; [|rewrite IH]; reflexivity. Qed.

Lemma risk_color_text (r : str) : exists label, risk_color (JStr r) = Ok label.
Proof.
  unfold risk_color.
  destruct (eqb r (u "low")); [eexists; reflexivity|].
  destruct (eqb r (u "medium")); [eexists; reflexivity|].
  destruct (eqb r (u "high")); eexists; reflexivity.
Qed.

(** A decoded object with the four keys, a score that is a number or
    none, a text for the risk and a list of recommendations is shown whole,
    whatever the number of recommendations: title, gauge, risk badge,
    analysis, then the recommendations in their order, numbered from 1,
    then the raw reply, and no exception.  Nothing is cut to three and
    nothing is filled up to three. *)
Theorem show_analysis_well_formed
  (d : list (str * json)) (h a : json) (r : str) (l : list json) :
  dict_get (u "health_score") d = Some h ->
  drawable h = true ->
  dict_get (u "churn_risk") d = Some (JStr r) ->
  dict_get (u "analysis") d = Some a ->
  dict_get (u "recommendations") d = Some (JArr l) ->
  exists label,
    risk_color (JStr r) = Ok label
    /\ show_analysis (JObj d)
       = ([markdown (u "### 🎯 Análisis de IA");
           gauge h;
           markdown (u "### Riesgo de Churn: " ++ label);
           markdown (u "#### 📝 Análisis:");
           info a;
           markdown (u "#### 💡 Recomendaciones:")]
            ++ enumerate 1 l ++ [st_json (JObj d)],
          Ok tt)
    /\ List.length (enumerate 1 l) = List.length l
    /\ forall i rec, nth_error l i = Some rec ->
         nth_error (enumerate 1 l) i = Some (recommendation (S i) rec).
Proof.
  intros Hh Hd Hr Ha Hl. destruct (risk_color_text r) as [label Hlabel].
  exists label. split; [exact Hlabel|]. split; [|split].
  - unfold show_analysis, getitem.
    assert (truthy (JObj d) = true) as ->
      by (destruct d; [discriminate Hh | reflexivity]).
    rewrite Hh, Hr, Ha, Hl.
    assert (indicator h = Ok h) as Hi
      by (destruct h; try reflexivity; discriminate Hd).
    cbn [pbind lift write write_all iterate app]. rewrite Hi.
    cbn [pbind lift write write_all iterate app]. rewrite Hlabel.
    cbn [pbind lift write write_all iterate app].
    reflexivity.
  - apply enumerate_length.
  - intros i rec H. exact (enumerate_nth l 1 i rec H).
Qed.

Lemma getitem_key (a : json) (k : str) :
  (forall v, getitem a k = Ok v -> has_key k a = true)
  /\ (forall e, getitem a k = Raise e ->
        has_key k a = false
        /\ (exn_kind_of e = KeyError \/ exn_kind_of e = TypeError)).
Proof.
  unfold getitem, has_key.
  destruct a as [| | | | | |d]; try (split; [discriminate | intros e E;
    injection E as <-; split; [reflexivity | now right]]).
  destruct (dict_get k d); split; try discriminate; try reflexivity.
  intros e E. injection E as <-. split; [reflexivity | now left].
Qed.

Lemma risk_color_hashable (r : json) :
  (forall label, risk_color r = Ok label -> hashable r = true)
  /\ (forall e, risk_color r = Raise e ->
        hashable r = false /\ exn_kind_of e = TypeError).
Proof.
  unfold hashable. destruct r as [| | | |s| |];
    try (split; [reflexivity | discriminate]);
    try (split; [discriminate | intros e E; injection E as <-; now split]).
  split; [reflexivity|]. intros e. unfold risk_color.
  destruct (eqb s (u "low")); [discriminate|].
  destruct (eqb s (u "medium")); [discriminate|].
  destruct (eqb s (u "high")); discriminate.
Qed.

Lemma iterate_iterable (v : json) :
  (forall l, iterate v = Ok l -> iterable v = true)
  /\ (forall e, iterate v = Raise e ->
        iterable v = false /\ exn_kind_of e = TypeError).
Proof.
  destruct v; cbn; split; try reflexivity; try discriminate;
    intros e E; injection E as <-; now split.
Qed.

Lemma indicator_drawable (h : json) :
  (forall v, indicator h = Ok v -> drawable h = true /\ v = h)
  /\ (forall e, indicator h = Raise e ->
        drawable h = false /\ exn_kind_of e = ValueError).
Proof.
  destruct h; cbn; split; try discriminate;
    try (intros v E; injection E as <-; now split);
    intros e E; injection E as <-; now split.
Qed.

Ltac page_step := cbn [pbind lift write write_all pure fst snd rbind app].

(** How the result section ends, without what it writes. *)
Lemma show_analysis_result (a : json) :
  truthy a = true ->
  snd (show_analysis a)
  = rbind (getitem a (u "health_score")) (fun h =>
    rbind (indicator h) (fun _ =>
    rbind (getitem a (u "churn_risk")) (fun r =>
    rbind (risk_color r) (fun _ =>
    rbind (getitem a (u "analysis")) (fun _ =>
    rbind (getitem a (u "recommendations")) (fun v =>
    rbind (iterate v) (fun _ => Ok tt))))))).
Proof.
  intros Ht. unfold show_analysis. rewrite Ht. page_step.
  destruct (getitem a (u "health_score")) as [h|]; page_step; [|reflexivity].
  destruct (indicator h); page_step; [|reflexivity].
  destruct (getitem a (u "churn_risk")) as [r|]; page_step; [|reflexivity].
  destruct (risk_color r); page_step; [|reflexivity].
  destruct (getitem a (u "analysis")); page_step; [|reflexivity].
  destruct (getitem a (u "recommendations")) as [v|]; page_step;
    [|reflexivity].
  destruct (iterate v); reflexivity.
Qed.

(** The result of an analysis that Python takes for true is shown without
    an exception exactly when it has the four keys, its score can be drawn
    (it is a number or none), its risk can be looked up (it is no list and
    no object) and its recommendations can be walked (a list, an object or
    a text).  Otherwise the tab raises [KeyError], [ValueError] or
    [TypeError]: nothing catches it, and the raw reply is not shown. *)
Theorem show_analysis_succeeds_iff (a : json) :
  truthy a = true ->
  (snd (show_analysis a) = Ok tt <->
     (exists h, getitem a (u "health_score") = Ok h /\ drawable h = true)
     /\ (exists r, getitem a (u "churn_risk") = Ok r /\ hashable r = true)
     /\ has_key (u "analysis") a = true
     /\ (exists v, getitem a (u "recommendations") = Ok v
                   /\ iterable v = true))
  /\ (forall e, snd (show_analysis a) = Raise e ->
        (exn_kind_of e = KeyError \/ exn_kind_of e = TypeError
         \/ exn_kind_of e = ValueError)
        /\ ~ In (st_json a) (fst (show_analysis a))).
Proof.
  intros Ht.
  assert (forall e, snd (show_analysis a) = Raise e ->
                    ~ In (st_json a) (fst (show_analysis a))) as Hraw.
  { unfold show_analysis. rewrite Ht. page_step.
    destruct (getitem a (u "health_score")) as [h|]; page_step;
      [|intros e' _ [H|[]]; discriminate H].
    destruct (indicator h); page_step;
      [|intros e' _ [H|[]]; discriminate H].
    destruct (getitem a (u "churn_risk")) as [r|]; page_step;
      [|intros e' _ [H|[H|[]]]; discriminate H].
    destruct (risk_color r); page_step;
      [|intros e' _ [H|[H|[]]]; discriminate H].
    destruct (getitem a (u "analysis")); page_step;
      [|intros e' _ [H|[H|[H|[H|[]]]]]; discriminate H].
    destruct (getitem a (u "recommendations")) as [v|]; page_step;
      [|intros e' _ [H|[H|[H|[H|[H|[H|[]]]]]]]; discriminate H].
    destruct (iterate v); page_step;
      [intros e' H; discriminate H
      |intros e' _ [H|[H|[H|[H|[H|[H|[]]]]]]]; discriminate H]. }
  rewrite (show_analysis_result a Ht).
  destruct (getitem_key a (u "health_score")) as [K1 E1].
  destruct (getitem_key a (u "churn_risk")) as [K2 E2].
  destruct (getitem_key a (u "analysis")) as [K3 E3].
  destruct (getitem_key a (u "recommendations")) as [K4 E4].
  rewrite (show_analysis_result a Ht) in Hraw.
  destruct (getitem a (u "health_score")) as [h | e1]; cbn [rbind] in *.
  2:{ destruct (E1 e1 eq_refl) as [F1 Kd]. split.
      - split; [intros H; discriminate H
               | intros [[h [H _]] _]; discriminate H].
      - intros e E. split; [|exact (Hraw e E)]. injection E as <-.
        destruct Kd; auto. }
  destruct (indicator_drawable h) as [D1 D2].
  destruct (indicator h) as [v0 | e0]; cbn [rbind] in *.
  2:{ destruct (D2 e0 eq_refl) as [F0 Kd]. split.
      - split; [intros H; discriminate H|].
        intros [[h' [H Hd]] _]. injection H as <-. congruence.
      - intros e E. split; [|exact (Hraw e E)]. injection E as <-. auto. }
  destruct (getitem a (u "churn_risk")) as [r | e2]; cbn [rbind] in *.
  2:{ destruct (E2 e2 eq_refl) as [F2 Kd]. split.
      - split; [intros H; discriminate H
               | intros [_ [[r [H _]] _]]; discriminate H].
      - intros e E. split; [|exact (Hraw e E)]. injection E as <-.
        destruct Kd; auto. }
  destruct (risk_color_hashable r) as [R1 R2].
  destruct (risk_color r) as [label | e3]; cbn [rbind] in *.
  2:{ destruct (R2 e3 eq_refl) as [F3 Kd]. split.
      - split; [intros H; discriminate H|].
        intros [_ [[r' [H Hh]] _]]. injection H as <-. congruence.
      - intros e E. split; [|exact (Hraw e E)]. injection E as <-. auto. }
  destruct (getitem a (u "analysis")) as [an | e4]; cbn [rbind] in *.
  2:{ destruct (E3 e4 eq_refl) as [F4 Kd]. split.
      - split; [intros H; discriminate H
               | intros [_ [_ [H _]]]; congruence].
      - intros e E. split; [|exact (Hraw e E)]. injection E as <-.
        destruct Kd; auto. }
  destruct (getitem a (u "recommendations")) as [v | e5]; cbn [rbind] in *.
  2:{ destruct (E4 e5 eq_refl) as [F5 Kd]. split.
      - split; [intros H; discriminate H
               | intros [_ [_ [_ [v [H _]]]]]; discriminate H].
      - intros e E. split; [|exact (Hraw e E)]. injection E as <-.
        destruct Kd; auto. }
  destruct (iterate_iterable v) as [I1 I2].
  destruct (iterate v) as [recs | e6]; cbn [rbind] in *.
  2:{ destruct (I2 e6 eq_refl) as [F6 Kd]. split.
      - split; [intros H; discriminate H|].
        intros [_ [_ [_ [v' [H Hi]]]]]. injection H as <-. congruence.
      - intros e E. split; [|exact (Hraw e E)]. injection E as <-. auto. }
  split; [|discriminate]. split; [intros _ | intros _; reflexivity].
  split; [exists h; split; [reflexivity | exact (proj1 (D1 v0 eq_refl))]|].
  split.
  - exists r. split; [reflexivity | exact (R1 label eq_refl)].
  - split; [exact (K3 an eq_refl)|].
    exists v. split; [reflexivity | exact (I1 recs eq_refl)].
Qed.

End ResultWidgets.

(** ** The lookup by name *)

Section Lookup.

Lemma eqb_refl (a : str) : eqb a a = true.
Proof. now apply eqb_eq. Qed.

(** The lookup fails, with [IndexError], exactly for a name that no row of
    the table bears. *)
Theorem lookup_by_name_absent (df : list customer) (selected : str) :
  ~ In selected (map name df)
  <-> lookup_by_name df selected
      = Raise (Exc IndexError (u "single positional indexer is out-of-bounds")).
Proof.
  unfold lookup_by_name. induction df as [|x df IH].
  - split; [reflexivity | intros _ []].
  - cbn [filter map In]. destruct (eqb (name x) selected) eqn:E.
    + apply eqb_eq in E. split; [intros H; exfalso; apply H; now left|].
      discriminate.
    + assert (name x <> selected) as Hx
        by (intros Hx; apply eqb_eq in Hx; congruence).
      rewrite <- IH. tauto.
Qed.

(** When the names of the table are all different, every row is found
    again by its own name: each option of the selector shows its own
    row. *)
Theorem lookup_by_name_unique (df : list customer) (i : nat) (c : customer) :
  NoDup (map name df) -> nth_error df i = Some c ->
  lookup_by_name df (name c) = Ok c.
Proof.
  unfold lookup_by_name. revert i.
  induction df as [|x df IH]; intros i Hnd Hi; [destruct i; discriminate Hi|].
  cbn [map] in Hnd. inversion Hnd as [|n l Hnotin Hnd']; subst.
  cbn [filter]. destruct i as [|i].
  - injection Hi as ->. now rewrite eqb_refl.
  - cbn [nth_error] in Hi.
    assert (eqb (name x) (name c) = false) as ->.
    { destruct (eqb (name x) (name c)) eqn:E; [|reflexivity].
      apply eqb_eq in E. exfalso. apply Hnotin. rewrite E.
      apply in_map. eapply nth_error_In. exact Hi. }
    exact (IH i Hnd' Hi).
Qed.

End Lookup.

(** ** A row of the table *)

(** A row is made only from an object that has both keys.  An object that
    lacks one makes the loop raise [KeyError]; any other value Python takes
    for true (a list, a text, a number, [true]) makes it raise
    [TypeError]. *)
Theorem result_of_outcome (c : customer) (a : json) :
  (forall row, result_of c a = Ok row ->
     exists d h r,
       a = JObj d
       /\ dict_get (u "health_score") d = Some h
       /\ dict_get (u "churn_risk") d = Some r
       /\ Health_Score row = h /\ Riesgo row = r /\ Cliente row = name c)
  /\ (forall e, result_of c a = Raise e ->
        (exists d, a = JObj d /\ exn_kind_of e = KeyError)
        \/ ((forall d, a <> JObj d) /\ exn_kind_of e = TypeError)).
Proof.
  unfold result_of, getitem.
  destruct a as [| | | | | |d];
    try (split; [discriminate|]; intros e E; injection E as <-; right;
         split; [discriminate | reflexivity]).
  destruct (dict_get (u "health_score") d) as [h|] eqn:Hh; cbn [rbind].
  - destruct (dict_get (u "churn_risk") d) as [r|] eqn:Hr; cbn [rbind].
    + split; [|discriminate]. intros row E. injection E as <-.
      exists d, h, r. repeat split; assumption.
    + split; [discriminate|]. intros e E. injection E as <-.
      left. now exists d.
  - split; [discriminate|]. intros e E. injection E as <-. left. now exists d.
Qed.

(** ** Whole amounts *)

Section WholeAmounts.

Lemma round_half_even_whole (n : Z) (k : positive) :
  round_half_even (inject_Z n * inject_Z (Z.pos k))%Q = (n * Z.pos k)%Z.
Proof.
  unfold round_half_even. cbn [Qmult inject_Z Qnum Qden Pos.mul].
  rewrite Z.div_1_r, Z.mod_1_r. reflexivity.
Qed.

Lemma round_half_even_integer (n : Z) : round_half_even (inject_Z n) = n.
Proof.
  unfold round_half_even. cbn [inject_Z Qnum Qden].
  rewrite Z.div_1_r, Z.mod_1_r. reflexivity.
Qed.

(** For a revenue that is a whole number, the card of the first tab and the
    prompt agree: the prompt shows the amount of the card followed by
    [.00]. *)
Lemma format_money_whole (z : Z) :
  format_money (inject_Z z) = format_whole (inject_Z z) ++ u ".00".
Proof.
  unfold format_money, format_whole.
  destruct (to_float_inject z) as [y ->].
  change (Qabs (inject_Z y)) with (inject_Z (Z.abs y)).
  change 100%Q with (inject_Z 100).
  rewrite round_half_even_whole, round_half_even_integer.
  assert (Z.to_N (Z.abs y * 100) / 100 = Z.to_N (Z.abs y))%N as ->.
  { rewrite Z2N.inj_mul by lia. change (Z.to_N 100) with 100%N.
    apply N.div_mul. discriminate. }
  assert (Z.to_N (Z.abs y * 100) mod 100 = 0)%N as ->.
  { rewrite Z2N.inj_mul by lia. change (Z.to_N 100) with 100%N.
    apply N.Div0.mod_mul. }
  rewrite <- app_assoc. reflexivity.
Qed.

Lemma weave_slot (segs vals : list str) :
  forall i, i < List.length vals -> List.length vals < List.length segs ->
  exists a b, weave segs vals = a ++ nth i segs [] ++ nth i vals [] ++ b.
Proof.
  revert vals; induction segs as [|seg segs IH]; intros vals i Hi Hlen;
    [simpl in Hlen; lia|].
  destruct vals as [|v vals]; [simpl in Hi; lia|].
  cbn [weave]. destruct i as [|i].
  - exists [], (weave segs vals). reflexivity.
  - destruct (IH vals i) as [a [b E]]; [simpl in Hi; lia | simpl in Hlen; lia|].
    exists (seg ++ v ++ a), b. cbn [nth]. rewrite E.
    now rewrite <- !app_assoc.
Qed.

(** The revenue of the card and the revenue of the prompt, side by side:
    for a whole amount, the value of the metric [Revenue Total], followed
    by [.00], is found in the prompt. *)
Theorem revenue_card_matches_prompt (c : customer) (z : Z) :
  total_revenue c = inject_Z z ->
  In (st_metric (u "Revenue Total") (u "$" ++ format_whole (inject_Z z)))
     (customer_metrics c)
  /\ occurs (u "$" ++ format_whole (inject_Z z) ++ u ".00") (render_prompt c).
Proof.
  intros Hz. split.
  - unfold customer_metrics. rewrite Hz. right. left. reflexivity.
  - rewrite <- format_money_whole, <- Hz, render_prompt_weave.
    destruct (weave_slot template_segments (field_values c) 4) as [a [b E]];
      [simpl; lia | simpl; lia |].
    rewrite E.
    change (nth 4 (field_values c) []) with (format_money (total_revenue c)).
    replace (nth 4 template_segments [])
      with ((10%N :: u "    - Revenue total: ") ++ u "$")
      by (vm_compute; reflexivity).
    exists (a ++ 10%N :: u "    - Revenue total: "), b.
    now rewrite <- !app_assoc.
Qed.

End WholeAmounts.

(** ** A whole batch *)

Section WholeBatch.

Variable W : Type.
Variable create : option str -> request -> W -> result (list block) * W.
Variable json_loads : str -> result json.

(** The loop over two runs of indices is the loop over the first, then the
    loop over the second from where the first stopped. *)
Lemma batch_loop_app (api_key : option str) (df : list customer) (num : nat)
  (l1 l2 : list nat) :
  forall (results : list result_row) (st : state W),
  batch_loop create json_loads api_key df num (l1 ++ l2) results st
  = match batch_loop create json_loads api_key df num l1 results st with
    | (Ok results', st') =>
        batch_loop create json_loads api_key df num l2 results' st'
    | (Raise e, st') => (Raise e, st')
    end.
Proof.
  induction l1 as [|idx l1 IH]; intros results st; [reflexivity|].
  cbn [app batch_loop]. destruct (iloc df idx) as [c | e]; [|reflexivity].
  destruct (analyze_customer_with_ai create json_loads api_key c _)
    as [a st2].
  destruct (if truthy a then _ else _) as [results' | e]; [|reflexivity].
  apply IH.
Qed.

Lemma progress_marks_app (a b : list widget) :
  progress_marks (a ++ b) = progress_marks a ++ progress_marks b.
Proof. unfold progress_marks. apply flat_map_app. Qed.

Lemma shown_no_progress (api_key : option str) (c : customer) (w : W) :
  progress_marks (shown create json_loads api_key c w) = [].
Proof.
  unfold shown. rewrite analyze_unfold. cbn [fresh world].
  destruct (create api_key (create_args (render_prompt c)) w) as [reply w'].
  destruct (decoded json_loads reply); reflexivity.
Qed.

Lemma skipped_or_keyed_cases (a : json) :
  skipped_or_keyed a ->
  truthy a = false
  \/ exists h r, truthy a = true
                 /\ getitem a (u "health_score") = Ok h
                 /\ getitem a (u "churn_risk") = Ok r.
Proof.
  intros [H | [d [h [r [-> [Hh Hr]]]]]]; [now left | right].
  exists h, r. cbn [getitem truthy]. rewrite Hh, Hr.
  destruct d; [discriminate Hh | repeat split].
Qed.

(** The loop over the indices [i], ..., [i + n - 1], when every analysis is
    passed over or has the two keys. *)
Lemma batch_loop_run (api_key : option str) (df : list customer) (num : nat)
  (n : nat) :
  forall (i : nat) (results : list result_row) (st : state W),
  i + n <= List.length df ->
  Forall (fun ca => skipped_or_keyed (snd ca))
    (answers create json_loads api_key (firstn n (skipn i df)) (world st)) ->
  exists rows st',
    batch_loop create json_loads api_key df num (seq i n) results st
    = (Ok (results ++ rows), st')
    /\ Forall2 row_of
         (filter kept
            (answers create json_loads api_key (firstn n (skipn i df))
               (world st)))
         rows
    /\ sent st'
       = sent st ++ map (fun c => create_args (render_prompt c))
                        (firstn n (skipn i df))
    /\ world st'
       = last_world create json_loads api_key (firstn n (skipn i df))
           (world st)
    /\ progress_marks (screen st')
       = progress_marks (screen st) ++ map (fun j => (j + 1, num)) (seq i n).
Proof.
  induction n as [|n IH]; intros i results st Hlen Hus.
  - exists [], st. cbn. rewrite !app_nil_r. repeat split. constructor.
  - destruct (skipn_nth _ df i ltac:(lia)) as [c [Hnth Hskip]].
    rewrite Hskip in *. rewrite firstn_cons in *.
    cbn [answers last_world map] in *.
    inversion Hus as [|x l Hc Hrest]; subst x l. cbn [snd] in Hc.
    cbn [seq batch_loop]. unfold iloc. rewrite Hnth.
    rewrite analyze_frame. cbn [show world sent screen].
    destruct (skipped_or_keyed_cases _ Hc) as [Hf | [h [r [Ht [Hh Hr]]]]].
    + rewrite Hf.
      edestruct (IH (S i) results) as [rows [st' [H1 [H2 [H3 [H4 H5]]]]]];
        [lia | | rewrite H1].
      { cbn [show world]. exact Hrest. }
      exists rows, st'. cbn [show world sent screen] in *.
      split; [reflexivity|]. split.
      { cbn [filter]. unfold kept at 1. cbn [snd]. rewrite Hf. exact H2. }
      split; [rewrite H3, <- app_assoc; reflexivity|]. split; [exact H4|].
      rewrite H5, !progress_marks_app, shown_no_progress.
      cbn [progress_marks flat_map app]. rewrite !app_nil_r, <- app_assoc.
      reflexivity.
    + rewrite Ht. unfold result_of. rewrite Hh, Hr. cbn [rbind].
      set (row := {| Cliente := name c; Health_Score := h; Riesgo := r;
                     Revenue := total_revenue c;
                     Dias_sin_actividad := days_since_last_activity c;
                     Tickets_abiertos := open_tickets c |}).
      edestruct (IH (S i) (results ++ [row]))
        as [rows [st' [H1 [H2 [H3 [H4 H5]]]]]]; [lia | | rewrite H1].
      { cbn [show world]. exact Hrest. }
      exists (row :: rows), st'. cbn [show world sent screen] in *.
      split; [now rewrite <- app_assoc|]. split.
      { cbn [filter]. unfold kept at 1. cbn [snd]. rewrite Ht.
        constructor; [|exact H2]. unfold row_of. repeat split; assumption. }
      split; [rewrite H3, <- app_assoc; reflexivity|]. split; [exact H4|].
      rewrite H5, !progress_marks_app, shown_no_progress.
      cbn [progress_marks flat_map app]. rewrite !app_nil_r, <- app_assoc.
      reflexivity.
Qed.

Lemma filter_length_le (A : Type) (f : A -> bool) (l : list A) :
  List.length (filter f l) <= List.length l.
Proof. induction l as [|x l IH]; simpl; [|destruct (f x); simpl]; lia. Qed.

Lemma answers_length (api_key : option str) (records : list customer) :
  forall w, List.length (answers create json_loads api_key records w)
            = List.length records.
Proof. induction records as [|c l IH]; intros w; cbn; [|rewrite IH]; reflexivity. Qed.

(** The loop keeps a record by the truth value of its analysis, not by a
    test for [None]: an analysis that is [None], but also one that is [{}],
    [[]], [0], the empty text or [false], gives no row and no error.  When
    every analysis is of that kind or has the two keys, the table has one
    row for each analysis Python takes for true, in order, and never more
    rows than records asked for. *)
Theorem batch_loop_keeps_truthy (api_key : option str) (df : list customer)
  (num_customers : nat) (st : state W) :
  num_customers <= List.length df ->
  Forall (fun ca => skipped_or_keyed (snd ca))
    (answers create json_loads api_key (firstn num_customers df) (world st)) ->
  exists rows st',
    batch_loop create json_loads api_key df num_customers
      (seq 0 num_customers) [] st = (Ok rows, st')
    /\ Forall2 row_of
         (filter kept
            (answers create json_loads api_key (firstn num_customers df)
               (world st)))
         rows
    /\ List.length rows <= num_customers.
Proof.
  intros Hlen Hus.
  destruct (batch_loop_run api_key df num_customers num_customers 0 [] st)
    as [rows [st' [H1 [H2 _]]]]; [lia | exact Hus |].
  cbn [skipn app] in *. exists rows, st'.
  split; [exact H1|]. split; [exact H2|].
  apply Forall2_length in H2. rewrite <- H2.
  etransitivity; [apply filter_length_le|].
  rewrite answers_length, length_firstn. lia.
Qed.

(** The progress bar of a batch that runs to its end: one step after each
    record, [1/N], [2/N], ..., and the last step is [N/N]. *)
Theorem batch_progress_reaches_end (api_key : option str)
  (df : list customer) (num_customers : nat) (st : state W) :
  num_customers <= List.length df ->
  Forall (fun ca => skipped_or_keyed (snd ca))
    (answers create json_loads api_key (firstn num_customers df) (world st)) ->
  exists rows st',
    batch_loop create json_loads api_key df num_customers
      (seq 0 num_customers) [] st = (Ok rows, st')
    /\ progress_marks (screen st')
       = progress_marks (screen st)
         ++ map (fun j => (j + 1, num_customers)) (seq 0 num_customers)
    /\ (0 < num_customers ->
        last (progress_marks (screen st')) (0, 0)
        = (num_customers, num_customers)).
Proof.
  intros Hlen Hus.
  destruct (batch_loop_run api_key df num_customers num_customers 0 [] st)
    as [rows [st' [H1 [_ [_ [_ H5]]]]]]; [lia | exact Hus |].
  cbn [app] in *. exists rows, st'.
  split; [exact H1|]. split; [exact H5|].
  intros Hpos. rewrite H5. destruct num_customers as [|n]; [lia|].
  rewrite seq_S, map_app. cbn [map]. rewrite app_assoc, last_last.
  f_equal. lia.
Qed.

(** A reply that Python takes for true but that gives no row stops the
    batch: the loop raises at that record, the records after it are never
    sent to the endpoint, and no table is shown, not even for the records
    analysed before. *)
Theorem batch_stops_at_bad_reply (api_key : option str) (df : list customer)
  (num_customers k : nat) (c : customer) (e : exn) (st : state W) :
  k < num_customers -> num_customers <= List.length df ->
  Forall (fun ca => skipped_or_keyed (snd ca))
    (answers create json_loads api_key (firstn k df) (world st)) ->
  nth_error df k = Some c ->
  truthy (answer create json_loads api_key c
            (last_world create json_loads api_key (firstn k df) (world st)))
  = true ->
  result_of c
    (answer create json_loads api_key c
       (last_world create json_loads api_key (firstn k df) (world st)))
  = Raise e ->
  fst (batch_analysis create json_loads api_key df num_customers st) = Raise e
  /\ sent (snd (batch_analysis create json_loads api_key df num_customers st))
     = sent st ++ map (fun c => create_args (render_prompt c))
                      (firstn (S k) df).
Proof.
  intros Hk Hlen Hus Hnth Ht He.
  destruct (batch_loop_run api_key df num_customers k 0 [] st)
    as [rows [st' [H1 [_ [H3 [H4 _]]]]]]; [lia | exact Hus |].
  cbn [skipn app] in *.
  assert (seq 0 num_customers = seq 0 k ++ k :: seq (S k) (num_customers - S k))
    as Hseq.
  { replace num_customers with (k + S (num_customers - S k)) at 1 by lia.
    rewrite seq_app. reflexivity. }
  unfold batch_analysis. rewrite Hseq, batch_loop_app, H1.
  cbn [batch_loop]. unfold iloc. rewrite Hnth.
  rewrite analyze_frame. cbn [show world sent screen].
  rewrite H4, Ht, He. cbn [rbind fst snd sent].
  split; [reflexivity|].
  rewrite H3, <- app_assoc. f_equal.
  destruct (skipn_nth _ df k ltac:(lia)) as [c' [Hnth' Hskip]].
  rewrite Hnth in Hnth'. injection Hnth' as <-.
  rewrite <- (firstn_skipn k df) at 2.
  rewrite firstn_app, length_firstn, Hskip.
  replace (S k - Nat.min k (List.length df)) with 1 by lia.
  rewrite firstn_firstn. replace (Nat.min (S k) k) with k by lia.
  cbn [firstn]. now rewrite map_app.
Qed.

(** A batch asked to go past the end of the table analyses every row, then
    raises [IndexError]: no table is shown. *)
Theorem batch_beyond_table (api_key : option str) (df : list customer)
  (num_customers : nat) (st : state W) :
  List.length df < num_customers ->
  Forall (fun ca => skipped_or_keyed (snd ca))
    (answers create json_loads api_key df (world st)) ->
  fst (batch_analysis create json_loads api_key df num_customers st)
  = Raise (Exc IndexError (u "single positional indexer is out-of-bounds"))
  /\ sent (snd (batch_analysis create json_loads api_key df num_customers st))
     = sent st ++ map (fun c => create_args (render_prompt c)) df.
Proof.
  intros Hlen Hus.
  destruct (batch_loop_run api_key df num_customers (List.length df) 0 [] st)
    as [rows [st' [H1 [_ [H3 _]]]]]; [lia | |].
  { cbn [skipn]. now rewrite firstn_all. }
  cbn [skipn app] in *. rewrite firstn_all in H3.
  assert (seq 0 num_customers
          = seq 0 (List.length df)
            ++ List.length df :: seq (S (List.length df))
                                    (num_customers - S (List.length df)))
    as Hseq.
  { replace num_customers
      with (List.length df + S (num_customers - S (List.length df))) at 1
      by lia.
    rewrite seq_app. reflexivity. }
  unfold batch_analysis. rewrite Hseq, batch_loop_app, H1.
  cbn [batch_loop]. unfold iloc.
  assert (nth_error df (List.length df) = None) as ->
    by (apply nth_error_None; lia).
  cbn [fst snd]. split; [reflexivity | exact H3].
Qed.

End WholeBatch.

(** ** The global metrics *)

Section GlobalMetrics.

Lemma Qsum_from (l : list Q) (a : Q) :
  (fold_left Qplus l a == a + Qsum l)%Q.
Proof.
  unfold Qsum. revert a. induction l as [|x l IH]; intros a; cbn [fold_left].
  - ring.
  - rewrite IH, (IH (0 + x)%Q). ring.
Qed.

Lemma Qsum_cons (x : Q) (l : list Q) : (Qsum (x :: l) == x + Qsum l)%Q.
Proof. unfold Qsum at 1. cbn [fold_left]. rewrite Qsum_from. ring. Qed.

Lemma Qsum_nonneg (l : list Q) : Forall Qnonneg l -> (0 <= Qsum l)%Q.
Proof.
  induction 1 as [|x l Hx _ IH]; [apply Qle_refl|].
  rewrite Qsum_cons. unfold Qnonneg in Hx.
  change 0%Q with (0 + 0)%Q. now apply Qplus_le_compat.
Qed.

Lemma Qsum_filter_le (f : result_row -> bool) (rows : list result_row) :
  Forall (fun r => Qnonneg (Revenue r)) rows ->
  (Qsum (map Revenue (filter f rows)) <= Qsum (map Revenue rows))%Q.
Proof.
  induction 1 as [|x l Hx Hl IH]; [apply Qle_refl|].
  cbn [filter map]. destruct (f x); cbn [map]; rewrite !Qsum_cons.
  - apply Qplus_le_compat; [apply Qle_refl | exact IH].
  - unfold Qnonneg in Hx. rewrite <- (Qplus_0_l (Qsum _)) at 1.
    apply Qplus_le_compat; assumption.
Qed.

Lemma share_bounds (h n : nat) :
  h <= S n ->
  (0 <= inject_Z (Z.of_nat h) / inject_Z (Z.of_nat (S n)) * 100 <= 100)%Q.
Proof.
  intros Hh.
  assert (0 < inject_Z (Z.of_nat (S n)))%Q as Hpos.
  { unfold Qlt. cbn [inject_Z Qnum Qden]. lia. }
  assert (0 <= inject_Z (Z.of_nat h))%Q as Hnn.
  { unfold Qle. cbn [inject_Z Qnum Qden]. lia. }
  assert (inject_Z (Z.of_nat h) <= inject_Z (Z.of_nat (S n)))%Q as Hle.
  { unfold Qle. cbn [inject_Z Qnum Qden]. lia. }
  split.
  - apply Qmult_le_0_compat; [|discriminate].
    apply Qle_shift_div_l; [exact Hpos|]. now rewrite Qmult_0_l.
  - setoid_replace 100%Q with (1 * 100)%Q at 2 by ring.
    apply Qmult_le_compat_r; [|discriminate].
    apply Qle_shift_div_r; [exact Hpos|]. now rewrite Qmult_1_l.
Qed.

(** For a table with at least one row and integer scores, all the global
    metrics are defined: the count of high risk never exceeds the number of
    rows, its share lies between 0 and 100 per cent, and, when no revenue
    is negative, the revenue at risk never exceeds the total revenue. *)
Theorem global_metrics_summary (results : list result_row) (zs : list Z) :
  results <> [] -> map Health_Score results = map JInt zs ->
  exists m,
    global_metrics results = Ok m
    /\ high_risk m = List.length (filter is_high results)
    /\ high_risk m <= List.length results
    /\ (high_risk_percent m
        == inject_Z (Z.of_nat (high_risk m))
           / inject_Z (Z.of_nat (List.length results)) * 100)%Q
    /\ (0 <= high_risk_percent m <= 100)%Q
    /\ (total_revenue_sum m == Qsum (map Revenue results))%Q
    /\ (at_risk_revenue m
        == Qsum (map Revenue (filter is_high results)))%Q
    /\ (Forall (fun r => Qnonneg (Revenue r)) results ->
        (at_risk_revenue m <= total_revenue_sum m)%Q).
Proof.
  intros Hne Hz. unfold global_metrics, column, make_frame.
  destruct results as [|r0 rows]; [congruence|]. set (l := r0 :: rows) in *.
  cbn [columns App.rows].
  replace (existsb (eqb (u "Health Score")) result_columns) with true
    by (vm_compute; reflexivity).
  replace (existsb (eqb (u "Riesgo")) result_columns) with true
    by (vm_compute; reflexivity).
  replace (existsb (eqb (u "Revenue")) result_columns) with true
    by (vm_compute; reflexivity).
  cbn [rbind]. rewrite Hz, mean_ints
    by (intros E; subst zs; discriminate Hz).
  cbn [rbind]. unfold l at 2. cbn [List.length true_div rbind].
  eexists. split; [reflexivity|].
  cbn [high_risk high_risk_percent total_revenue_sum at_risk_revenue].
  pose proof (filter_length_le _ is_high l) as Hcount.
  split; [reflexivity|]. split; [exact Hcount|].
  assert (Qred (Qred (inject_Z (Z.of_nat (List.length (filter is_high l)))
                      / inject_Z (Z.of_nat (S (List.length rows)))) * 100)
          == inject_Z (Z.of_nat (List.length (filter is_high l)))
             / inject_Z (Z.of_nat (List.length l)) * 100)%Q as Hshare.
  { rewrite !Qred_correct. reflexivity. }
  split; [exact Hshare|]. split.
  { rewrite Hshare. apply share_bounds. exact Hcount. }
  split; [apply Qred_correct|]. split; [apply Qred_correct|].
  intros Hnn. rewrite !Qred_correct. apply Qsum_filter_le. exact Hnn.
Qed.

Lemma global_metrics_error_kind (results : list result_row) (e : exn) :
  results <> [] -> global_metrics results = Raise e ->
  exn_kind_of e = TypeError.
Proof.
  intros Hne. destruct results as [|r0 rows]; [congruence|].
  unfold global_metrics, column, make_frame. cbn [columns App.rows].
  replace (existsb (eqb (u "Health Score")) result_columns) with true
    by (vm_compute; reflexivity).
  replace (existsb (eqb (u "Riesgo")) result_columns) with true
    by (vm_compute; reflexivity).
  replace (existsb (eqb (u "Revenue")) result_columns) with true
    by (vm_compute; reflexivity).
  cbn [rbind List.length true_div].
  destruct (mean (map Health_Score (r0 :: rows))) as [avg | e'] eqn:E;
    [discriminate|].
  cbn [rbind]. intros He. injection He as <-. unfold mean in E.
  assert (forall l e'', score_values l = Raise e'' ->
                        exn_kind_of e'' = TypeError) as Hty.
  { induction l as [|v l IH]; intros e'' He''; [discriminate He''|].
    cbn [score_values] in He''.
    destruct (score_value v) as [x | e1] eqn:Ev; cbn [rbind] in He''.
    - destruct (score_values l) as [xs | e2]; cbn [rbind] in He'';
        [discriminate He'' | injection He'' as <-; now apply IH].
    - injection He'' as <-.
      destruct v as [| | | [| |] | | |]; cbn in Ev; try discriminate Ev;
        injection Ev as <-; reflexivity. }
  destruct (score_values (map Health_Score (r0 :: rows))) as [xs | e2] eqn:E2;
    cbn [rbind] in E.
  - destruct (existsb is_infinite (map Health_Score (r0 :: rows)));
      [discriminate E | destruct xs; discriminate E].
  - injection E as <-. exact (Hty _ _ E2).
Qed.

(** The global metrics raise [KeyError] exactly when the batch gave no row;
    with a row they can only fail on a score that is no number, with
    [TypeError]; and they never divide by zero. *)
Theorem global_metrics_key_error_iff_empty (results : list result_row) :
  (raises KeyError (global_metrics results) = true <-> results = [])
  /\ (forall e, global_metrics results = Raise e ->
        results <> [] -> exn_kind_of e = TypeError)
  /\ raises ZeroDivisionError (global_metrics results) = false.
Proof.
  split; [|split].
  - split.
    + intros H. destruct results as [|r0 rows]; [reflexivity|].
      destruct (global_metrics (r0 :: rows)) as [m | e] eqn:E;
        [discriminate H|].
      cbn [raises] in H.
      rewrite (global_metrics_error_kind (r0 :: rows) e) in H;
        [discriminate H | discriminate | exact E].
    + intros ->. reflexivity.
  - intros e E Hne. exact (global_metrics_error_kind results e Hne E).
  - apply global_metrics_no_division_error.
Qed.

End GlobalMetrics.

(** ** The further properties on sample runs *)

Ltac keyed_or_skipped :=
  first [ left; run
        | right; do 3 eexists; split; [reflexivity | split; run] ].

Lemma analyze_fenced_as_bare_witness :
  contains (u "```") bare_text = false
  /\ fst (analyze_customer_with_ai scripted loads key acme
            (start [Ok [TextBlock (u "```json" ++ bare_text ++ u "```")]]))
     = fst (analyze_customer_with_ai scripted loads key acme
              (start [Ok [TextBlock bare_text]])).
Proof.
  assert (contains (u "```") bare_text = false) as Hin by run.
  assert (scripted key (create_args (render_prompt acme))
            (world (start [Ok [TextBlock (u "```json" ++ bare_text
                                            ++ u "```")]]))
          = (Ok (TextBlock (u "```json" ++ bare_text ++ u "```") :: []), []))
    as H1 by run.
  assert (scripted key (create_args (render_prompt acme))
            (world (start [Ok [TextBlock bare_text]]))
          = (Ok (TextBlock bare_text :: []), [])) as H2 by run.
  split; [exact Hin|].
  exact (proj1 (analyze_fenced_as_bare script scripted loads key acme
                  _ _ bare_text [] [] [] [] Hin H1 H2)).
Defined.

Lemma analyze_reads_first_block_witness :
  scripted key (create_args (render_prompt acme)) (world (start [two_blocks]))
  = (Ok [TextBlock (uq "{'health_score': 82, 'churn_risk': 'low'}");
         OtherBlock], [])
  /\ analyze_customer_with_ai scripted loads key acme (start [two_blocks])
     = analyze_customer_with_ai first_block_only loads key acme
         (start [two_blocks]).
Proof.
  assert (scripted key (create_args (render_prompt acme))
            (world (start [two_blocks]))
          = (Ok [TextBlock (uq "{'health_score': 82, 'churn_risk': 'low'}");
                 OtherBlock], [])) as H1 by run.
  assert (first_block_only key (create_args (render_prompt acme))
            (world (start [two_blocks]))
          = (Ok [TextBlock (uq "{'health_score': 82, 'churn_risk': 'low'}")],
             [])) as H2 by run.
  split; [exact H1|].
  exact (analyze_reads_first_block script scripted loads first_block_only key
           acme (start [two_blocks]) _ _ _ H1 H2).
Defined.

Lemma analyze_reply_without_text_witness :
  scripted key (create_args (render_prompt acme)) (world (start [no_block]))
  = (Ok [], [])
  /\ exists e,
       analyze_customer_with_ai scripted loads key acme (start [no_block])
       = (JNull,
          {| world := [];
             sent := sent (start [no_block])
                     ++ [create_args (render_prompt acme)];
             screen := screen (start [no_block]) ++ [generic_error e] |}).
Proof.
  assert (scripted key (create_args (render_prompt acme))
            (world (start [no_block])) = (Ok [], [])) as H by run.
  split; [exact H|].
  destruct (analyze_reply_without_text script scripted loads key acme
              (start [no_block]) [] [] H (or_introl eq_refl))
    as [e [_ [_ He]]].
  exists e. exact He.
Defined.

Lemma analyze_is_stateless_witness :
  world (start [stable]) = world (used [stable])
  /\ fst (analyze_customer_with_ai scripted loads key acme (start [stable]))
     = fst (analyze_customer_with_ai scripted loads key acme (used [stable])).
Proof.
  assert (world (start [stable]) = world (used [stable])) as H
    by reflexivity.
  split; [exact H|].
  exact (proj1 (analyze_is_stateless script scripted loads key acme _ _ H)).
Defined.

(** The same record analysed twice, with two different answers. *)
Example analyze_twice_may_differ :
  let first :=
    analyze_customer_with_ai scripted loads key acme (start [stable; at_risk])
  in
  getitem (fst first) (u "health_score") = Ok (JInt 82)
  /\ getitem (fst (analyze_customer_with_ai scripted loads key acme
                     (snd first)))
       (u "health_score") = Ok (JInt 64).
Proof. cbv zeta. split; run. Qed.

Lemma single_analysis_call_fails_witness :
  lookup_by_name three (u "Globex") = Ok globex
  /\ scripted key (create_args (render_prompt globex))
       (world (start [network_down]))
     = (Raise (Exc APIError (u "Connection error.")), [])
  /\ single_analysis scripted loads key three (u "Globex")
       (start [network_down])
     = (Ok tt,
        {| world := [];
           sent := sent (start [network_down])
                   ++ [create_args (render_prompt globex)];
           screen := screen (start [network_down])
                     ++ [generic_error
                           (Exc APIError (u "Connection error."))] |}).
Proof.
  assert (lookup_by_name three (u "Globex") = Ok globex) as Hl by run.
  assert (scripted key (create_args (render_prompt globex))
            (world (start [network_down]))
          = (Raise (Exc APIError (u "Connection error.")), [])) as Hc by run.
  split; [exact Hl|]. split; [exact Hc|].
  exact (single_analysis_call_fails script scripted loads key three
           (u "Globex") globex (start [network_down]) _ _ Hl Hc).
Defined.

Lemma single_analysis_falsy_reply_witness :
  lookup_by_name three (u "Globex") = Ok globex
  /\ scripted key (create_args (render_prompt globex))
       (world (start [empty_object]))
     = (Ok [TextBlock (uq "{}")], [])
  /\ loads (strip_fences (uq "{}")) = Ok (JObj [])
  /\ truthy (JObj []) = false
  /\ single_analysis scripted loads key three (u "Globex")
       (start [empty_object])
     = (Ok tt,
        {| world := [];
           sent := sent (start [empty_object])
                   ++ [create_args (render_prompt globex)];
           screen := screen (start [empty_object]) |}).
Proof.
  assert (lookup_by_name three (u "Globex") = Ok globex) as Hl by run.
  assert (scripted key (create_args (render_prompt globex))
            (world (start [empty_object]))
          = (Ok [TextBlock (uq "{}")], [])) as Hc by run.
  assert (loads (strip_fences (uq "{}")) = Ok (JObj [])) as Hv by run.
  assert (truthy (JObj []) = false) as Ht by reflexivity.
  split; [exact Hl|]. split; [exact Hc|]. split; [exact Hv|].
  split; [exact Ht|].
  exact (single_analysis_falsy_reply script scripted loads key three
           (u "Globex") globex (start [empty_object]) _ _ _ _ Hl Hc Hv Ht).
Defined.

Lemma show_analysis_well_formed_witness :
  exists label,
    show_analysis
      (JObj [(u "health_score", JInt 250);
             (u "churn_risk", JStr (u "extreme"));
             (u "analysis", JStr (u "?"));
             (u "recommendations",
              JArr [JStr (u "A"); JStr (u "B"); JStr (u "C"); JStr (u "D")])])
    = ([markdown (u "### 🎯 Análisis de IA");
        gauge (JInt 250);
        markdown (u "### Riesgo de Churn: " ++ label);
        markdown (u "#### 📝 Análisis:");
        info (JStr (u "?"));
        markdown (u "#### 💡 Recomendaciones:")]
         ++ enumerate 1 [JStr (u "A"); JStr (u "B"); JStr (u "C");
                         JStr (u "D")]
         ++ [st_json
               (JObj [(u "health_score", JInt 250);
                      (u "churn_risk", JStr (u "extreme"));
                      (u "analysis", JStr (u "?"));
                      (u "recommendations",
                       JArr [JStr (u "A"); JStr (u "B"); JStr (u "C");
                             JStr (u "D")])])],
       Ok tt).
Proof.
  destruct (show_analysis_well_formed
              [(u "health_score", JInt 250);
               (u "churn_risk", JStr (u "extreme"));
               (u "analysis", JStr (u "?"));
               (u "recommendations",
                JArr [JStr (u "A"); JStr (u "B"); JStr (u "C"); JStr (u "D")])]
              (JInt 250) (JStr (u "?")) (u "extreme")
              [JStr (u "A"); JStr (u "B"); JStr (u "C"); JStr (u "D")]
              ltac:(run) ltac:(run) ltac:(run) ltac:(run) ltac:(run))
    as [label [_ [H _]]].
  exists label. exact H.
Defined.

(** A reply with the four keys whose score is a text: the title is
    written, then the gauge is refused. *)
Lemma show_analysis_succeeds_iff_witness :
  truthy (JObj [(u "health_score", JStr (u "high"));
                (u "churn_risk", JStr (u "low"));
                (u "analysis", JStr (u "Quiet."));
                (u "recommendations", JArr [JStr (u "A")])]) = true
  /\ show_analysis
       (JObj [(u "health_score", JStr (u "high"));
              (u "churn_risk", JStr (u "low"));
              (u "analysis", JStr (u "Quiet."));
              (u "recommendations", JArr [JStr (u "A")])])
     = ([markdown (u "### 🎯 Análisis de IA")],
        Raise (Exc ValueError
                 (u "Invalid value received for the 'value' property of indicator")))
  /\ ~ In (st_json
             (JObj [(u "health_score", JStr (u "high"));
                    (u "churn_risk", JStr (u "low"));
                    (u "analysis", JStr (u "Quiet."));
                    (u "recommendations", JArr [JStr (u "A")])]))
          (fst (show_analysis
                  (JObj [(u "health_score", JStr (u "high"));
                         (u "churn_risk", JStr (u "low"));
                         (u "analysis", JStr (u "Quiet."));
                         (u "recommendations", JArr [JStr (u "A")])]))).
Proof.
  assert (truthy (JObj [(u "health_score", JStr (u "high"));
                        (u "churn_risk", JStr (u "low"));
                        (u "analysis", JStr (u "Quiet."));
                        (u "recommendations", JArr [JStr (u "A")])]) = true)
    as H by reflexivity.
  assert (show_analysis
            (JObj [(u "health_score", JStr (u "high"));
                   (u "churn_risk", JStr (u "low"));
                   (u "analysis", JStr (u "Quiet."));
                   (u "recommendations", JArr [JStr (u "A")])])
          = ([markdown (u "### 🎯 Análisis de IA")],
             Raise (Exc ValueError
                      (u "Invalid value received for the 'value' property of indicator"))))
    as E by run.
  split; [exact H|]. split; [exact E|].
  exact (proj2 (proj2 (show_analysis_succeeds_iff _ H) _
                  (f_equal snd E))).
Defined.

Lemma lookup_by_name_unique_witness :
  NoDup (map name three)
  /\ nth_error three 1 = Some globex
  /\ lookup_by_name three (name globex) = Ok globex.
Proof.
  assert (NoDup (map name three)) as Hnd.
  { repeat constructor; cbn [map three In]; intros H;
      repeat (destruct H as [H | H]; [vm_compute in H; discriminate H|]);
      exact H. }
  assert (nth_error three 1 = Some globex) as Hi by reflexivity.
  split; [exact Hnd|]. split; [exact Hi|].
  exact (lookup_by_name_unique three 1 globex Hnd Hi).
Defined.

Lemma revenue_card_matches_prompt_witness :
  total_revenue globex = inject_Z 98000
  /\ In (st_metric (u "Revenue Total") (u "$98,000")) (customer_metrics globex)
  /\ occurs (u "$98,000.00") (render_prompt globex).
Proof.
  assert (total_revenue globex = inject_Z 98000) as H by reflexivity.
  destruct (revenue_card_matches_prompt globex 98000 H) as [H1 H2].
  split; [exact H|]. split.
  - replace (u "$98,000") with (u "$" ++ format_whole (inject_Z 98000))
      by run.
    exact H1.
  - replace (u "$98,000.00")
      with (u "$" ++ format_whole (inject_Z 98000) ++ u ".00") by run.
    exact H2.
Defined.

Lemma batch_loop_keeps_truthy_witness :
  3 <= List.length three
  /\ Forall (fun ca => skipped_or_keyed (snd ca))
       (answers scripted loads key (firstn 3 three)
          (world (start [stable; empty_object; at_risk])))
  /\ exists rows st',
       batch_loop scripted loads key three 3 (seq 0 3) []
         (start [stable; empty_object; at_risk]) = (Ok rows, st')
       /\ List.length rows = 2.
Proof.
  assert (3 <= List.length three) as Hlen by (simpl; lia).
  assert (Forall (fun ca => skipped_or_keyed (snd ca))
            (answers scripted loads key (firstn 3 three)
               (world (start [stable; empty_object; at_risk])))) as Hus.
  { evaluate_list. repeat (constructor; [keyed_or_skipped|]). constructor. }
  split; [exact Hlen|]. split; [exact Hus|].
  destruct (batch_loop_keeps_truthy script scripted loads key three 3
              (start [stable; empty_object; at_risk]) Hlen Hus)
    as [rows [st' [H1 [H2 _]]]].
  exists rows, st'. split; [exact H1|].
  apply Forall2_length in H2. rewrite <- H2. run.
Defined.

Lemma batch_progress_reaches_end_witness :
  3 <= List.length three
  /\ Forall (fun ca => skipped_or_keyed (snd ca))
       (answers scripted loads key (firstn 3 three)
          (world (start second_fails)))
  /\ exists rows st',
       batch_loop scripted loads key three 3 (seq 0 3) [] (start second_fails)
       = (Ok rows, st')
       /\ progress_marks (screen st') = [(1, 3); (2, 3); (3, 3)].
Proof.
  assert (3 <= List.length three) as Hlen by (simpl; lia).
  assert (Forall (fun ca => skipped_or_keyed (snd ca))
            (answers scripted loads key (firstn 3 three)
               (world (start second_fails)))) as Hus.
  { evaluate_list. repeat (constructor; [keyed_or_skipped|]). constructor. }
  split; [exact Hlen|]. split; [exact Hus|].
  destruct (batch_progress_reaches_end script scripted loads key three 3
              (start second_fails) Hlen Hus)
    as [rows [st' [H1 [H2 _]]]].
  exists rows, st'. split; [exact H1 | exact H2].
Defined.

Lemma batch_stops_at_bad_reply_witness :
  1 < 3 /\ 3 <= List.length three
  /\ nth_error three 1 = Some globex
  /\ fst (batch_analysis scripted loads key three 3
            (start [stable; a_list; at_risk]))
     = Raise (Exc TypeError
                (u "list indices must be integers or slices, not str"))
  /\ sent (snd (batch_analysis scripted loads key three 3
                  (start [stable; a_list; at_risk])))
     = sent (start [stable; a_list; at_risk])
       ++ map (fun c => create_args (render_prompt c)) (firstn 2 three).
Proof.
  assert (1 < 3) as Hk by lia.
  assert (3 <= List.length three) as Hlen by (simpl; lia).
  assert (Forall (fun ca => skipped_or_keyed (snd ca))
            (answers scripted loads key (firstn 1 three)
               (world (start [stable; a_list; at_risk])))) as Hus.
  { evaluate_list. repeat (constructor; [keyed_or_skipped|]). constructor. }
  assert (nth_error three 1 = Some globex) as Hnth by reflexivity.
  assert (truthy (answer scripted loads key globex
                    (last_world scripted loads key (firstn 1 three)
                       (world (start [stable; a_list; at_risk]))))
          = true) as Ht by run.
  assert (result_of globex
            (answer scripted loads key globex
               (last_world scripted loads key (firstn 1 three)
                  (world (start [stable; a_list; at_risk]))))
          = Raise (Exc TypeError
                     (u "list indices must be integers or slices, not str")))
    as He by run.
  split; [exact Hk|]. split; [exact Hlen|]. split; [exact Hnth|].
  exact (batch_stops_at_bad_reply script scripted loads key three 3 1 globex _
           (start [stable; a_list; at_risk]) Hk Hlen Hus Hnth Ht He).
Defined.

Lemma batch_beyond_table_witness :
  List.length [acme; globex] < 3
  /\ fst (batch_analysis scripted loads key [acme; globex] 3
            (start [stable; stable]))
     = Raise (Exc IndexError (u "single positional indexer is out-of-bounds"))
  /\ sent (snd (batch_analysis scripted loads key [acme; globex] 3
                  (start [stable; stable])))
     = sent (start [stable; stable])
       ++ map (fun c => create_args (render_prompt c)) [acme; globex].
Proof.
  assert (List.length [acme; globex] < 3) as Hlen by (simpl; lia).
  assert (Forall (fun ca => skipped_or_keyed (snd ca))
            (answers scripted loads key [acme; globex]
               (world (start [stable; stable])))) as Hus.
  { evaluate_list. repeat (constructor; [keyed_or_skipped|]). constructor. }
  split; [exact Hlen|].
  exact (batch_beyond_table script scripted loads key [acme; globex] 3
           (start [stable; stable]) Hlen Hus).
Defined.

Lemma global_metrics_summary_witness :
  two_rows <> []
  /\ map Health_Score two_rows = map JInt [82; 64]%Z
  /\ exists m,
       global_metrics two_rows = Ok m
       /\ high_risk m = 1
       /\ (0 <= high_risk_percent m <= 100)%Q
       /\ (at_risk_revenue m <= total_revenue_sum m)%Q.
Proof.
  assert (two_rows <> []) as Hne by discriminate.
  assert (map Health_Score two_rows = map JInt [82; 64]%Z) as Hz
    by reflexivity.
  split; [exact Hne|]. split; [exact Hz|].
  destruct (global_metrics_summary two_rows [82; 64]%Z Hne Hz)
    as [m [H1 [H2 [_ [_ [H5 [_ [_ H8]]]]]]]].
  exists m. split; [exact H1|]. split; [rewrite H2; run|].
  split; [exact H5|]. apply H8.
  repeat constructor; unfold Qnonneg; cbn; discriminate.
Defined.
